(** * M3ED RMSE extraction and comparison tables

    A shallow embedding of the two scripts of the repository,
    [extract_m3ed_rmse.py] (the Extractor) and
    [generate_comparison_tables.py] (the Reporter), and the properties
    of the specification checked against them.

    Conventions of the embedding.
    - A Python [str] is a [string]; characters are code points below 256.
    - A Python/NumPy float is a primitive binary64 [float]; [nan] is the
      missing value of pandas, [pd.isna] is [is_nan].
    - A Python exception is the [Raise] case of [result].
    - A [dict] is an association list in insertion order.
    - [print] and file writes are recorded in an explicit output state. *)

From Stdlib Require Import Floats List String Ascii Bool Arith Lia ZArith.
From Stdlib Require Import Sorted Permutation DecimalString DecimalNat.
Import ListNotations.

Set Warnings "-inexact-float".
Local Open Scope string_scope.
Local Open Scope list_scope.

(** ** Exceptions *)

Inductive exn : Type :=
| KeyError
| ValueError
| TypeError
| IndexError.

Inductive result (A : Type) : Type :=
| Ok (a : A)
| Raise (e : exn).
Arguments Ok {A} a.
Arguments Raise {A} e.

Definition bind {A B : Type} (m : result A) (k : A -> result B) : result B :=
  match m with
  | Ok a => k a
  | Raise e => Raise e
  end.

Notation "'do' x <- m ; k" := (bind m (fun x => k))
  (at level 10, x name, m at level 100, k at level 200).

Fixpoint mapM {A B : Type} (f : A -> result B) (l : list A) : result (list B) :=
  match l with
  | [] => Ok []
  | a :: rest =>
      do b <- f a;
      do bs <- mapM f rest;
      Ok (b :: bs)
  end.

(** ** Python strings *)

Module PyStr.

(** [s[n:]] for [0 <= n]. *)
Fixpoint drop (n : nat) (s : string) : string :=
  match n, s with
  | O, _ => s
  | S _, EmptyString => EmptyString
  | S k, String _ rest => drop k rest
  end.

(** [s[:n]] for [0 <= n]. *)
Fixpoint take (n : nat) (s : string) : string :=
  match n, s with
  | O, _ => EmptyString
  | S _, EmptyString => EmptyString
  | S k, String c rest => String c (take k rest)
  end.

(** [s[:-k]]: the stop index [-k] counts from the end and is clamped
    at 0; [-0] is 0, so [s[:-0]] is empty. *)
Definition slice_to_neg (s : string) (k : nat) : string :=
  match k with
  | O => EmptyString
  | S _ => take (String.length s - k) s
  end.

(** [s.endswith(suffix)] *)
Definition endswith (s suffix : string) : bool :=
  Nat.leb (String.length suffix) (String.length s) &&
  String.eqb (drop (String.length s - String.length suffix) s) suffix.

(** [s.startswith(prefix)] *)
Definition startswith (s p : string) : bool := String.prefix p s.

End PyStr.

(** ** Python dictionaries *)

Module Dict.

(** A [dict] with [str] keys: an association list in insertion
    order, every key at most once. *)
Definition t (V : Type) : Type := list (string * V).

(** [d[k] = v]: overwrites in place, or appends a new key. *)
Fixpoint set {V : Type} (d : t V) (k : string) (v : V) : t V :=
  match d with
  | [] => [(k, v)]
  | (k', v') :: rest =>
      if String.eqb k' k then (k', v) :: rest else (k', v') :: set rest k v
  end.

Fixpoint find {V : Type} (d : t V) (k : string) : option V :=
  match d with
  | [] => None
  | (k', v') :: rest => if String.eqb k' k then Some v' else find rest k
  end.

(** [d[k]] *)
Definition get {V : Type} (d : t V) (k : string) : result V :=
  match find d k with
  | Some v => Ok v
  | None => Raise KeyError
  end.

(** [d.get(k, default)] *)
Definition get_or {V : Type} (d : t V) (k : string) (default : V) : V :=
  match find d k with
  | Some v => v
  | None => default
  end.

Definition keys {V : Type} (d : t V) : list string := map fst d.
Definition values {V : Type} (d : t V) : list V := map snd d.

End Dict.

(** ** Floats as NumPy uses them *)

Module Np.

Local Open Scope float_scope.

(** [np.minimum] and [np.maximum] propagate [nan]. *)
Definition minimum (a b : float) : float :=
  if is_nan a then a else if is_nan b then b
  else if b <? a then b else a.

Definition maximum (a b : float) : float :=
  if is_nan a then a else if is_nan b then b
  else if a <? b then b else a.

(** [np.min] and [np.max] of a sequence; empty input raises. *)
Definition min (l : list float) : result float :=
  match l with
  | [] => Raise ValueError
  | x :: rest => Ok (fold_left minimum rest x)
  end.

Definition max (l : list float) : result float :=
  match l with
  | [] => Raise ValueError
  | x :: rest => Ok (fold_left maximum rest x)
  end.

(** The order of [np.sort]: ascending, [nan] last. *)
Definition le (x y : float) : bool := is_nan y || (x <=? y).

Fixpoint insert (x : float) (l : list float) : list float :=
  match l with
  | [] => [x]
  | y :: rest => if le x y then x :: l else y :: insert x rest
  end.

Definition sort (l : list float) : list float := fold_right insert [] l.

(** [np.median]: with V_sorted a sorted copy of the N values, the
    middle value V_sorted[(N-1)/2] when N is odd and the average of the
    two middle values when N is even; [nan] when a value is [nan] or
    there is none. *)
Definition median (l : list float) : float :=
  let n := List.length l in
  let v_sorted := sort l in
  if existsb is_nan l then nan
  else if Nat.even n then
    (nth (n / 2 - 1) v_sorted nan + nth (n / 2) v_sorted nan) / 2
  else nth ((n - 1) / 2) v_sorted nan.

End Np.

(** ** Extractor: the pattern [rmse\s+([\d.]+)], case-insensitive *)

Module Re.

Local Open Scope nat_scope.

Definition code (c : ascii) : nat := nat_of_ascii c.

(** [\s] of a [str] pattern, on code points below 256. *)
Definition is_space (c : ascii) : bool :=
  let n := code c in
  ((9 <=? n) && (n <=? 13)) || ((28 <=? n) && (n <=? 32))
  || (n =? 133) || (n =? 160).

(** [\d] on code points below 256. *)
Definition is_digit (c : ascii) : bool :=
  let n := code c in (48 <=? n) && (n <=? 57).

(** The class [[\d.]]. *)
Definition is_digit_or_dot (c : ascii) : bool :=
  is_digit c || Ascii.eqb c "."%char.

Definition lower (c : ascii) : ascii :=
  let n := code c in
  if (65 <=? n) && (n <=? 90) then ascii_of_nat (n + 32) else c.

(** A literal of the pattern under [re.IGNORECASE]; gives the rest of
    the subject after the literal. *)
Fixpoint match_literal (lit s : string) : option string :=
  match lit, s with
  | EmptyString, _ => Some s
  | String _ _, EmptyString => None
  | String a lit', String b s' =>
      if Ascii.eqb (lower a) (lower b) then match_literal lit' s' else None
  end.

(** A greedy run of a character class: the run and what follows. *)
Fixpoint span (p : ascii -> bool) (s : string) : string * string :=
  match s with
  | EmptyString => (EmptyString, EmptyString)
  | String c rest =>
      if p c then let (run, tail) := span p rest in (String c run, tail)
      else (EmptyString, s)
  end.

(** The pattern anchored at the start of [s]: the captured group and
    the length of the whole match.  The two classes are disjoint, so
    the greedy runs are the only candidates. *)
Definition match_here (s : string) : option (string * nat) :=
  match match_literal "rmse" s with
  | None => None
  | Some after_lit =>
      let (spaces, after_spaces) := span is_space after_lit in
      let (number, _) := span is_digit_or_dot after_spaces in
      match spaces, number with
      | EmptyString, _ => None
      | _, EmptyString => None
      | _, _ => Some (number, 4 + String.length spaces + String.length number)
      end
  end.

(** [re.findall]: leftmost matches, none overlapping; [skip] counts
    the characters still covered by the last match. *)
Fixpoint findall_from (s : string) (skip : nat) : list string :=
  match s with
  | EmptyString => []
  | String _ rest =>
      match skip with
      | S k => findall_from rest k
      | O =>
          match match_here s with
          | Some (group, len) => group :: findall_from rest (len - 1)
          | None => findall_from rest 0
          end
      end
  end.

Definition findall (content : string) : list string := findall_from content 0.

End Re.

(** [float(r)] accepts a token of digits and dots when it has one dot
    at most and a digit at least. *)
Definition valid_float_literal (tok : string) : bool :=
  let (int_part, rest) := Re.span Re.is_digit tok in
  match rest with
  | EmptyString => negb (String.eqb int_part "")
  | String c frac =>
      let (frac_part, rest') := Re.span Re.is_digit frac in
      Ascii.eqb c "."%char && String.eqb rest' ""
      && negb (String.eqb int_part "" && String.eqb frac_part "")
  end.

(** [int(s)] for a string of decimal digits. *)
Fixpoint digits_value (s : string) (acc : nat) : option nat :=
  match s with
  | EmptyString => Some acc
  | String c rest =>
      if Re.is_digit c then digits_value rest (10 * acc + (Re.code c - 48))%nat
      else None
  end.

Definition py_int (s : string) : result nat :=
  match s with
  | EmptyString => Raise ValueError
  | _ => match digits_value s 0 with
         | Some n => Ok n
         | None => Raise ValueError
         end
  end.

(** [str(i)] of a non-negative integer. *)
Definition str_of_nat (n : nat) : string :=
  NilEmpty.string_of_uint (Nat.to_uint n).

(** [l[-1]] *)
Definition py_last {A : Type} (l : list A) : result A :=
  match rev l with
  | [] => Raise IndexError
  | x :: _ => Ok x
  end.

(** [sorted] on strings: a stable insertion sort by code points. *)
Fixpoint insert_by {A : Type} (leb : A -> A -> bool) (x : A) (l : list A)
  : list A :=
  match l with
  | [] => [x]
  | y :: rest => if leb x y then x :: l else y :: insert_by leb x rest
  end.

Definition sort_by {A : Type} (leb : A -> A -> bool) (l : list A) : list A :=
  fold_right (insert_by leb) [] l.

Definition sorted_str (l : list string) : list string := sort_by String.leb l.

(** [s.split(sep)] for a one-character separator. *)
Fixpoint split_on (sep : ascii) (s : string) : list string :=
  match s with
  | EmptyString => [EmptyString]
  | String c rest =>
      if Ascii.eqb c sep then EmptyString :: split_on sep rest
      else match split_on sep rest with
           | [] => [String c EmptyString]
           | w :: ws => String c w :: ws
           end
  end.

(** ** Extractor *)

(** A cell of a summary row. *)
Inductive value : Type :=
| VStr (s : string)
| VInt (n : nat)
| VFloat (x : float).

Definition row : Type := Dict.t value.

(** What the Extractor prints. *)
Inductive extract_event : Type :=
| FoundRuns (dirname : string) (runs : nat) (median : float)
| NoRmseData (dirname : string)
| SavedCsv (experiments : nat) (path : string).

(** An entry of the base directory: its name and, when the entry is a
    directory holding [results.txt], the text of that file. *)
Record dir_entry : Type := {
  de_name : string;
  de_results : option string
}.

Record DataFrame : Type := {
  df_columns : list string;
  df_rows : list row
}.

(** [pd.DataFrame(records)]: the columns are the keys of the records in
    order of first appearance; no record, no column. *)
Definition add_column (cols : list string) (k : string) : list string :=
  if existsb (String.eqb k) cols then cols else cols ++ [k].

Definition DataFrame_of_records (records : list row) : DataFrame :=
  {| df_columns :=
       fold_left (fun cols r => fold_left add_column (Dict.keys r) cols)
                 records [];
     df_rows := records |}.

(** [df[cols]]: a label that is not a column raises [KeyError]. *)
Definition df_select (df : DataFrame) (cols : list string) : result DataFrame :=
  if forallb (fun c => existsb (String.eqb c) (df_columns df)) cols
  then Ok {| df_columns := cols; df_rows := df_rows df |}
  else Raise KeyError.

(** The table as [to_csv] lays it out: a header and one line per row,
    an empty cell where the row has no such key. *)
Record csv_file : Type := {
  csv_path : string;
  csv_header : list string;
  csv_lines : list (list (option value))
}.

Definition to_csv (df : DataFrame) (path : string) : csv_file :=
  {| csv_path := path;
     csv_header := df_columns df;
     csv_lines := map (fun r => map (Dict.find r) (df_columns df)) (df_rows df) |}.

Definition base_cols : list string :=
  ["name"; "num_runs"; "rmse_mean"; "rmse_median"; "rmse_min"; "rmse_max";
   "rmse_last"].

Definition output_path : string :=
  "/media/SSD/vins-dashboard-generator/m3ed_rmse.csv".

(** The key [int(x.split('_')[1])] of the sort of the run columns. *)
Definition run_col_key (x : string) : result nat :=
  match nth_error (split_on "_"%char x) 1 with
  | Some t => py_int t
  | None => Raise IndexError
  end.

Definition sorted_run_cols (run_cols : list string) : result (list string) :=
  do keyed <- mapM (fun x => do k <- run_col_key x; Ok (k, x)) run_cols;
  Ok (map snd (sort_by (fun a b => Nat.leb (fst a) (fst b)) keyed)).

Definition run_key (i : nat) : string := "run_" ++ str_of_nat i.

(** [for i, val in enumerate(rmse_values, i0): row[f'run_{i}'] = val] *)
Fixpoint add_runs (r : row) (i : nat) (rmse_values : list float) : row :=
  match rmse_values with
  | [] => r
  | val :: rest => add_runs (Dict.set r (run_key i) (VFloat val)) (S i) rest
  end.

(** The run columns in closed form: the keys [run_i], [run_(i+1)], ...
    paired with the observations in order. *)
Definition run_entries (i : nat) (rmse_values : list float) : row :=
  combine (map run_key (seq i (List.length rmse_values)))
          (map VFloat rmse_values).

(** Instances of the two library functions, for the examples: the mean
    by plain summation from left to right, and [float] on the literals
    of the end-to-end scenario of the specification. *)
Definition sum_mean (l : list float) : float :=
  (fold_left PrimFloat.add l 0
   / PrimFloat.of_uint63 (Uint63.of_Z (Z.of_nat (List.length l))))%float.

Definition float_of_example_literal (tok : string) : float :=
  if String.eqb tok "0.5200" then 0.52%float
  else if String.eqb tok "0.4800" then 0.48%float
  else if String.eqb tok "0.4000" then 0.4%float
  else 0%float.

Section Extractor.

(** [np.mean], and the value of [float] on a decimal literal: library
    arithmetic the scripts call, kept abstract. *)
Variable np_mean : list float -> float.
Variable float_of_literal : string -> float.

(** [float(r)] on a captured token. *)
Definition py_float (tok : string) : result float :=
  if valid_float_literal tok then Ok (float_of_literal tok)
  else Raise ValueError.

(** [parse_results_file]: [file] is [None] when the path does not
    exist. *)
Definition parse_results_file (file : option string)
  : result (option (list float)) :=
  match file with
  | None => Ok None
  | Some content =>
      let rmse_matches := Re.findall content in
      do rmse_values <- mapM py_float rmse_matches;
      match rmse_values with
      | [] => Ok None
      | _ :: _ => Ok (Some rmse_values)
      end
  end.

(** The summary row of one experiment. *)
Definition make_row (dirname : string) (rmse_values : list float)
  : result row :=
  let mean := np_mean rmse_values in
  let median := Np.median rmse_values in
  do vmin <- Np.min rmse_values;
  do vmax <- Np.max rmse_values;
  do vlast <- py_last rmse_values;
  let r := [ ("name", VStr dirname);
             ("num_runs", VInt (List.length rmse_values));
             ("rmse_mean", VFloat mean);
             ("rmse_median", VFloat median);
             ("rmse_min", VFloat vmin);
             ("rmse_max", VFloat vmax);
             ("rmse_last", VFloat vlast) ] in
  Ok (add_runs r 1 rmse_values).

(** The loop of [scan_results] over the sorted directories. *)
Fixpoint scan_loop (dirs : list dir_entry) (results : list row)
                   (out : list extract_event)
  : result (list row * list extract_event) :=
  match dirs with
  | [] => Ok (results, out)
  | d :: rest =>
      let dirname := de_name d in
      do rmse_values <- parse_results_file (de_results d);
      match rmse_values with
      | Some ((_ :: _) as vals) =>
          do r <- make_row dirname vals;
          scan_loop rest (results ++ [r])
            (out ++ [FoundRuns dirname (List.length vals) (Np.median vals)])
      | _ => scan_loop rest results (out ++ [NoRmseData dirname])
      end
  end.

(** [scan_results]: the entries of the base directory matching
    [spot_*], in sorted order. *)
Definition scan_results (base_dir : list dir_entry)
  : result (list row * list extract_event) :=
  let dirs :=
    sort_by (fun a b => String.leb (de_name a) (de_name b))
      (filter (fun d => PyStr.startswith (de_name d) "spot_") base_dir) in
  scan_loop dirs [] [].

(** The module-level steps after the scan: build the frame, reorder
    its columns, save it. *)
Definition save_results (results : list row) : result csv_file :=
  let df := DataFrame_of_records results in
  let run_cols := filter (fun c => PyStr.startswith c "run_") (df_columns df) in
  do run_cols <- sorted_run_cols run_cols;
  do df <- df_select df (base_cols ++ run_cols);
  Ok (to_csv df output_path).

(** The whole script on a base directory. *)
Definition extractor_main (base_dir : list dir_entry)
  : result (csv_file * list extract_event) :=
  do scanned <- scan_results base_dir;
  let (results, out) := scanned in
  do csv <- save_results results;
  Ok (csv, out ++ [SavedCsv (List.length (csv_lines csv)) output_path]).

End Extractor.

(** ** Reporter: deriving (sequence, variant) from an experiment name *)

(** Known variant suffixes, in the order the source lists them. *)
Definition variant_markers : list string :=
  [ "_daac_depth_opt_log_mahalanobis_w50";
    "_daac_depth_opt_log_mahalanobis_w30";
    "_daac_depth_opt_mahalanobis_w1000";
    "_daac_depth_opt_mahalanobis_w500";
    "_daac_depth_opt_mahalanobis_w100";
    "_daac_depth_opt_log_w100";
    "_daac_depth_opt_w1000";
    "_daac_depth_opt_w500";
    "_daac_depth_opt_w100";
    "_daac_rgd_inv";
    "_daac_rgd_metric";
    "_base" ].

(** The [for marker in variant_markers] loop of [parse_name]: the first
    marker that ends the name decides; [(None, None)] when the loop
    runs out. *)
Fixpoint parse_name_loop (name : string) (markers : list string)
  : option string * option string :=
  match markers with
  | [] => (None, None)
  | marker :: rest =>
      if PyStr.endswith name marker then
        let seq := PyStr.slice_to_neg name (String.length marker) in
        let variant := PyStr.drop 1 marker in
        (Some seq, Some variant)
      else parse_name_loop name rest
  end.

Definition parse_name (name : string) : option string * option string :=
  parse_name_loop name variant_markers.

(** ** Reporter: the pivot table *)

(** A row or column label of the pivot; [None] is the missing label
    ([None] as [parse_name] returns it, NaN once it is in an index). *)
Definition label : Type := option string.

Definition label_eqb (a b : label) : bool :=
  match a, b with
  | None, None => true
  | Some x, Some y => String.eqb x y
  | _, _ => false
  end.

Definition key_eqb (a b : label * label) : bool :=
  label_eqb (fst a) (fst b) && label_eqb (snd a) (snd b).

(** The labels of an axis as pandas orders them: the missing label
    first when it occurs, then the strings in ascending order, each
    once. *)
Fixpoint dedup (l : list string) : list string :=
  match l with
  | [] => []
  | x :: rest => if existsb (String.eqb x) rest then dedup rest else x :: dedup rest
  end.

Fixpoint somes (l : list label) : list string :=
  match l with
  | [] => []
  | Some x :: rest => x :: somes rest
  | None :: rest => somes rest
  end.

Definition axis_labels (l : list label) : list label :=
  (if existsb (label_eqb None) l then [None] else [])
  ++ map Some (sorted_str (dedup (somes l))).

Fixpoint has_duplicate_key (keys : list (label * label)) : bool :=
  match keys with
  | [] => false
  | k :: rest => existsb (key_eqb k) rest || has_duplicate_key rest
  end.

Record pivot_table : Type := {
  pv_index : list label;
  pv_columns : list label;
  pv_cells : list (label * label * float)
}.

(** [df.pivot(index='sequence', columns='variant', values='rmse_median')]:
    reshapes by the pair of labels of every row.  A pair occurring
    twice raises [ValueError]; rows whose label is missing are reshaped
    like the others, under the missing label. *)
Definition pivot (rows : list (label * label * float)) : result pivot_table :=
  if has_duplicate_key (map fst rows) then Raise ValueError
  else Ok {| pv_index := axis_labels (map (fun r => fst (fst r)) rows);
             pv_columns := axis_labels (map (fun r => snd (fst r)) rows);
             pv_cells := rows |}.

Fixpoint find_cell (cells : list (label * label * float)) (k : label * label)
  : option float :=
  match cells with
  | [] => None
  | (k', v) :: rest => if key_eqb k' k then Some v else find_cell rest k
  end.

(** [table_df.loc[seq, col] if seq in table_df.index and col in
    table_df.columns else np.nan], for a label [col] that names one
    column of [table_df]; a pair never observed holds NaN. *)
Definition pv_lookup (pv : pivot_table) (available_cols : list string)
                     (seq : label) (col : string) : float :=
  if existsb (label_eqb seq) (pv_index pv)
     && existsb (String.eqb col) available_cols
  then match find_cell (pv_cells pv) (seq, Some col) with
       | Some v => v
       | None => nan
       end
  else nan.

(** [sorted] on the list of index labels: strings are ordered by code
    points; ordering a string against NaN raises [TypeError]. *)
Definition sorted_labels (l : list label) : result (list label) :=
  if existsb (label_eqb None) l && negb (forallb (label_eqb None) l)
  then Raise TypeError
  else if existsb (label_eqb None) l then Ok l
  else Ok (map Some (sorted_str (somes l))).

(** [a, b = zip( *pairs)]: unpacking needs the two tuples that [zip]
    yields when there is a pair at least. *)
Definition unzip_pairs {A B : Type} (pairs : list (A * B))
  : result (list A * list B) :=
  match pairs with
  | [] => Raise ValueError
  | _ :: _ => Ok (map fst pairs, map snd pairs)
  end.

(** ** Reporter: rendering one comparison table *)

Definition OUTLIER_THRESHOLD : float := 10.0%float.

(** A [<td>] of a rendered table. *)
Inductive td : Type :=
| TdSeq (seq : label)
| TdDash
| TdOutlier
| TdValue (cell_class : string) (val : float) (pct : option (string * float))
| TdAvgLabel
| TdAvg (pct_class : string) (avg_pct : float).

(** A rendered table: the [<th>] texts of the header, the [<td>] cells
    of every data row and of the closing average row. *)
Record html_table : Type := {
  tbl_title : string;
  tbl_header : list string;
  tbl_body : list (list td);
  tbl_avg_row : list td
}.

(** [col.replace('_', ' ').replace('daac ', '').title()], on ASCII
    column names. *)
Module Display.

Local Open Scope nat_scope.

Definition is_lower (c : ascii) : bool :=
  (97 <=? Re.code c) && (Re.code c <=? 122).
Definition is_upper (c : ascii) : bool :=
  (65 <=? Re.code c) && (Re.code c <=? 90).
Definition upper (c : ascii) : ascii :=
  if is_lower c then ascii_of_nat (Re.code c - 32) else c.

Fixpoint replace_char (old new : ascii) (s : string) : string :=
  match s with
  | EmptyString => EmptyString
  | String c rest =>
      String (if Ascii.eqb c old then new else c) (replace_char old new rest)
  end.

(** [s.replace(pat, '')] for a non-empty [pat]. *)
Fixpoint remove_from (pat s : string) (skip : nat) : string :=
  match s with
  | EmptyString => EmptyString
  | String c rest =>
      match skip with
      | S k => remove_from pat rest k
      | O =>
          if String.prefix pat s
          then remove_from pat rest (String.length pat - 1)
          else String c (remove_from pat rest 0)
      end
  end.

Fixpoint title_from (s : string) (previous_is_cased : bool) : string :=
  match s with
  | EmptyString => EmptyString
  | String c rest =>
      if is_lower c || is_upper c then
        String (if previous_is_cased then Re.lower c else upper c)
               (title_from rest true)
      else String c (title_from rest false)
  end.

Definition display_name (col : string) : string :=
  title_from (remove_from "daac " (replace_char "_" " " col) 0) false.

End Display.

(** The class of a percent change: below -1 an improvement, above +1
    a degradation. *)
Definition pct_class_of (pct_change : float) : string :=
  if (pct_change <? -1)%float then "improvement"
  else if (1 <? pct_change)%float then "degradation"
  else "".

Definition pct_change_of (val baseline_val : float) : float :=
  (((val - baseline_val) / baseline_val) * 100)%float.

(** Python's [min] of a sequence of floats. *)
Definition py_min (l : list float) : option float :=
  match l with
  | [] => None
  | x :: rest =>
      Some (fold_left (fun cur item => if (item <? cur)%float then item else cur)
                      rest x)
  end.

(** The values of a row that count for its best value. *)
Definition valid_values (row_values : Dict.t float) : list float :=
  filter (fun v => negb (is_nan v) && (v <? OUTLIER_THRESHOLD)%float)
         (Dict.values row_values).

(** One cell of a data row: the [<td>] and, when the cell is compared
    with the baseline, the percent change to record for its column. *)
Definition render_cell (col : string) (val baseline_val : float)
                       (min_val : option float) : td * option float :=
  if is_nan val then (TdDash, None)
  else if (OUTLIER_THRESHOLD <=? val)%float then (TdOutlier, None)
  else
    let cell_class :=
      match min_val with
      | Some m => if (abs (val - m) <? 0.0001)%float then "best" else ""
      | None => ""
      end in
    if negb (String.eqb col "base") && negb (is_nan baseline_val)
       && (baseline_val <? OUTLIER_THRESHOLD)%float
       && (val <? OUTLIER_THRESHOLD)%float
    then
      let pct_change := pct_change_of val baseline_val in
      (TdValue cell_class val (Some (pct_class_of pct_change, pct_change)),
       Some pct_change)
    else (TdValue cell_class val None, None).

(** [pct_changes[col].append(pct_change)] *)
Definition dict_append (pct_changes : Dict.t (list float)) (col : string)
                       (pct_change : float) : result (Dict.t (list float)) :=
  do l <- Dict.get pct_changes col;
  Ok (Dict.set pct_changes col (l ++ [pct_change])).

(** The inner [for col in available_cols] loop of a data row. *)
Fixpoint render_cells (cols : list string) (row_values : Dict.t float)
                      (baseline_val : float) (min_val : option float)
                      (pct_changes : Dict.t (list float))
  : result (list td * Dict.t (list float)) :=
  match cols with
  | [] => Ok ([], pct_changes)
  | col :: rest =>
      do val <- Dict.get row_values col;
      let (cell, pct) := render_cell col val baseline_val min_val in
      do pct_changes' <-
         match pct with
         | Some p => dict_append pct_changes col p
         | None => Ok pct_changes
         end;
      do r <- render_cells rest row_values baseline_val min_val pct_changes';
      Ok (cell :: fst r, snd r)
  end.

(** Whether [table_df.loc[seq, col]] is a Series instead of a number:
    [table_df] is [pivot_df[available_cols]], which holds a column once
    for each time the list names it, and a label that names several
    columns selects them all. *)
Definition loc_is_series (pv : pivot_table) (available_cols : list string)
                         (seq : label) (col : string) : bool :=
  existsb (label_eqb seq) (pv_index pv)
  && (1 <? List.length (filter (String.eqb col) available_cols))%nat.

(** One data row: the sequence cell, then a cell per column.  The test
    [pd.notna(v) and v < OUTLIER_THRESHOLD] that selects the valid
    values raises [ValueError] on a value that is a Series, whose truth
    value is ambiguous. *)
Definition render_row (pv : pivot_table) (available_cols : list string)
                      (seq : label) (pct_changes : Dict.t (list float))
  : result (list td * Dict.t (list float)) :=
  let row_values :=
    fold_left (fun d col => Dict.set d col (pv_lookup pv available_cols seq col))
              available_cols [] in
  if existsb (loc_is_series pv available_cols seq) available_cols
  then Raise ValueError
  else
  let min_val := py_min (valid_values row_values) in
  let baseline_val := Dict.get_or row_values "base" nan in
  do r <- render_cells available_cols row_values baseline_val min_val pct_changes;
  Ok (TdSeq seq :: fst r, snd r).

(** The [for seq in sequences] loop. *)
Fixpoint render_rows (pv : pivot_table) (available_cols : list string)
                     (sequences : list label)
                     (pct_changes : Dict.t (list float))
  : result (list (list td) * Dict.t (list float)) :=
  match sequences with
  | [] => Ok ([], pct_changes)
  | seq :: rest =>
      do r <- render_row pv available_cols seq pct_changes;
      do rs <- render_rows pv available_cols rest (snd r);
      Ok (fst r :: fst rs, snd rs)
  end.

(** ** Reporter: files, the table generator and the index *)

Record index_entry : Type := {
  ie_title : string;
  ie_filename : string;
  ie_description : string
}.

(** What the Reporter writes into a file. *)
Inductive document : Type :=
| TableDoc (t : html_table)
| IndexDoc (cards : list index_entry).

(** What the Reporter prints. *)
Inductive report_event : Type :=
| WarnNoColumns (title : string)
| Generated (path : string)
| AllGenerated (dir : string).

(** The files written so far, by path, and the lines printed. *)
Record world : Type := {
  w_files : Dict.t document;
  w_out : list report_event
}.

Definition write_file (w : world) (path : string) (doc : document) : world :=
  {| w_files := Dict.set (w_files w) path doc; w_out := w_out w |}.

Definition print (w : world) (e : report_event) : world :=
  {| w_files := w_files w; w_out := w_out w ++ [e] |}.

Record table_config : Type := {
  cfg_title : string;
  cfg_columns : list string;
  cfg_filename : string;
  cfg_description : string
}.

Definition output_dir : string := "/media/SSD/vins-dashboard-generator/rmse_tables".

Definition path_join (dir file : string) : string := dir ++ "/" ++ file.

Definition tables_config : list table_config :=
  [ {| cfg_title := "Baseline vs Depth Optimization (and Log Opt)";
       cfg_columns := ["base"; "daac_depth_opt_w100"; "daac_depth_opt_w500";
                       "daac_depth_opt_w1000"; "daac_depth_opt_log_w100"];
       cfg_filename := "baseline_vs_depth_opt.html";
       cfg_description := "Comparison of baseline with depth optimization variants (w100, w500, w1000) and log optimization." |};
    {| cfg_title := "Baseline vs RGD (Inverse + Metric)";
       cfg_columns := ["base"; "daac_rgd_inv"; "daac_rgd_metric"];
       cfg_filename := "baseline_vs_rgd.html";
       cfg_description := "Comparison of baseline with inverse depth RGD and metric RGD variants." |};
    {| cfg_title := "Baseline vs Mahalanobis Optimization";
       cfg_columns := ["base"; "daac_depth_opt_mahalanobis_w100";
                       "daac_depth_opt_mahalanobis_w500";
                       "daac_depth_opt_mahalanobis_w1000";
                       "daac_depth_opt_log_mahalanobis_w30"];
       cfg_filename := "baseline_vs_mahal.html";
       cfg_description := "Comparison of baseline with Mahalanobis depth optimization variants." |};
    {| cfg_title := "Depth Opt vs Mahalanobis Opt";
       cfg_columns := ["base"; "daac_depth_opt_w100";
                       "daac_depth_opt_mahalanobis_w100";
                       "daac_depth_opt_w500"; "daac_depth_opt_mahalanobis_w500";
                       "daac_depth_opt_w1000";
                       "daac_depth_opt_mahalanobis_w1000"];
       cfg_filename := "depth_opt_vs_mahal.html";
       cfg_description := "Side-by-side comparison of regular depth optimization vs Mahalanobis optimization." |};
    {| cfg_title := "Baseline vs All Variants";
       cfg_columns := ["base"; "daac_depth_opt_w100"; "daac_depth_opt_w500";
                       "daac_depth_opt_w1000"; "daac_depth_opt_log_w100";
                       "daac_depth_opt_mahalanobis_w100";
                       "daac_depth_opt_mahalanobis_w500";
                       "daac_depth_opt_mahalanobis_w1000";
                       "daac_depth_opt_log_mahalanobis_w30"; "daac_rgd_inv";
                       "daac_rgd_metric"];
       cfg_filename := "baseline_vs_all.html";
       cfg_description := "Comparison of baseline with all available variants." |} ].

(** [generate_index_html]: one card per entry of [tables], written to
    [index.html] of the output directory. *)
Definition generate_index_html (tables : list index_entry) (dir : string)
                               (w : world) : world :=
  let index_path := path_join dir "index.html" in
  print (write_file w index_path (IndexDoc tables)) (Generated index_path).

Section Reporter.

(** [np.mean], kept abstract. *)
Variable np_mean : list float -> float.

(** The cells of the average row after its label and the baseline
    dash: one per column other than [base]. *)
Fixpoint avg_cells (cols : list string) (pct_changes : Dict.t (list float))
  : result (list td) :=
  match cols with
  | [] => Ok []
  | col :: rest =>
      if String.eqb col "base" then avg_cells rest pct_changes
      else
        do l <- Dict.get pct_changes col;
        let cell :=
          match l with
          | _ :: _ =>
              let avg_pct := np_mean l in
              TdAvg (pct_class_of avg_pct) avg_pct
          | [] => TdDash
          end in
        do cells <- avg_cells rest pct_changes;
        Ok (cell :: cells)
  end.

(** The table of a group whose resolved columns are [available_cols]. *)
Definition build_table (pv : pivot_table) (sequences : list label)
                       (title : string) (available_cols : list string)
  : result html_table :=
  let header := "Sequence" :: map Display.display_name available_cols in
  let pct_changes :=
    fold_left (fun d col => Dict.set d col [])
              (filter (fun col => negb (String.eqb col "base")) available_cols)
              [] in
  do body <- render_rows pv available_cols sequences pct_changes;
  do avg <- avg_cells available_cols (snd body);
  Ok {| tbl_title := title;
        tbl_header := header;
        tbl_body := fst body;
        tbl_avg_row := TdAvgLabel :: TdDash :: avg |}.

(** [generate_table_html]: warns and returns when no requested column
    is in the pivot; writes the table otherwise. *)
Definition generate_table_html (pv : pivot_table) (sequences : list label)
                               (title : string) (columns : list string)
                               (output_file : string) (w : world)
  : result world :=
  let available_cols :=
    filter (fun c => existsb (label_eqb (Some c)) (pv_columns pv)) columns in
  match available_cols with
  | [] => Ok (print w (WarnNoColumns title))
  | _ :: _ =>
      do t <- build_table pv sequences title available_cols;
      Ok (print (write_file w output_file (TableDoc t)) (Generated output_file))
  end.

(** The module-level loop over [tables_config]. *)
Fixpoint generate_tables (pv : pivot_table) (sequences : list label)
                         (configs : list table_config)
                         (tables_list : list index_entry) (w : world)
  : result (list index_entry * world) :=
  match configs with
  | [] => Ok (tables_list, w)
  | config :: rest =>
      let output_path := path_join output_dir (cfg_filename config) in
      do w' <- generate_table_html pv sequences (cfg_title config)
                 (cfg_columns config) output_path w;
      generate_tables pv sequences rest
        (tables_list ++ [ {| ie_title := cfg_title config;
                             ie_filename := cfg_filename config;
                             ie_description := cfg_description config |} ])
        w'
  end.

(** The whole script on the table read from the CSV file: the name
    and the median RMSE of every row. *)
Definition reporter_main (df : list (string * float)) : result world :=
  do parsed <- unzip_pairs (map (fun r => parse_name (fst r)) df);
  let (sequence, variant) := parsed in
  let rows := combine (combine sequence variant) (map snd df) in
  do pivot_df <- pivot rows;
  do sequences <- sorted_labels (pv_index pivot_df);
  do done <- generate_tables pivot_df sequences tables_config []
               {| w_files := []; w_out := [] |};
  let (tables_list, w) := done in
  Ok (print (generate_index_html tables_list output_dir w)
            (AllGenerated output_dir)).

End Reporter.

(** ** Notions used to state properties *)

(** Every character of a string satisfies a test. *)
Fixpoint string_forall (p : ascii -> bool) (s : string) : bool :=
  match s with
  | EmptyString => true
  | String c rest => p c && string_forall p rest
  end.

(** A string with its upper-case ASCII letters lowered. *)
Fixpoint lower_string (s : string) : string :=
  match s with
  | EmptyString => EmptyString
  | String c rest => String (Re.lower c) (lower_string rest)
  end.

(** A cell that carries no percent change. *)
Definition no_annotation (c : td) : bool :=
  match c with
  | TdValue _ _ (Some _) => false
  | _ => true
  end.

(** A cell that shows a value, an outlier mark or a dash, and nothing
    else. *)
Definition plain_cell (val : float) (c : td) : Prop :=
  match c with
  | TdDash => is_nan val = true
  | TdOutlier => is_nan val = false /\ (OUTLIER_THRESHOLD <=? val)%float = true
  | TdValue _ v None =>
      v = val /\ is_nan val = false /\ (OUTLIER_THRESHOLD <=? val)%float = false
  | _ => False
  end.

(** The directory a progress line of the Extractor is about. *)
Definition event_dirname (e : extract_event) : option string :=
  match e with
  | FoundRuns dirname _ _ => Some dirname
  | NoRmseData dirname => Some dirname
  | SavedCsv _ _ => None
  end.

(** The directories for which the Extractor reports runs. *)
Fixpoint found_dirnames (out : list extract_event) : list string :=
  match out with
  | [] => []
  | FoundRuns dirname _ _ :: rest => dirname :: found_dirnames rest
  | _ :: rest => found_dirnames rest
  end.

(** The card of the index page for a configured group. *)
Definition index_entry_of (config : table_config) : index_entry :=
  {| ie_title := cfg_title config;
     ie_filename := cfg_filename config;
     ie_description := cfg_description config |}.

(** The number of occurrences of a character, and whether some
    character satisfies a test. *)
Fixpoint count_char (a : ascii) (s : string) : nat :=
  match s with
  | EmptyString => 0
  | String c rest => (if Ascii.eqb c a then 1 else 0) + count_char a rest
  end.

Fixpoint string_exists (p : ascii -> bool) (s : string) : bool :=
  match s with
  | EmptyString => false
  | String c rest => p c || string_exists p rest
  end.

(** The row of a sequence in closed form: the values the row looks up,
    the cell of each column, and the percent changes that a column
    records over a list of sequences. *)
Definition option_to_list {A : Type} (o : option A) : list A :=
  match o with
  | Some a => [a]
  | None => []
  end.

Definition row_values_of (pv : pivot_table) (available_cols : list string)
                         (seq : label) : Dict.t float :=
  fold_left (fun d col => Dict.set d col (pv_lookup pv available_cols seq col))
            available_cols [].

Definition row_cell (pv : pivot_table) (available_cols : list string)
                    (seq : label) (col : string) : td * option float :=
  render_cell col (pv_lookup pv available_cols seq col)
    (Dict.get_or (row_values_of pv available_cols seq) "base" nan)
    (py_min (valid_values (row_values_of pv available_cols seq))).

Definition recorded_changes (pv : pivot_table) (available_cols : list string)
                            (sequences : list label) (col : string)
  : list float :=
  flat_map (fun seq => option_to_list (snd (row_cell pv available_cols seq col)))
           sequences.

(** * Properties *)

(** ** Facts about binary64 comparisons *)

Module FloatFacts.

Lemma SFcompare_antisym (x y : spec_float) :
  SFcompare y x = option_map CompOpp (SFcompare x y).
Proof.
  destruct x as [sx|sx| |sx mx ex], y as [sy|sy| |sy my ey]; simpl;
    try reflexivity;
    try (destruct sx; reflexivity); try (destruct sy; reflexivity);
    try (destruct sx, sy; reflexivity).
  destruct sx, sy; simpl; try reflexivity.
  all: rewrite (Z.compare_antisym ex ey);
    destruct (Z.compare ex ey) eqn:E; simpl; try reflexivity;
    change (PosDef.Pos.compare_cont Eq my mx)
      with (Pos.compare_cont (CompOpp Eq) my mx);
    rewrite <- (Pos.compare_cont_antisym mx my Eq); reflexivity.
Qed.

Lemma SFcompare_nan_iff (x y : spec_float) :
  SFcompare x y = None <-> x = S754_nan \/ y = S754_nan.
Proof.
  destruct x, y; simpl; split; intros H; try discriminate; auto;
    destruct H; discriminate.
Qed.

Lemma is_nan_spec (x : float) :
  is_nan x = false <-> Prim2SF x <> S754_nan.
Proof.
  unfold is_nan. rewrite FloatAxioms.eqb_spec. unfold SFeqb.
  destruct (SFcompare (Prim2SF x) (Prim2SF x)) as [c|] eqn:E.
  - assert (Prim2SF x <> S754_nan).
    { intros Hn. rewrite Hn in E. discriminate. }
    split; [auto|intros _].
    destruct (Prim2SF x) as [s|s| |s m e]; simpl in E; try congruence.
    + injection E as <-. reflexivity.
    + injection E as <-. destruct s; reflexivity.
    + injection E as <-. destruct s; rewrite Z.compare_refl;
      change (PosDef.Pos.compare_cont Eq m m) with (Pos.compare m m);
      rewrite Pos.compare_refl; reflexivity.
  - apply SFcompare_nan_iff in E. split; [discriminate|].
    intros H. destruct E; contradiction.
Qed.

(** Strictly below excludes at or above. *)
Lemma ltb_leb_false (x y : float) :
  PrimFloat.ltb x y = true -> PrimFloat.leb y x = false.
Proof.
  rewrite FloatAxioms.ltb_spec, FloatAxioms.leb_spec. unfold SFltb, SFleb.
  rewrite (SFcompare_antisym (Prim2SF x) (Prim2SF y)).
  destruct (SFcompare (Prim2SF x) (Prim2SF y)) as [[| |]|]; simpl; congruence.
Qed.

(** On numbers, not at or above is strictly below. *)
Lemma leb_false_ltb (x y : float) :
  is_nan x = false -> is_nan y = false ->
  PrimFloat.leb y x = false -> PrimFloat.ltb x y = true.
Proof.
  intros Hx Hy. apply is_nan_spec in Hx, Hy.
  rewrite FloatAxioms.ltb_spec, FloatAxioms.leb_spec. unfold SFltb, SFleb.
  rewrite (SFcompare_antisym (Prim2SF x) (Prim2SF y)).
  destruct (SFcompare (Prim2SF x) (Prim2SF y)) as [[| |]|] eqn:E; simpl;
    try congruence.
  apply SFcompare_nan_iff in E. destruct E; contradiction.
Qed.

Lemma leb_total (x y : float) :
  is_nan x = false -> is_nan y = false ->
  PrimFloat.leb x y = false -> PrimFloat.leb y x = true.
Proof.
  intros Hx Hy. apply is_nan_spec in Hx, Hy.
  rewrite !FloatAxioms.leb_spec. unfold SFleb.
  rewrite (SFcompare_antisym (Prim2SF x) (Prim2SF y)).
  destruct (SFcompare (Prim2SF x) (Prim2SF y)) as [[| |]|] eqn:E; simpl;
    try congruence.
  apply SFcompare_nan_iff in E. destruct E; contradiction.
Qed.

Lemma ltb_not_nan (x y : float) :
  PrimFloat.ltb x y = true -> is_nan x = false /\ is_nan y = false.
Proof.
  rewrite FloatAxioms.ltb_spec. unfold SFltb. intros H.
  destruct (SFcompare (Prim2SF x) (Prim2SF y)) eqn:E; [|discriminate].
  split; apply is_nan_spec; intros Hn; rewrite Hn in E;
    [|destruct (Prim2SF x)]; discriminate.
Qed.

(** Below -1 and above +1 exclude one another. *)
Lemma below_above_exclusive (p : float) :
  PrimFloat.ltb p (-1)%float = true -> PrimFloat.ltb 1%float p = false.
Proof.
  assert (Hm : Prim2SF (-1)%float = S754_finite true 4503599627370496 (-52))
    by (vm_compute; reflexivity).
  assert (Hp : Prim2SF 1%float = S754_finite false 4503599627370496 (-52))
    by (vm_compute; reflexivity).
  rewrite (FloatAxioms.ltb_spec p), (FloatAxioms.ltb_spec 1%float), Hm, Hp.
  unfold SFltb.
  destruct (Prim2SF p) as [s|s| |s m e]; cbn [SFcompare]; try congruence;
    destruct s; congruence.
Qed.

End FloatFacts.

(** ** Facts about strings *)

Module PyStrFacts.

Import PyStr.
Local Open Scope string_scope.

Lemma length_append (a b : string) :
  String.length (a ++ b) = String.length a + String.length b.
Proof. induction a as [|c a IH]; simpl; [reflexivity | now rewrite IH]. Qed.

Lemma drop_all (a b : string) : drop (String.length a) (a ++ b) = b.
Proof. induction a as [|c a IH]; simpl; [now destruct b | exact IH]. Qed.

Lemma take_all (a b : string) : take (String.length a) (a ++ b) = a.
Proof. induction a as [|c a IH]; simpl; [reflexivity | now rewrite IH]. Qed.

Lemma drop_append_left (n : nat) (a b : string) :
  n <= String.length a -> drop n (a ++ b) = drop n a ++ b.
Proof.
  revert n; induction a as [|c a IH]; intros [|n] H; simpl in *;
    try reflexivity; try lia.
  apply IH; lia.
Qed.

Lemma drop_append_right (n : nat) (a b : string) :
  String.length a <= n -> drop n (a ++ b) = drop (n - String.length a) b.
Proof.
  revert n; induction a as [|c a IH]; intros n H; simpl in *.
  - now rewrite Nat.sub_0_r.
  - destruct n as [|n]; [lia|]. simpl. apply IH; lia.
Qed.

Lemma endswith_append (s m : string) : endswith (s ++ m) m = true.
Proof.
  unfold endswith. rewrite length_append.
  replace (String.length s + String.length m - String.length m)
    with (String.length s) by lia.
  rewrite drop_all, String.eqb_refl, andb_true_r.
  apply Nat.leb_le; lia.
Qed.

(** Two suffixes of one string are suffixes of one another, the
    shorter of the longer. *)
Lemma endswith_comparable (s m m' : string) :
  endswith (s ++ m) m' = true ->
  endswith m m' || endswith m' m = true.
Proof.
  unfold endswith at 1. rewrite length_append.
  intros H. apply andb_true_iff in H as [Hlen Heq].
  apply Nat.leb_le in Hlen. apply String.eqb_eq in Heq.
  destruct (Nat.le_gt_cases (String.length m') (String.length m)) as [Hle|Hgt].
  - apply orb_true_iff; left. unfold endswith.
    rewrite drop_append_right in Heq by lia.
    replace (String.length s + String.length m - String.length m'
             - String.length s)
      with (String.length m - String.length m') in Heq by lia.
    rewrite Heq, String.eqb_refl, andb_true_r. apply Nat.leb_le; lia.
  - apply orb_true_iff; right.
    rewrite drop_append_left in Heq by lia.
    rewrite <- Heq. apply endswith_append.
Qed.

Lemma slice_to_neg_append (s m : string) :
  m <> EmptyString -> slice_to_neg (s ++ m) (String.length m) = s.
Proof.
  intros Hm. unfold slice_to_neg.
  destruct m as [|c m]; [congruence|]. cbn [String.length].
  rewrite length_append. cbn [String.length].
  replace (String.length s + S (String.length m) - S (String.length m))
    with (String.length s) by lia.
  apply take_all.
Qed.

Lemma take_drop (n : nat) (s : string) : take n s ++ drop n s = s.
Proof.
  revert s; induction n as [|n IH]; intros [|c s]; simpl; try reflexivity.
  now rewrite IH.
Qed.

Lemma endswith_split (s m : string) :
  endswith s m = true ->
  s = take (String.length s - String.length m) s ++ m.
Proof.
  unfold endswith. intros H. apply andb_true_iff in H as [_ Heq].
  apply String.eqb_eq in Heq.
  transitivity (take (String.length s - String.length m) s
                ++ drop (String.length s - String.length m) s).
  - symmetry. apply take_drop.
  - f_equal. exact Heq.
Qed.

End PyStrFacts.

(** ** Name parsing *)

Lemma parse_name_loop_first (markers : list string) (name m : string) :
  In m markers ->
  PyStr.endswith name m = true ->
  (forall m', In m' markers -> PyStr.endswith name m' = true -> m' = m) ->
  parse_name_loop name markers
  = (Some (PyStr.slice_to_neg name (String.length m)), Some (PyStr.drop 1 m)).
Proof.
  intros Hin Hm Huniq. induction markers as [|marker rest IH]; [contradiction|].
  cbn [parse_name_loop].
  destruct (PyStr.endswith name marker) eqn:E.
  - rewrite (Huniq marker (or_introl eq_refl) E). reflexivity.
  - destruct Hin as [->|Hin]; [congruence|].
    apply IH; [exact Hin|].
    intros m' Hm'. apply Huniq. right; exact Hm'.
Qed.

Lemma parse_name_loop_none (markers : list string) (name : string) :
  (forall m, In m markers -> PyStr.endswith name m = false) ->
  parse_name_loop name markers = (None, None).
Proof.
  induction markers as [|marker rest IH]; intros H; [reflexivity|].
  cbn [parse_name_loop]. rewrite (H marker (or_introl eq_refl)).
  apply IH. intros m Hm. apply H. right; exact Hm.
Qed.

(** No marker of the list ends another one. *)
Lemma variant_markers_incomparable (m m' : string) :
  In m variant_markers -> In m' variant_markers ->
  PyStr.endswith m m' || PyStr.endswith m' m = true -> m' = m.
Proof.
  unfold variant_markers. intros Hm Hm' H.
  repeat (destruct Hm as [<-|Hm]; [|]); try contradiction;
    repeat (destruct Hm' as [<-|Hm']; [|]); try contradiction;
    first [reflexivity | vm_compute in H; discriminate].
Qed.

Lemma variant_markers_nonempty (m : string) :
  In m variant_markers -> m <> EmptyString.
Proof.
  unfold variant_markers. intros Hm.
  repeat (destruct Hm as [<-|Hm]; [discriminate|]). contradiction.
Qed.

(** C6: a name that ends in a known variant suffix resolves to that
    whole suffix without its leading underscore, and to the prefix
    before it as the sequence; no other marker of the list can take its
    place, whatever the order in which names come. *)
Theorem parse_name_known_suffix (name m : string) :
  In m variant_markers ->
  PyStr.endswith name m = true ->
  exists seq : string,
    name = (seq ++ m)%string /\
    parse_name name = (Some seq, Some (PyStr.drop 1 m)).
Proof.
  intros Hin Hends.
  pose proof (PyStrFacts.endswith_split name m Hends) as Hsplit.
  set (seq := PyStr.take (String.length name - String.length m) name) in *.
  exists seq. split; [exact Hsplit|].
  unfold parse_name.
  rewrite (parse_name_loop_first variant_markers name m Hin Hends).
  - rewrite Hsplit.
    rewrite (PyStrFacts.slice_to_neg_append seq m
               (variant_markers_nonempty m Hin)).
    reflexivity.
  - intros m' Hin' Hends'.
    apply (variant_markers_incomparable m m' Hin Hin').
    rewrite Hsplit in Hends'.
    apply (PyStrFacts.endswith_comparable seq m m' Hends').
Qed.

Lemma parse_name_known_suffix_witness :
  exists seq : string,
    "seq_daac_depth_opt_w100" = (seq ++ "_daac_depth_opt_w100")%string /\
    parse_name "seq_daac_depth_opt_w100"
    = (Some seq, Some (PyStr.drop 1 "_daac_depth_opt_w100")).
Proof.
  apply (parse_name_known_suffix "seq_daac_depth_opt_w100"
           "_daac_depth_opt_w100").
  - unfold variant_markers. simpl. tauto.
  - reflexivity.
Defined.

(** The example of the specification, evaluated. *)
Example parse_name_w100 :
  parse_name "seq_daac_depth_opt_w100" = (Some "seq", Some "daac_depth_opt_w100").
Proof. reflexivity. Qed.

(** A name that ends in no known suffix is left unassigned. *)
Lemma parse_name_unmapped (name : string) :
  (forall m, In m variant_markers -> PyStr.endswith name m = false) ->
  parse_name name = (None, None).
Proof. apply parse_name_loop_none. Qed.

(** ** Cells of a data row *)

Lemma threshold_is_number : is_nan OUTLIER_THRESHOLD = false.
Proof. vm_compute. reflexivity. Qed.

(** A present value that is not rendered as an outlier is below the
    threshold. *)
Lemma below_threshold (v : float) :
  is_nan v = false ->
  (OUTLIER_THRESHOLD <=? v)%float = false ->
  (v <? OUTLIER_THRESHOLD)%float = true.
Proof.
  intros Hv Hout.
  apply FloatFacts.leb_false_ltb; [exact Hv | exact threshold_is_number | exact Hout].
Qed.

Lemma fold_min_in (rest : list float) (x : float) :
  In (fold_left (fun cur item => if (item <? cur)%float then item else cur)
                rest x) (x :: rest).
Proof.
  revert x; induction rest as [|y rest IH]; intros x; cbn [fold_left].
  - left; reflexivity.
  - destruct (y <? x)%float.
    + right. apply IH.
    + destruct (IH x) as [H|H]; [left; exact H | right; right; exact H].
Qed.

Lemma py_min_in (l : list float) (m : float) :
  py_min l = Some m -> In m l.
Proof.
  destruct l as [|x rest]; [discriminate|].
  cbn [py_min]. intros [= <-]. apply fold_min_in.
Qed.

Lemma valid_values_spec (row_values : Dict.t float) (v : float) :
  In v (valid_values row_values) ->
  is_nan v = false /\ (OUTLIER_THRESHOLD <=? v)%float = false.
Proof.
  unfold valid_values. intros H. apply filter_In in H as [_ H].
  apply andb_true_iff in H as [Hn Hlt].
  split; [now apply negb_true_iff in Hn | now apply FloatFacts.ltb_leb_false].
Qed.

(** The cell of a present value below the threshold, against a present
    baseline below the threshold: the value alone in the [base] column,
    the value with its percent change in every other column. *)
Lemma render_cell_compared (col : string) (val baseline_val : float)
                           (min_val : option float) :
  is_nan val = false ->
  (OUTLIER_THRESHOLD <=? val)%float = false ->
  is_nan baseline_val = false ->
  (OUTLIER_THRESHOLD <=? baseline_val)%float = false ->
  exists cell_class : string,
    render_cell col val baseline_val min_val
    = if String.eqb col "base" then (TdValue cell_class val None, None)
      else (TdValue cell_class val
              (Some (pct_class_of (pct_change_of val baseline_val),
                     pct_change_of val baseline_val)),
            Some (pct_change_of val baseline_val)).
Proof.
  intros Hv Hvout Hb Hbout.
  unfold render_cell. rewrite Hv, Hvout, Hb.
  rewrite (below_threshold val Hv Hvout), (below_threshold baseline_val Hb Hbout).
  destruct (String.eqb col "base"); cbn [negb andb]; eexists; reflexivity.
Qed.

Lemma pct_class_of_spec (p : float) :
  (pct_class_of p = "improvement" <-> (p <? -1)%float = true) /\
  (pct_class_of p = "degradation" <-> (1 <? p)%float = true) /\
  (pct_class_of p = "" <-> (p <? -1)%float = false /\ (1 <? p)%float = false).
Proof.
  unfold pct_class_of.
  destruct (p <? -1)%float eqn:Hlow.
  - rewrite (FloatFacts.below_above_exclusive p Hlow).
    repeat split; try discriminate; try reflexivity; intros []; discriminate.
  - destruct (1 <? p)%float eqn:Hhigh;
      repeat split; try discriminate; try reflexivity; intros []; discriminate.
Qed.

(** C2, as the specification words it, fails: a percent change of
    exactly -1.0 (value 0.7734375 against baseline 0.78125) is at most
    -1 and yet is not classified as an improvement. *)
Lemma pct_class_inclusive_counterexample :
  ~ (forall (col : string) (val baseline_val : float) (min_val : option float),
       is_nan val = false ->
       (OUTLIER_THRESHOLD <=? val)%float = false ->
       is_nan baseline_val = false ->
       (OUTLIER_THRESHOLD <=? baseline_val)%float = false ->
       col <> "base" ->
       forall (cell_class pct_class : string) (pct : float),
         render_cell col val baseline_val min_val
         = (TdValue cell_class val (Some (pct_class, pct)), Some pct) ->
         (pct_class = "improvement" <-> (pct <=? -1)%float = true) /\
         (pct_class = "degradation" <-> (1 <=? pct)%float = true)).
Proof.
  intros H.
  assert (Hcell :
    render_cell "daac_rgd_inv" 0.7734375%float 0.78125%float None
    = (TdValue "" 0.7734375%float (Some ("", (-1)%float)), Some (-1)%float))
    by (vm_compute; reflexivity).
  destruct (H "daac_rgd_inv" 0.7734375%float 0.78125%float None) with
    (cell_class := "") (pct_class := "") (pct := (-1)%float) as [Himp _];
    try (vm_compute; reflexivity); try discriminate; try exact Hcell.
  assert (Hle : ((-1) <=? -1)%float = true) by (vm_compute; reflexivity).
  apply Himp in Hle. discriminate.
Qed.

(** C2, amended: in every cell of a present value below the outlier
    threshold, compared with a present baseline below the threshold, the
    percent change (annotated in every column but [base] itself) is
    classified as an improvement exactly when it is below -1, as a
    degradation exactly when it is above +1, and as neutral otherwise;
    changes of exactly -1.0 and +1.0 are neutral. *)
Theorem pct_class_strict (col : string) (val baseline_val : float)
                         (min_val : option float) :
  is_nan val = false ->
  (OUTLIER_THRESHOLD <=? val)%float = false ->
  is_nan baseline_val = false ->
  (OUTLIER_THRESHOLD <=? baseline_val)%float = false ->
  exists (cell_class pct_class : string) (pct : float),
    render_cell col val baseline_val min_val
    = (if String.eqb col "base" then (TdValue cell_class val None, None)
       else (TdValue cell_class val (Some (pct_class, pct)), Some pct)) /\
    pct = pct_change_of val baseline_val /\
    (pct_class = "improvement" <-> (pct <? -1)%float = true) /\
    (pct_class = "degradation" <-> (1 <? pct)%float = true) /\
    (pct_class = "" <-> (pct <? -1)%float = false /\ (1 <? pct)%float = false) /\
    pct_class_of (-1)%float = "" /\
    pct_class_of 1%float = "".
Proof.
  intros Hv Hvout Hb Hbout.
  destruct (render_cell_compared col val baseline_val min_val
              Hv Hvout Hb Hbout) as [cell_class Hcell].
  exists cell_class, (pct_class_of (pct_change_of val baseline_val)),
         (pct_change_of val baseline_val).
  split; [exact Hcell|]. split; [reflexivity|].
  destruct (pct_class_of_spec (pct_change_of val baseline_val)) as (Hi & Hd & Hn).
  split; [exact Hi|]. split; [exact Hd|]. split; [exact Hn|].
  split; vm_compute; reflexivity.
Qed.

Lemma pct_class_strict_witness :
  exists (cell_class pct_class : string) (pct : float),
    render_cell "daac_rgd_inv" 0.7734375%float 0.78125%float None
    = (TdValue cell_class 0.7734375%float (Some (pct_class, pct)), Some pct) /\
    pct = pct_change_of 0.7734375%float 0.78125%float /\
    (pct_class = "improvement" <-> (pct <? -1)%float = true) /\
    (pct_class = "degradation" <-> (1 <? pct)%float = true) /\
    (pct_class = "" <-> (pct <? -1)%float = false /\ (1 <? pct)%float = false) /\
    pct_class_of (-1)%float = "" /\
    pct_class_of 1%float = "".
Proof.
  apply (pct_class_strict "daac_rgd_inv" 0.7734375%float 0.78125%float None);
    vm_compute; reflexivity.
Defined.

(** The same rule classifies the cells of the average row. *)
Lemma avg_cells_classified (np_mean : list float -> float)
                           (cols : list string)
                           (pct_changes : Dict.t (list float)) (cells : list td) :
  avg_cells np_mean cols pct_changes = Ok cells ->
  Forall (fun c => c = TdDash \/
                   exists avg_pct, c = TdAvg (pct_class_of avg_pct) avg_pct)
         cells.
Proof.
  revert cells; induction cols as [|col rest IH]; intros cells; cbn [avg_cells].
  - intros [= <-]. constructor.
  - destruct (String.eqb col "base"); [apply IH|].
    destruct (Dict.get pct_changes col) as [l|e]; cbn [bind]; [|discriminate].
    destruct (avg_cells np_mean rest pct_changes) as [cs|e]; cbn [bind];
      [|discriminate].
    intros [= <-]. constructor; [|apply IH; reflexivity].
    destruct l; [left; reflexivity | right; eexists; reflexivity].
Qed.





(** ** Parsing a results file *)

Lemma mapM_py_float_raise (float_of_literal : string -> float)
                          (toks : list string) :
  (exists tok, In tok toks /\ valid_float_literal tok = false)
  <-> mapM (py_float float_of_literal) toks = Raise ValueError.
Proof.
  induction toks as [|tok rest IH]; cbn [mapM].
  - split; [intros (t & [] & _) | discriminate].
  - unfold py_float at 1.
    destruct (valid_float_literal tok) eqn:Hvalid; cbn [bind].
    + destruct (mapM (py_float float_of_literal) rest) as [vals|e] eqn:Hrest;
        cbn [bind].
      * split; [|discriminate].
        intros (t & [<-|Hin] & Ht); [congruence|].
        assert (H : Ok vals = Raise ValueError)
          by (apply IH; exists t; split; assumption).
        discriminate.
      * split.
        -- intros (t & [<-|Hin] & Ht); [congruence|].
           f_equal. assert (H : Raise e = Raise ValueError :> result (list float))
             by (apply IH; exists t; split; assumption).
           now inversion H.
        -- intros H. destruct IH as [_ IH].
           destruct (IH H) as (t & Hin & Ht).
           exists t. split; [right; exact Hin | exact Ht].
    + split; [reflexivity|]. intros _. exists tok. split; [left; reflexivity|exact Hvalid].
Qed.

Lemma mapM_py_float_error (float_of_literal : string -> float)
                          (toks : list string) (e : exn) :
  mapM (py_float float_of_literal) toks = Raise e -> e = ValueError.
Proof.
  induction toks as [|tok rest IH]; cbn [mapM]; [discriminate|].
  unfold py_float at 1.
  destruct (valid_float_literal tok); cbn [bind]; [|now intros [= <-]].
  destruct (mapM (py_float float_of_literal) rest) as [vals|e']; cbn [bind];
    [discriminate|].
  intros [= <-]. apply IH. reflexivity.
Qed.

(** C9: parsing a results file is not total.  The pattern captures
    tokens such as [1.2.3] and [...], which are no decimal literals, and
    [parse_results_file] then raises [ValueError]: it raises exactly when
    a captured token is no valid literal, and the error leaves the scan
    unhandled, so that no table is produced, instead of the experiment
    being skipped. *)
Theorem parse_results_file_not_total (np_mean : list float -> float)
                                     (float_of_literal : string -> float) :
  Re.findall "rmse 1.2.3" = ["1.2.3"] /\
  parse_results_file float_of_literal (Some "rmse 1.2.3") = Raise ValueError /\
  Re.findall "rmse ..." = ["..."] /\
  parse_results_file float_of_literal (Some "rmse ...") = Raise ValueError /\
  (forall content : string,
     (exists tok, In tok (Re.findall content) /\ valid_float_literal tok = false)
     <-> parse_results_file float_of_literal (Some content) = Raise ValueError) /\
  (forall (content : string) (e : exn),
     parse_results_file float_of_literal (Some content) = Raise e ->
     e = ValueError) /\
  extractor_main np_mean float_of_literal
    [ {| de_name := "spot_seq1_base"; de_results := Some "rmse 1.2.3" |};
      {| de_name := "spot_seq2_base"; de_results := Some "rmse 0.5" |} ]
  = Raise ValueError.
Proof.
  assert (Hparse : forall content e,
            parse_results_file float_of_literal (Some content) = Raise e
            <-> mapM (py_float float_of_literal) (Re.findall content) = Raise e).
  { intros content e. cbn [parse_results_file].
    destruct (mapM (py_float float_of_literal) (Re.findall content))
      as [[|v vals]|e']; cbn [bind]; split; congruence. }
  split; [vm_compute; reflexivity|].
  split; [vm_compute; reflexivity|].
  split; [vm_compute; reflexivity|].
  split; [vm_compute; reflexivity|].
  split; [|split].
  - intros content. rewrite Hparse. apply mapM_py_float_raise.
  - intros content e He. apply Hparse in He.
    apply (mapM_py_float_error float_of_literal _ e He).
  - vm_compute. reflexivity.
Qed.

(** ** The scripts on degenerate inputs *)

(** C1, evaluated on the failing input: with no qualifying directory
    (or none that yields an observation) the scan returns no row, the
    frame built from no row has no column, and reordering its columns
    raises [KeyError]; no CSV file is written.  The Reporter, given a
    table without rows, raises [ValueError] when it unpacks the parsed
    names. *)
Theorem empty_results_raise (np_mean : list float -> float)
                            (float_of_literal : string -> float) :
  scan_results np_mean float_of_literal [] = Ok ([], []) /\
  df_columns (DataFrame_of_records []) = [] /\
  save_results [] = Raise KeyError /\
  extractor_main np_mean float_of_literal [] = Raise KeyError /\
  extractor_main np_mean float_of_literal
    [ {| de_name := "spot_seq1_base"; de_results := None |};
      {| de_name := "notes"; de_results := Some "rmse 0.5" |} ]
  = Raise KeyError /\
  reporter_main np_mean [] = Raise ValueError.
Proof. repeat split; vm_compute; reflexivity. Qed.

(** ** The index page *)

(** Whatever the pivot, the loop over the groups adds a card for every
    configured group, generated or skipped. *)
Lemma generate_tables_lists_all (np_mean : list float -> float)
                                (pv : pivot_table) (sequences : list label)
                                (configs : list table_config)
                                (tables_list tables_list' : list index_entry)
                                (w w' : world) :
  generate_tables np_mean pv sequences configs tables_list w
  = Ok (tables_list', w') ->
  tables_list'
  = tables_list
    ++ map (fun config => {| ie_title := cfg_title config;
                             ie_filename := cfg_filename config;
                             ie_description := cfg_description config |})
           configs.
Proof.
  revert tables_list w; induction configs as [|config rest IH];
    intros tables_list w; cbn [generate_tables map].
  - intros [= <- _]. now rewrite app_nil_r.
  - destruct (generate_table_html _ _ _ _ _ _ _) as [w1|e]; cbn [bind];
      [|discriminate].
    intros H. apply IH in H. rewrite H, <- app_assoc. reflexivity.
Qed.

(** C3, evaluated on the failing input: the table holds one experiment,
    of variant [daac_depth_opt_w100].  The group "Baseline vs RGD" has
    no column in the pivot: it is skipped with a warning and its file is
    not written, and yet the index page carries its card. *)
Theorem index_lists_skipped_group (np_mean : list float -> float) :
  exists (w : world) (cards : list index_entry),
    reporter_main np_mean [("spot_seq1_daac_depth_opt_w100", 0.5%float)] = Ok w /\
    In (WarnNoColumns "Baseline vs RGD (Inverse + Metric)") (w_out w) /\
    Dict.find (w_files w) (path_join output_dir "baseline_vs_rgd.html") = None /\
    Dict.find (w_files w) (path_join output_dir "index.html")
    = Some (IndexDoc cards) /\
    In "baseline_vs_rgd.html" (map ie_filename cards) /\
    List.length cards = List.length tables_config.
Proof.
  eexists. eexists.
  split; [vm_compute; reflexivity|].
  split; [vm_compute; tauto|].
  split; [vm_compute; reflexivity|].
  split; [vm_compute; reflexivity|].
  split; [vm_compute; tauto|].
  vm_compute; reflexivity.
Qed.

(** ** Unmapped names *)

(** C4, evaluated on the failing input: the name [spot_misc] ends in no
    known suffix and parses to (None, None), but its row is not left out
    of the pivot: it is reshaped under the missing label, and sorting the
    index labels, a string and NaN, raises [TypeError].  Two such names
    make a duplicate pair of labels, and the pivot raises [ValueError].
    Without the unmapped name the run completes. *)
Theorem unmapped_name_not_excluded (np_mean : list float -> float) :
  parse_name "spot_misc" = (None, None) /\
  (exists pv : pivot_table,
     pivot [ ((Some "spot_seq1", Some "base"), 0.5%float);
             ((None, None), 0.4%float) ] = Ok pv /\
     In None (pv_index pv) /\ In None (pv_columns pv)) /\
  reporter_main np_mean [ ("spot_seq1_base", 0.5%float);
                          ("spot_misc", 0.4%float) ] = Raise TypeError /\
  reporter_main np_mean [ ("spot_misc", 0.4%float);
                          ("spot_other", 0.3%float) ] = Raise ValueError /\
  exists w : world,
    reporter_main np_mean [ ("spot_seq1_base", 0.5%float) ] = Ok w.
Proof.
  split; [vm_compute; reflexivity|].
  split.
  { eexists. split; [vm_compute; reflexivity|]. split; vm_compute; tauto. }
  split; [vm_compute; reflexivity|].
  split; [vm_compute; reflexivity|].
  eexists. vm_compute. reflexivity.
Qed.

(** ** Dictionaries *)

Module DictFacts.

Lemma find_app {V : Type} (d1 d2 : Dict.t V) (k : string) :
  Dict.find (d1 ++ d2) k
  = match Dict.find d1 k with
    | Some v => Some v
    | None => Dict.find d2 k
    end.
Proof.
  induction d1 as [|[k' v'] d1 IH]; cbn [Dict.find app]; [reflexivity|].
  destruct (String.eqb k' k); [reflexivity | exact IH].
Qed.

Lemma set_fresh {V : Type} (d : Dict.t V) (k : string) (v : V) :
  Dict.find d k = None -> Dict.set d k v = d ++ [(k, v)].
Proof.
  induction d as [|[k' v'] d IH]; cbn [Dict.find Dict.set app]; [reflexivity|].
  destruct (String.eqb k' k); [discriminate|].
  intros H. now rewrite IH.
Qed.

Lemma find_set_same {V : Type} (d : Dict.t V) (k : string) (v : V) :
  Dict.find (Dict.set d k v) k = Some v.
Proof.
  induction d as [|[k' v'] d IH]; cbn [Dict.find Dict.set].
  - now rewrite String.eqb_refl.
  - destruct (String.eqb k' k) eqn:E; cbn [Dict.find]; rewrite E;
      [reflexivity | exact IH].
Qed.

Lemma find_set_other {V : Type} (d : Dict.t V) (k k' : string) (v : V) :
  k <> k' -> Dict.find (Dict.set d k v) k' = Dict.find d k'.
Proof.
  intros Hne. induction d as [|[k0 v0] d IH]; cbn [Dict.find Dict.set].
  - apply String.eqb_neq in Hne. now rewrite Hne.
  - destruct (String.eqb k0 k) eqn:E; cbn [Dict.find].
    + apply String.eqb_eq in E. subst k0.
      apply String.eqb_neq in Hne. now rewrite Hne.
    + now rewrite IH.
Qed.

Lemma keys_set_present {V : Type} (d : Dict.t V) (k : string) (v v0 : V) :
  Dict.find d k = Some v0 -> Dict.keys (Dict.set d k v) = Dict.keys d.
Proof.
  unfold Dict.keys.
  induction d as [|[k' v'] d IH]; cbn [Dict.find Dict.set map]; [discriminate|].
  destruct (String.eqb k' k) eqn:E; cbn [map fst]; [reflexivity|].
  intros H. now rewrite IH.
Qed.

Lemma find_some_iff_key {V : Type} (d : Dict.t V) (k : string) :
  (exists v, Dict.find d k = Some v) <-> In k (Dict.keys d).
Proof.
  unfold Dict.keys.
  induction d as [|[k' v'] d IH]; cbn [Dict.find map fst In].
  - split; [intros [v H]; discriminate | contradiction].
  - destruct (String.eqb k' k) eqn:E.
    + apply String.eqb_eq in E. split; [now left | eauto].
    + apply String.eqb_neq in E. rewrite IH. split; [now right|].
      intros [H|H]; [contradiction | exact H].
Qed.

End DictFacts.

(** ** The summary row of an experiment *)

Lemma str_of_nat_inj (i j : nat) : str_of_nat i = str_of_nat j -> i = j.
Proof.
  unfold str_of_nat. intros H.
  apply DecimalNat.Unsigned.to_uint_inj.
  assert (Hs : Some (Nat.to_uint i) = Some (Nat.to_uint j)).
  { rewrite <- !NilEmpty.usu. now rewrite H. }
  now injection Hs.
Qed.

Lemma run_key_inj (i j : nat) : run_key i = run_key j -> i = j.
Proof.
  unfold run_key. cbn [String.append]. intros [= H]. now apply str_of_nat_inj.
Qed.

Lemma run_key_neqb (i j : nat) : i <> j -> String.eqb (run_key i) (run_key j) = false.
Proof.
  intros Hne. apply String.eqb_neq. intros H. apply Hne. now apply run_key_inj.
Qed.

Lemma find_run_entries (rmse_values : list float) (i k : nat) :
  Dict.find (run_entries i rmse_values) (run_key k)
  = if (i <=? k)%nat && (k <? i + List.length rmse_values)%nat
    then option_map VFloat (nth_error rmse_values (k - i))
    else None.
Proof.
  unfold run_entries.
  revert i; induction rmse_values as [|v rest IH]; intros i;
    cbn [List.length seq map combine Dict.find].
  - destruct (i <=? k)%nat eqn:E1; cbn [andb]; [|reflexivity].
    destruct (k <? i + 0)%nat eqn:E2; [|reflexivity].
    apply Nat.leb_le in E1. apply Nat.ltb_lt in E2. lia.
  - destruct (Nat.eq_dec i k) as [->|Hne].
    + rewrite String.eqb_refl.
      replace (k <=? k)%nat with true by (symmetry; apply Nat.leb_le; lia).
      replace (k <? k + S (List.length rest))%nat with true
        by (symmetry; apply Nat.ltb_lt; lia).
      now rewrite Nat.sub_diag.
    + rewrite (run_key_neqb i k Hne), IH.
      destruct (i <=? k)%nat eqn:E1.
      * apply Nat.leb_le in E1.
        replace (S i <=? k)%nat with true by (symmetry; apply Nat.leb_le; lia).
        replace (k <? S i + List.length rest)%nat
          with (k <? i + S (List.length rest))%nat
          by (f_equal; lia).
        cbn [andb]. destruct (k <? i + S (List.length rest))%nat; [|reflexivity].
        replace (k - i) with (S (k - S i)) by lia. reflexivity.
      * apply Nat.leb_gt in E1.
        replace (S i <=? k)%nat with false by (symmetry; apply Nat.leb_gt; lia).
        reflexivity.
Qed.

Lemma add_runs_fresh (rmse_values : list float) (r : row) (i : nat) :
  (forall j, i <= j -> Dict.find r (run_key j) = None) ->
  add_runs r i rmse_values = r ++ run_entries i rmse_values.
Proof.
  unfold run_entries.
  revert r i; induction rmse_values as [|v rest IH]; intros r i Hfresh;
    cbn [add_runs List.length seq map combine].
  - now rewrite app_nil_r.
  - rewrite (DictFacts.set_fresh r _ _ (Hfresh i (le_n i))).
    rewrite IH.
    + rewrite <- app_assoc. reflexivity.
    + intros j Hj. rewrite DictFacts.find_app, (Hfresh j) by lia.
      cbn [Dict.find]. rewrite run_key_neqb by lia. reflexivity.
Qed.

Lemma py_last_nth {A : Type} (l : list A) :
  l <> [] ->
  exists x, py_last l = Ok x /\ nth_error l (List.length l - 1) = Some x.
Proof.
  intros Hne. destruct (exists_last Hne) as (l' & a & ->).
  exists a. unfold py_last. rewrite rev_app_distr. cbn [rev app]. split; [reflexivity|].
  rewrite length_app. cbn [List.length].
  rewrite nth_error_app2 by lia.
  replace (List.length l' + 1 - 1 - List.length l') with 0 by lia.
  reflexivity.
Qed.

(** ** The median *)

Module NpFacts.

Lemma insert_perm (x : float) (l : list float) :
  Permutation (Np.insert x l) (x :: l).
Proof.
  induction l as [|y rest IH]; cbn [Np.insert]; [reflexivity|].
  destruct (Np.le x y); [reflexivity|].
  rewrite IH. apply perm_swap.
Qed.

Lemma sort_perm (l : list float) : Permutation (Np.sort l) l.
Proof.
  induction l as [|x rest IH]; cbn [Np.sort fold_right]; [reflexivity|].
  rewrite insert_perm. now apply perm_skip.
Qed.

Lemma sort_length (l : list float) : List.length (Np.sort l) = List.length l.
Proof. apply Permutation_length, sort_perm. Qed.

Lemma insert_hdrel (a x : float) (l : list float) :
  HdRel (fun u v => (u <=? v)%float = true) a l ->
  (a <=? x)%float = true ->
  HdRel (fun u v => (u <=? v)%float = true) a (Np.insert x l).
Proof.
  intros Hhd Hax. destruct l as [|y rest]; cbn [Np.insert].
  - now constructor.
  - destruct (Np.le x y); constructor; [exact Hax|].
    now inversion Hhd.
Qed.

Lemma insert_sorted (x : float) (l : list float) :
  is_nan x = false ->
  Forall (fun v => is_nan v = false) l ->
  Sorted (fun u v => (u <=? v)%float = true) l ->
  Sorted (fun u v => (u <=? v)%float = true) (Np.insert x l).
Proof.
  intros Hx Hl Hs. induction l as [|y rest IH]; cbn [Np.insert].
  - repeat constructor.
  - inversion Hl as [|? ? Hy Hrest]; subst. inversion Hs as [|? ? Hs' Hhd]; subst.
    unfold Np.le. rewrite Hy. cbn [orb].
    destruct (x <=? y)%float eqn:E.
    + constructor; [exact Hs | now constructor].
    + constructor; [now apply IH|].
      apply insert_hdrel; [exact Hhd|].
      now apply FloatFacts.leb_total.
Qed.

Lemma sort_sorted (l : list float) :
  Forall (fun v => is_nan v = false) l ->
  Sorted (fun u v => (u <=? v)%float = true) (Np.sort l).
Proof.
  induction l as [|x rest IH]; intros Hl; cbn [Np.sort fold_right].
  - constructor.
  - inversion Hl as [|? ? Hx Hrest]; subst.
    apply insert_sorted; [exact Hx| |now apply IH].
    eapply Permutation_Forall; [|exact Hrest].
    symmetry. apply sort_perm.
Qed.

Lemma no_nan (l : list float) :
  Forall (fun v => is_nan v = false) l -> existsb is_nan l = false.
Proof.
  induction 1 as [|x rest Hx _ IH]; cbn [existsb]; [reflexivity|].
  now rewrite Hx, IH.
Qed.

(** The median of numbers is the middle of their sorted copy. *)
Lemma median_spec (l : list float) :
  l <> [] ->
  Forall (fun v => is_nan v = false) l ->
  exists v_sorted : list float,
    Permutation v_sorted l /\
    Sorted (fun u v => (u <=? v)%float = true) v_sorted /\
    (Nat.odd (List.length l) = true ->
     nth_error v_sorted ((List.length l - 1) / 2) = Some (Np.median l)) /\
    (Nat.even (List.length l) = true ->
     exists a b : float,
       nth_error v_sorted (List.length l / 2 - 1) = Some a /\
       nth_error v_sorted (List.length l / 2) = Some b /\
       Np.median l = ((a + b) / 2)%float).
Proof.
  intros Hne Hl. exists (Np.sort l).
  assert (Hlen : 1 <= List.length l) by (destruct l; [congruence | cbn; lia]).
  split; [apply sort_perm|]. split; [now apply sort_sorted|].
  unfold Np.median. rewrite (no_nan l Hl). split.
  - intros Hodd. rewrite <- Nat.negb_odd, Hodd. cbn [negb].
    apply nth_error_nth'. rewrite sort_length.
    apply Nat.Div0.div_lt_upper_bound. lia.
  - intros Heven. rewrite Heven.
    assert (Hlen2 : 2 <= List.length l).
    { destruct l as [|x [|y rest]]; [congruence | discriminate | cbn; lia]. }
    assert (Hhalf : List.length l / 2 < List.length l)
      by (apply Nat.Div0.div_lt_upper_bound; lia).
    exists (nth (List.length l / 2 - 1) (Np.sort l) nan),
           (nth (List.length l / 2) (Np.sort l) nan).
    split; [|split; [|reflexivity]];
      apply nth_error_nth'; rewrite sort_length; lia.
Qed.

End NpFacts.

(** ** The row of an experiment with observations *)

Lemma mapM_py_float_ok (float_of_literal : string -> float)
                       (toks : list string) (vals : list float) :
  mapM (py_float float_of_literal) toks = Ok vals ->
  vals = map float_of_literal toks /\
  Forall (fun tok => valid_float_literal tok = true) toks.
Proof.
  revert vals; induction toks as [|tok rest IH]; intros vals; cbn [mapM map].
  - intros [= <-]. split; [reflexivity | constructor].
  - unfold py_float at 1. destruct (valid_float_literal tok) eqn:Hvalid;
      cbn [bind]; [|discriminate].
    destruct (mapM (py_float float_of_literal) rest) as [vs|e]; cbn [bind];
      [|discriminate].
    intros [= <-]. destruct (IH vs eq_refl) as [-> Hall].
    split; [reflexivity | now constructor].
Qed.

Lemma parse_results_file_some (float_of_literal : string -> float)
                              (file : option string) (vals : list float) :
  parse_results_file float_of_literal file = Ok (Some vals) ->
  vals <> [] /\
  exists toks : list string,
    vals = map float_of_literal toks /\
    Forall (fun tok => valid_float_literal tok = true) toks.
Proof.
  destruct file as [content|]; cbn [parse_results_file]; [|discriminate].
  destruct (mapM (py_float float_of_literal) (Re.findall content))
    as [[|v vs]|e] eqn:Hmap; cbn [bind]; try discriminate.
  intros [= <-]. split; [discriminate|].
  exists (Re.findall content). now apply mapM_py_float_ok.
Qed.

Lemma summary_columns_fresh (dirname : string) (n : nat)
                            (mean median vmin vmax vlast : float) (j : nat) :
  Dict.find [ ("name", VStr dirname); ("num_runs", VInt n);
              ("rmse_mean", VFloat mean); ("rmse_median", VFloat median);
              ("rmse_min", VFloat vmin); ("rmse_max", VFloat vmax);
              ("rmse_last", VFloat vlast) ] (run_key j) = None.
Proof. reflexivity. Qed.

(** ** The shape of a rendered table *)

Lemma find_fold_set {V : Type} (f : string -> V) (cols : list string)
                    (d : Dict.t V) (c : string) :
  Dict.find (fold_left (fun d col => Dict.set d col (f col)) cols d) c
  = if existsb (String.eqb c) cols then Some (f c) else Dict.find d c.
Proof.
  revert d; induction cols as [|a rest IH]; intros d; cbn [fold_left existsb];
    [reflexivity|].
  rewrite IH. destruct (existsb (String.eqb c) rest).
  - now rewrite orb_true_r.
  - rewrite orb_false_r. destruct (String.eqb c a) eqn:E.
    + apply String.eqb_eq in E. subst a. apply DictFacts.find_set_same.
    + apply DictFacts.find_set_other. apply String.eqb_neq in E. congruence.
Qed.

Lemma existsb_eqb_in (c : string) (cols : list string) :
  In c cols -> existsb (String.eqb c) cols = true.
Proof.
  intros H. apply existsb_exists. exists c. split; [exact H|apply String.eqb_refl].
Qed.

Lemma render_cell_pct_not_base (col : string) (val baseline_val : float)
                               (min_val : option float) (p : float) :
  snd (render_cell col val baseline_val min_val) = Some p -> col <> "base".
Proof.
  unfold render_cell.
  destruct (is_nan val); [discriminate|].
  destruct (OUTLIER_THRESHOLD <=? val)%float; [discriminate|].
  destruct (String.eqb col "base") eqn:E; cbn [negb andb snd]; [discriminate|].
  intros _. now apply String.eqb_neq.
Qed.

Lemma render_cells_ok (cols : list string) (row_values : Dict.t float)
                      (baseline_val : float) (min_val : option float)
                      (pct_changes : Dict.t (list float)) :
  (forall c, In c cols -> exists v, Dict.find row_values c = Some v) ->
  (forall c, In c cols -> c <> "base" -> In c (Dict.keys pct_changes)) ->
  exists (cells : list td) (pct_changes' : Dict.t (list float)),
    render_cells cols row_values baseline_val min_val pct_changes
    = Ok (cells, pct_changes') /\
    List.length cells = List.length cols /\
    Dict.keys pct_changes' = Dict.keys pct_changes.
Proof.
  revert pct_changes; induction cols as [|col rest IH];
    intros pct_changes Hvals Hkeys; cbn [render_cells].
  - exists [], pct_changes. repeat split.
  - destruct (Hvals col (or_introl eq_refl)) as [val Hval].
    unfold Dict.get at 1. rewrite Hval. cbn [bind].
    destruct (render_cell col val baseline_val min_val) as [cell pct] eqn:Hcell.
    assert (Hstep : exists pc1,
              match pct with
              | Some p => dict_append pct_changes col p
              | None => Ok pct_changes
              end = Ok pc1 /\ Dict.keys pc1 = Dict.keys pct_changes).
    { destruct pct as [p|]; [|exists pct_changes; split; reflexivity].
      assert (Hnb : col <> "base").
      { apply (render_cell_pct_not_base col val baseline_val min_val p).
        now rewrite Hcell. }
      pose proof (Hkeys col (or_introl eq_refl) Hnb) as Hin.
      apply DictFacts.find_some_iff_key in Hin as [l Hl].
      unfold dict_append, Dict.get. rewrite Hl. cbn [bind].
      eexists. split; [reflexivity|].
      now apply DictFacts.keys_set_present with (v0 := l). }
    destruct Hstep as (pc1 & -> & Hk1). cbn [bind].
    destruct (IH pc1) as (cells & pc2 & -> & Hlen & Hk2).
    + intros c Hc. apply Hvals. now right.
    + intros c Hc Hnb. rewrite Hk1. apply Hkeys; [now right | exact Hnb].
    + cbn [bind fst snd]. exists (cell :: cells), pc2.
      split; [reflexivity|]. split; [cbn; lia | congruence].
Qed.

(** Every cell of a data row after the first is the cell that
    [render_cell] gives for the value of its column. *)
Lemma render_cells_cells (f : string -> float) (cols : list string)
                         (row_values : Dict.t float) (baseline_val : float)
                         (min_val : option float)
                         (pct_changes pct_changes' : Dict.t (list float))
                         (cells : list td) :
  (forall c, In c cols -> Dict.find row_values c = Some (f c)) ->
  render_cells cols row_values baseline_val min_val pct_changes
  = Ok (cells, pct_changes') ->
  cells = map (fun col => fst (render_cell col (f col) baseline_val min_val))
              cols.
Proof.
  revert pct_changes pct_changes' cells; induction cols as [|col rest IH];
    intros pct_changes pct_changes' cells Hvals; cbn [render_cells map].
  - now intros [= <- _].
  - unfold Dict.get at 1. rewrite (Hvals col (or_introl eq_refl)). cbn [bind].
    destruct (render_cell col (f col) baseline_val min_val) as [cell pct].
    destruct (match pct with
              | Some p => dict_append pct_changes col p
              | None => Ok pct_changes
              end) as [pc1|e]; cbn [bind]; [|discriminate].
    destruct (render_cells rest row_values baseline_val min_val pc1)
      as [[cells1 pc2]|e] eqn:Hrest; cbn [bind fst snd]; [|discriminate].
    intros [= <- _]. cbn [fst]. f_equal.
    apply (IH pc1 pc2 cells1); [|exact Hrest].
    intros c Hc. apply Hvals. now right.
Qed.

(** A list that names each column once selects no Series. *)
Lemma filter_eqb_nodup (cols : list string) (c : string) :
  NoDup cols -> List.length (filter (String.eqb c) cols) <= 1.
Proof.
  induction 1 as [|x rest Hnotin Hnd IH]; cbn [filter List.length]; [lia|].
  destruct (String.eqb c x) eqn:E; [|exact IH].
  apply String.eqb_eq in E. subst x.
  replace (filter (String.eqb c) rest) with (@nil string); [cbn; lia|].
  symmetry. clear -Hnotin. induction rest as [|y rest IH]; [reflexivity|].
  cbn [filter]. destruct (String.eqb c y) eqn:E.
  - apply String.eqb_eq in E. subst y. exfalso. apply Hnotin. now left.
  - apply IH. intros H. apply Hnotin. now right.
Qed.

Lemma no_series_nodup (pv : pivot_table) (available_cols : list string)
                      (seq : label) :
  NoDup available_cols ->
  existsb (loc_is_series pv available_cols seq) available_cols = false.
Proof.
  intros Hnd.
  destruct (existsb (loc_is_series pv available_cols seq) available_cols)
    eqn:E; [|reflexivity].
  apply existsb_exists in E as (c & _ & Hc). unfold loc_is_series in Hc.
  apply andb_true_iff in Hc as [_ Hc]. apply Nat.ltb_lt in Hc.
  pose proof (filter_eqb_nodup available_cols c Hnd). lia.
Qed.

Lemma render_row_cells (pv : pivot_table) (available_cols : list string)
                       (seq : label)
                       (pct_changes pct_changes' : Dict.t (list float))
                       (cells : list td) :
  render_row pv available_cols seq pct_changes = Ok (cells, pct_changes') ->
  exists (baseline_val : float) (min_val : option float),
    baseline_val
    = (if existsb (String.eqb "base") available_cols
       then pv_lookup pv available_cols seq "base" else nan) /\
    cells
    = TdSeq seq
      :: map (fun col =>
                fst (render_cell col (pv_lookup pv available_cols seq col)
                       baseline_val min_val))
             available_cols.
Proof.
  unfold render_row.
  destruct (existsb (loc_is_series pv available_cols seq) available_cols);
    [discriminate|].
  set (row_values :=
         fold_left (fun d col =>
                      Dict.set d col (pv_lookup pv available_cols seq col))
                   available_cols []).
  set (min_val := py_min (valid_values row_values)).
  set (baseline_val := Dict.get_or row_values "base" nan).
  destruct (render_cells available_cols row_values baseline_val min_val
              pct_changes) as [[cells1 pc1]|e] eqn:Hcells; cbn [bind fst snd];
    [|discriminate].
  intros [= <- _]. exists baseline_val, min_val. split.
  - unfold baseline_val, Dict.get_or, row_values. rewrite find_fold_set.
    cbn [Dict.find]. now destruct (existsb (String.eqb "base") available_cols).
  - f_equal.
    apply (render_cells_cells (pv_lookup pv available_cols seq)
             available_cols row_values baseline_val min_val pct_changes pc1);
      [|exact Hcells].
    intros c Hc. unfold row_values.
    now rewrite find_fold_set, (existsb_eqb_in c _ Hc).
Qed.

Lemma render_row_ok (pv : pivot_table) (available_cols : list string)
                    (seq : label) (pct_changes : Dict.t (list float)) :
  existsb (loc_is_series pv available_cols seq) available_cols = false ->
  (forall c, In c available_cols -> c <> "base" ->
             In c (Dict.keys pct_changes)) ->
  exists (cells : list td) (pct_changes' : Dict.t (list float)),
    render_row pv available_cols seq pct_changes = Ok (cells, pct_changes') /\
    List.length cells = 1 + List.length available_cols /\
    Dict.keys pct_changes' = Dict.keys pct_changes.
Proof.
  intros Hser Hkeys. unfold render_row. rewrite Hser.
  edestruct (render_cells_ok available_cols) as (cells & pc' & -> & Hlen & Hk);
    [|exact Hkeys|].
  - intros c Hc. rewrite find_fold_set, (existsb_eqb_in c _ Hc). eauto.
  - cbn [bind fst snd]. exists (TdSeq seq :: cells), pc'.
    split; [reflexivity|]. split; [cbn; lia | exact Hk].
Qed.

Lemma render_rows_ok (pv : pivot_table) (available_cols : list string)
                     (sequences : list label)
                     (pct_changes : Dict.t (list float)) :
  (forall seq, In seq sequences ->
     existsb (loc_is_series pv available_cols seq) available_cols = false) ->
  (forall c, In c available_cols -> c <> "base" ->
             In c (Dict.keys pct_changes)) ->
  exists (rows : list (list td)) (pct_changes' : Dict.t (list float)),
    render_rows pv available_cols sequences pct_changes
    = Ok (rows, pct_changes') /\
    List.length rows = List.length sequences /\
    Forall (fun r => List.length r = 1 + List.length available_cols) rows /\
    Dict.keys pct_changes' = Dict.keys pct_changes.
Proof.
  revert pct_changes; induction sequences as [|seq rest IH];
    intros pct_changes Hser Hkeys; cbn [render_rows].
  - exists [], pct_changes. repeat split. constructor.
  - destruct (render_row_ok pv available_cols seq pct_changes
                (Hser seq (or_introl eq_refl)) Hkeys)
      as (cells & pc1 & -> & Hlen & Hk1).
    cbn [bind fst snd].
    destruct (IH pc1) as (rows & pc2 & -> & Hn & Hall & Hk2).
    + intros s Hs. apply Hser. now right.
    + intros c Hc Hnb. rewrite Hk1. now apply Hkeys.
    + cbn [bind fst snd]. exists (cells :: rows), pc2.
      split; [reflexivity|]. split; [cbn; lia|].
      split; [now constructor | congruence].
Qed.

Lemma avg_cells_ok (np_mean : list float -> float) (cols : list string)
                   (pct_changes : Dict.t (list float)) :
  (forall c, In c cols -> c <> "base" -> In c (Dict.keys pct_changes)) ->
  exists cells : list td,
    avg_cells np_mean cols pct_changes = Ok cells /\
    List.length cells
    = List.length (filter (fun col => negb (String.eqb col "base")) cols).
Proof.
  induction cols as [|col rest IH]; intros Hkeys; cbn [avg_cells filter].
  - exists []. split; reflexivity.
  - destruct IH as (cells & Hcells & Hlen).
    { intros c Hc. apply Hkeys. now right. }
    destruct (String.eqb col "base") eqn:E; cbn [negb].
    + exists cells. split; assumption.
    + apply String.eqb_neq in E.
      pose proof (Hkeys col (or_introl eq_refl) E) as Hin.
      apply DictFacts.find_some_iff_key in Hin as [l Hl].
      unfold Dict.get. rewrite Hl, Hcells. cbn [bind].
      eexists. split; [reflexivity|]. cbn [List.length]. now rewrite Hlen.
Qed.

Lemma non_base_count_absent (cols : list string) :
  ~ In "base" cols ->
  List.length (filter (fun col => negb (String.eqb col "base")) cols)
  = List.length cols.
Proof.
  induction cols as [|col rest IH]; intros Hnot; cbn [filter]; [reflexivity|].
  destruct (String.eqb col "base") eqn:E.
  - apply String.eqb_eq in E. subst col. exfalso. apply Hnot. now left.
  - cbn [negb List.length]. rewrite IH; [reflexivity|].
    intros H. apply Hnot. now right.
Qed.

Lemma non_base_count_present (cols : list string) :
  NoDup cols -> In "base" cols ->
  S (List.length (filter (fun col => negb (String.eqb col "base")) cols))
  = List.length cols.
Proof.
  induction 1 as [|col rest Hnotin Hnodup IH]; intros Hin; [contradiction|].
  cbn [filter List.length].
  destruct (String.eqb col "base") eqn:E; cbn [negb List.length].
  - apply String.eqb_eq in E. subst col.
    now rewrite non_base_count_absent.
  - destruct Hin as [->|Hin]; [now rewrite String.eqb_refl in E|].
    now rewrite IH.
Qed.

Lemma build_table_shape (np_mean : list float -> float) (pv : pivot_table)
                        (sequences : list label) (title : string)
                        (available_cols : list string) :
  (forall seq, In seq sequences ->
     existsb (loc_is_series pv available_cols seq) available_cols = false) ->
  exists t : html_table,
    build_table np_mean pv sequences title available_cols = Ok t /\
    List.length (tbl_header t) = 1 + List.length available_cols /\
    List.length (tbl_body t) = List.length sequences /\
    Forall (fun r => List.length r = 1 + List.length available_cols)
           (tbl_body t) /\
    List.length (tbl_avg_row t)
    = 2 + List.length (filter (fun col => negb (String.eqb col "base"))
                              available_cols).
Proof.
  intros Hser. unfold build_table.
  set (pct_changes :=
         fold_left (fun d col => Dict.set d col [])
           (filter (fun col => negb (String.eqb col "base")) available_cols) []).
  assert (Hkeys : forall c, In c available_cols -> c <> "base" ->
                            In c (Dict.keys pct_changes)).
  { intros c Hc Hnb. apply DictFacts.find_some_iff_key.
    unfold pct_changes.
    rewrite (find_fold_set (fun _ => @nil float)), existsb_eqb_in; [eauto|].
    apply filter_In. split; [exact Hc|].
    apply String.eqb_neq in Hnb. now rewrite Hnb. }
  destruct (render_rows_ok pv available_cols sequences pct_changes Hser Hkeys)
    as (rows & pc' & -> & Hn & Hall & Hk).
  cbn [bind fst snd].
  destruct (avg_cells_ok np_mean available_cols pc') as (avg & -> & Havg).
  { intros c Hc Hnb. rewrite Hk. now apply Hkeys. }
  cbn [bind]. eexists. split; [reflexivity|].
  cbn [tbl_header tbl_body tbl_avg_row List.length].
  rewrite length_map, Havg. repeat split; assumption.
Qed.

(** Every configured group lists each of its columns once. *)
Lemma tables_config_nodup (config : table_config) :
  In config tables_config -> NoDup (cfg_columns config).
Proof.
  unfold tables_config. intros H.
  repeat (destruct H as [<-|H];
          [cbn [cfg_columns];
           repeat (constructor; [cbn [In]; intuition discriminate|]);
           constructor|]).
  contradiction.
Qed.

(** C10: for a group whose resolved column list is not empty, the table
    is written; its header and each of its data rows have one cell more
    than there are resolved columns.  When [base] is not among the
    resolved columns, the average row has two cells more than there are
    resolved columns -- its label, the dash of the baseline and one cell
    per column -- one more than every other row; when [base] is among
    them, the average row is as long as the other rows. *)
Theorem summary_row_cell_count
    (np_mean : list float -> float) (pv : pivot_table)
    (sequences : list label) (title : string) (columns : list string)
    (output_file : string) (w : world) :
  let available_cols :=
    filter (fun c => existsb (label_eqb (Some c)) (pv_columns pv)) columns in
  available_cols <> [] ->
  NoDup columns ->
  exists t : html_table,
    generate_table_html np_mean pv sequences title columns output_file w
    = Ok (print (write_file w output_file (TableDoc t)) (Generated output_file)) /\
    List.length (tbl_header t) = 1 + List.length available_cols /\
    List.length (tbl_body t) = List.length sequences /\
    Forall (fun r => List.length r = 1 + List.length available_cols)
           (tbl_body t) /\
    (~ In "base" available_cols ->
     List.length (tbl_avg_row t) = 2 + List.length available_cols) /\
    (In "base" available_cols ->
     List.length (tbl_avg_row t) = 1 + List.length available_cols).
Proof.
  intros available_cols Hne Hnodup.
  assert (Hnd : NoDup available_cols) by (apply NoDup_filter; exact Hnodup).
  destruct (build_table_shape np_mean pv sequences title available_cols)
    as (t & Hbuild & Hhead & Hbody & Hrows & Havg).
  { intros seq _. now apply no_series_nodup. }
  exists t. split.
  { unfold generate_table_html. fold available_cols.
    destruct available_cols as [|c cs] eqn:E; [congruence|].
    rewrite Hbuild. reflexivity. }
  split; [exact Hhead|]. split; [exact Hbody|]. split; [exact Hrows|].
  split.
  - intros Hnot. rewrite Havg, non_base_count_absent by exact Hnot. reflexivity.
  - intros Hin. rewrite Havg.
    rewrite <- (non_base_count_present available_cols); [reflexivity| |exact Hin].
    apply NoDup_filter. exact Hnodup.
Qed.

Lemma summary_row_cell_count_witness :
  let pv := {| pv_index := [Some "spot_seq1"];
               pv_columns := [Some "daac_rgd_inv"];
               pv_cells := [((Some "spot_seq1", Some "daac_rgd_inv"),
                             0.4%float)] |} in
  let columns := ["base"; "daac_rgd_inv"; "daac_rgd_metric"] in
  let w := {| w_files := []; w_out := [] |} in
  let available_cols :=
    filter (fun c => existsb (label_eqb (Some c)) (pv_columns pv)) columns in
  exists t : html_table,
    generate_table_html sum_mean pv [Some "spot_seq1"]
      "Baseline vs RGD (Inverse + Metric)" columns "baseline_vs_rgd.html" w
    = Ok (print (write_file w "baseline_vs_rgd.html" (TableDoc t))
                (Generated "baseline_vs_rgd.html")) /\
    List.length (tbl_header t) = 1 + List.length available_cols /\
    List.length (tbl_body t) = List.length [Some "spot_seq1"] /\
    Forall (fun r => List.length r = 1 + List.length available_cols)
           (tbl_body t) /\
    (~ In "base" available_cols ->
     List.length (tbl_avg_row t) = 2 + List.length available_cols) /\
    (In "base" available_cols ->
     List.length (tbl_avg_row t) = 1 + List.length available_cols).
Proof.
  apply (summary_row_cell_count sum_mean
           {| pv_index := [Some "spot_seq1"];
              pv_columns := [Some "daac_rgd_inv"];
              pv_cells := [((Some "spot_seq1", Some "daac_rgd_inv"),
                            0.4%float)] |}
           [Some "spot_seq1"] "Baseline vs RGD (Inverse + Metric)"
           ["base"; "daac_rgd_inv"; "daac_rgd_metric"]
           "baseline_vs_rgd.html" {| w_files := []; w_out := [] |}).
  - vm_compute. discriminate.
  - repeat (constructor; [cbn [In]; intuition discriminate|]). constructor.
Defined.

(** The two cases of C10, evaluated: without a [base] column the
    average row has three cells against two in the header and the data
    row; with it, all rows have three cells. *)
Example summary_row_cells_evaluated :
  (exists t,
     build_table sum_mean
       {| pv_index := [Some "spot_seq1"];
          pv_columns := [Some "daac_rgd_inv"];
          pv_cells := [((Some "spot_seq1", Some "daac_rgd_inv"), 0.4%float)] |}
       [Some "spot_seq1"] "Baseline vs RGD (Inverse + Metric)" ["daac_rgd_inv"]
     = Ok t /\
     tbl_header t = ["Sequence"; "Rgd Inv"] /\
     tbl_body t = [[TdSeq (Some "spot_seq1"); TdValue "best" 0.4%float None]] /\
     tbl_avg_row t = [TdAvgLabel; TdDash; TdDash]) /\
  (exists t,
     build_table sum_mean
       {| pv_index := [Some "spot_seq1"];
          pv_columns := [Some "base"; Some "daac_rgd_inv"];
          pv_cells := [((Some "spot_seq1", Some "base"), 0.5%float);
                       ((Some "spot_seq1", Some "daac_rgd_inv"), 0.25%float)] |}
       [Some "spot_seq1"] "Baseline vs RGD (Inverse + Metric)"
       ["base"; "daac_rgd_inv"]
     = Ok t /\
     tbl_header t = ["Sequence"; "Base"; "Rgd Inv"] /\
     tbl_body t = [[TdSeq (Some "spot_seq1"); TdValue "" 0.5%float None;
                    TdValue "best" 0.25%float
                      (Some ("improvement", (-50)%float))]] /\
     tbl_avg_row t = [TdAvgLabel; TdDash; TdAvg "improvement" (-50)%float]).
Proof.
  split; eexists; (split; [vm_compute; reflexivity|]);
    repeat split; vm_compute; reflexivity.
Qed.

(** * Further properties of the scripts *)

(** ** Name parsing, inverted *)

Lemma parse_name_loop_inv (markers : list string) (name : string)
                          (a b : option string) :
  parse_name_loop name markers = (a, b) ->
  (a = None /\ b = None /\
   forall m, In m markers -> PyStr.endswith name m = false) \/
  (exists marker,
     In marker markers /\ PyStr.endswith name marker = true /\
     a = Some (PyStr.slice_to_neg name (String.length marker)) /\
     b = Some (PyStr.drop 1 marker)).
Proof.
  induction markers as [|marker rest IH]; cbn [parse_name_loop].
  - intros [= <- <-]. left. repeat split. intros m [].
  - destruct (PyStr.endswith name marker) eqn:E.
    + intros [= <- <-]. right. exists marker.
      repeat split; [now left | exact E].
    + intros H. destruct (IH H) as [(Ha & Hb & Hnone)|(m & Hin & Hm & Ha & Hb)].
      * left. repeat split; try assumption.
        intros m [<-|Hin]; [exact E | now apply Hnone].
      * right. exists m. repeat split; try assumption. now right.
Qed.

Lemma variant_markers_underscore (m : string) :
  In m variant_markers -> m = ("_" ++ PyStr.drop 1 m)%string.
Proof.
  unfold variant_markers. intros Hm.
  repeat (destruct Hm as [<-|Hm]; [reflexivity|]). contradiction.
Qed.

Lemma parse_name_some_inv (name seq variant : string) :
  parse_name name = (Some seq, Some variant) ->
  In ("_" ++ variant)%string variant_markers /\
  PyStr.endswith name ("_" ++ variant)%string = true /\
  name = (seq ++ "_" ++ variant)%string.
Proof.
  unfold parse_name. intros H.
  destruct (parse_name_loop_inv _ _ _ _ H)
    as [(Ha & _)|(m & Hin & Hm & Ha & Hb)]; [discriminate|].
  assert (Hs : seq = PyStr.slice_to_neg name (String.length m)) by congruence.
  assert (Hv : variant = PyStr.drop 1 m) by congruence.
  subst seq variant. clear Ha Hb.
  rewrite <- (variant_markers_underscore m Hin).
  split; [exact Hin|]. split; [exact Hm|].
  pose proof (PyStrFacts.endswith_split name m Hm) as Hsplit.
  unfold PyStr.slice_to_neg.
  destruct m as [|c m']; [now apply variant_markers_nonempty in Hin|].
  exact Hsplit.
Qed.

(** X1: when a name is assigned, the name is the sequence, an
    underscore and the variant put together again, and the underscore
    with the variant is one of the known markers. *)
Theorem parse_name_reassembles (name seq variant : string) :
  parse_name name = (Some seq, Some variant) ->
  name = (seq ++ "_" ++ variant)%string /\
  In ("_" ++ variant)%string variant_markers.
Proof.
  intros H. destruct (parse_name_some_inv name seq variant H) as (Hin & _ & Hname).
  split; assumption.
Qed.

Lemma parse_name_reassembles_witness :
  "spot_seq1_daac_rgd_inv" = ("spot_seq1" ++ "_" ++ "daac_rgd_inv")%string /\
  In ("_" ++ "daac_rgd_inv")%string variant_markers.
Proof.
  apply (parse_name_reassembles "spot_seq1_daac_rgd_inv" "spot_seq1"
           "daac_rgd_inv").
  reflexivity.
Defined.

(** X2: a name is left unassigned, (None, None), exactly when none of
    the known markers ends it; no name is ever assigned a sequence
    without a variant or a variant without a sequence. *)
Theorem parse_name_unassigned_iff (name : string) :
  (parse_name name = (None, None)
   <-> forall m, In m variant_markers -> PyStr.endswith name m = false) /\
  (forall a b, parse_name name = (a, b) -> (a = None <-> b = None)).
Proof.
  split; [split|].
  - unfold parse_name. intros H.
    destruct (parse_name_loop_inv _ _ _ _ H)
      as [(_ & _ & Hnone)|(m & _ & _ & Ha & _)]; [exact Hnone | discriminate].
  - apply parse_name_unmapped.
  - unfold parse_name. intros a b H.
    destruct (parse_name_loop_inv _ _ _ _ H)
      as [(-> & -> & _)|(m & _ & _ & -> & ->)]; split; congruence.
Qed.

(** X3: two names that are assigned the same sequence and the same
    variant are the same name, so distinct assigned names never meet in
    one cell of the pivot. *)
Theorem parse_name_injective (name1 name2 seq variant : string) :
  parse_name name1 = (Some seq, Some variant) ->
  parse_name name2 = (Some seq, Some variant) ->
  name1 = name2.
Proof.
  intros H1 H2.
  destruct (parse_name_some_inv name1 seq variant H1) as (_ & _ & ->).
  destruct (parse_name_some_inv name2 seq variant H2) as (_ & _ & ->).
  reflexivity.
Qed.

Lemma parse_name_injective_witness :
  "spot_seq1_base" = "spot_seq1_base".
Proof.
  apply (parse_name_injective "spot_seq1_base" "spot_seq1_base"
           "spot_seq1" "base"); reflexivity.
Defined.

(** ** The pattern of the Extractor *)

Module ReFacts.

Lemma span_run (p : ascii -> bool) (s run tail : string) :
  Re.span p s = (run, tail) -> string_forall p run = true.
Proof.
  revert run tail; induction s as [|c rest IH]; intros run tail;
    cbn [Re.span].
  - intros [= <- _]. reflexivity.
  - destruct (p c) eqn:E.
    + destruct (Re.span p rest) as [run' tail'].
      intros [= <- _]. cbn [string_forall]. rewrite E. now apply (IH run' tail').
    + intros [= <- _]. reflexivity.
Qed.

Lemma match_here_token (s tok : string) (len : nat) :
  Re.match_here s = Some (tok, len) ->
  tok <> EmptyString /\ string_forall Re.is_digit_or_dot tok = true.
Proof.
  unfold Re.match_here.
  destruct (Re.match_literal "rmse" s) as [after_lit|]; [|discriminate].
  destruct (Re.span Re.is_space after_lit) as [spaces after_spaces].
  destruct (Re.span Re.is_digit_or_dot after_spaces) as [number rest] eqn:Hnum.
  destruct spaces; [discriminate|].
  destruct number as [|c number]; [discriminate|].
  intros [= <- _]. split; [discriminate|].
  now apply (span_run _ _ _ _ Hnum).
Qed.

Lemma findall_from_tokens (s : string) (skip : nat) :
  Forall (fun tok => tok <> EmptyString /\
                     string_forall Re.is_digit_or_dot tok = true)
         (Re.findall_from s skip).
Proof.
  revert skip; induction s as [|c rest IH]; intros skip;
    cbn [Re.findall_from]; [constructor|].
  destruct skip as [|k]; [|apply IH].
  destruct (Re.match_here (String c rest)) as [[tok len]|] eqn:E; [|apply IH].
  constructor; [|apply IH]. now apply (match_here_token _ _ _ E).
Qed.

Lemma lower_class (c : ascii) :
  Re.is_space (Re.lower c) = Re.is_space c /\
  Re.is_digit_or_dot (Re.lower c) = Re.is_digit_or_dot c /\
  Re.lower (Re.lower c) = Re.lower c /\
  (Re.is_digit_or_dot c = true -> Re.lower c = c).
Proof.
  destruct c as [[] [] [] [] [] [] [] []]; vm_compute; repeat split;
    congruence.
Qed.

Lemma lower_string_digits (s : string) :
  string_forall Re.is_digit_or_dot s = true -> lower_string s = s.
Proof.
  induction s as [|c rest IH]; cbn [string_forall lower_string];
    [reflexivity|].
  intros H. apply andb_true_iff in H as [Hc Hrest].
  destruct (lower_class c) as (_ & _ & _ & Hl).
  now rewrite (Hl Hc), IH.
Qed.

Lemma lower_string_length (s : string) :
  String.length (lower_string s) = String.length s.
Proof. induction s as [|c rest IH]; cbn; [reflexivity | now rewrite IH]. Qed.

Lemma match_literal_lower (lit s : string) :
  Re.match_literal lit (lower_string s)
  = option_map lower_string (Re.match_literal lit s).
Proof.
  revert s; induction lit as [|a lit IH]; intros s; cbn [Re.match_literal].
  - reflexivity.
  - destruct s as [|b s]; cbn [lower_string Re.match_literal]; [reflexivity|].
    destruct (lower_class b) as (_ & _ & -> & _).
    destruct (Ascii.eqb (Re.lower a) (Re.lower b)); [apply IH | reflexivity].
Qed.

Lemma span_lower (p : ascii -> bool) (s : string) :
  (forall c, p (Re.lower c) = p c) ->
  Re.span p (lower_string s)
  = (lower_string (fst (Re.span p s)), lower_string (snd (Re.span p s))).
Proof.
  intros Hp. induction s as [|c rest IH]; cbn [lower_string Re.span];
    [reflexivity|].
  rewrite Hp. destruct (p c).
  - rewrite IH. destruct (Re.span p rest) as [run tail]. reflexivity.
  - reflexivity.
Qed.

Lemma match_here_lower (s : string) :
  Re.match_here (lower_string s) = Re.match_here s.
Proof.
  unfold Re.match_here. rewrite match_literal_lower.
  destruct (Re.match_literal "rmse" s) as [after_lit|]; cbn [option_map];
    [|reflexivity].
  rewrite (span_lower Re.is_space after_lit)
    by (intros c; apply (lower_class c)).
  destruct (Re.span Re.is_space after_lit) as [spaces after_spaces].
  cbn [fst snd].
  rewrite (span_lower Re.is_digit_or_dot after_spaces)
    by (intros c; apply (lower_class c)).
  destruct (Re.span Re.is_digit_or_dot after_spaces) as [number rest] eqn:Hnum.
  cbn [fst snd].
  rewrite (lower_string_digits number (span_run _ _ _ _ Hnum)).
  rewrite lower_string_length.
  destruct spaces; reflexivity.
Qed.

Lemma findall_from_lower (s : string) (skip : nat) :
  Re.findall_from (lower_string s) skip = Re.findall_from s skip.
Proof.
  revert skip; induction s as [|c rest IH]; intros skip;
    cbn [lower_string Re.findall_from]; [reflexivity|].
  destruct skip as [|k]; [|apply IH].
  change (String (Re.lower c) (lower_string rest))
    with (lower_string (String c rest)).
  rewrite match_here_lower.
  destruct (Re.match_here (String c rest)) as [[tok len]|]; now rewrite IH.
Qed.

End ReFacts.

(** X4: every token the pattern captures is a non-empty string of
    digits and dots: no sign, no exponent, no letter reaches [float]. *)
Theorem findall_tokens_digits_dots (content : string) :
  Forall (fun tok => tok <> EmptyString /\
                     string_forall Re.is_digit_or_dot tok = true)
         (Re.findall content).
Proof. apply ReFacts.findall_from_tokens. Qed.

(** X5: the scan ignores case: two texts that differ only in the case
    of ASCII letters give the same captured tokens. *)
Theorem findall_ignores_case (content1 content2 : string) :
  lower_string content1 = lower_string content2 ->
  Re.findall content1 = Re.findall content2.
Proof.
  intros H. unfold Re.findall.
  rewrite <- (ReFacts.findall_from_lower content1 0), H.
  apply ReFacts.findall_from_lower.
Qed.

Lemma findall_ignores_case_witness :
  Re.findall "Final RMSE 0.5200" = Re.findall "final rmse 0.5200".
Proof.
  apply (findall_ignores_case "Final RMSE 0.5200" "final rmse 0.5200").
  reflexivity.
Defined.

(** X6: [parse_results_file] in closed form: nothing for a missing file
    and for a text without a match; [ValueError] when a captured token
    is no literal; otherwise one value per match, in the order of the
    text. *)
Theorem parse_results_file_closed_form (float_of_literal : string -> float) :
  parse_results_file float_of_literal None = Ok None /\
  forall content : string,
    parse_results_file float_of_literal (Some content)
    = if forallb valid_float_literal (Re.findall content)
      then match Re.findall content with
           | [] => Ok None
           | _ :: _ => Ok (Some (map float_of_literal (Re.findall content)))
           end
      else Raise ValueError.
Proof.
  split; [reflexivity|]. intros content. cbn [parse_results_file].
  generalize (Re.findall content) as toks. intros toks.
  assert (Hmap : mapM (py_float float_of_literal) toks
                 = if forallb valid_float_literal toks
                   then Ok (map float_of_literal toks) else Raise ValueError).
  { induction toks as [|tok rest IH]; cbn [mapM forallb map]; [reflexivity|].
    unfold py_float at 1. destruct (valid_float_literal tok); cbn [bind andb];
      [|reflexivity].
    rewrite IH. destruct (forallb valid_float_literal rest); reflexivity. }
  rewrite Hmap. destruct (forallb valid_float_literal toks); [|reflexivity].
  cbn [bind]. destruct toks; reflexivity.
Qed.

(** ** Run columns and their order *)

Module RunColFacts.

Lemma digits_value_of_uint (d : Decimal.uint) (acc : nat) :
  digits_value (NilEmpty.string_of_uint d) acc = Some (Nat.of_uint_acc d acc).
Proof.
  revert acc; induction d; intros acc;
    cbn [NilEmpty.string_of_uint digits_value Nat.of_uint_acc];
    try reflexivity;
    match goal with
    | |- context [Re.is_digit ?c] =>
        replace (Re.is_digit c) with true by (vm_compute; reflexivity)
    end;
    rewrite IHd, Nat.tail_mul_spec; do 2 f_equal; vm_compute (Re.code _ - 48);
    lia.
Qed.

Lemma string_of_uint_digits (d : Decimal.uint) :
  string_forall Re.is_digit (NilEmpty.string_of_uint d) = true.
Proof.
  induction d; cbn [NilEmpty.string_of_uint string_forall];
    try reflexivity; rewrite IHd; vm_compute; reflexivity.
Qed.

Lemma to_uint_not_nil (n : nat) : Nat.to_uint n <> Decimal.Nil.
Proof.
  intros H. pose proof (DecimalNat.Unsigned.of_to n) as Hn.
  rewrite H in Hn. cbn in Hn. subst n. discriminate.
Qed.

Lemma py_int_str_of_nat (n : nat) : py_int (str_of_nat n) = Ok n.
Proof.
  unfold py_int, str_of_nat.
  destruct (NilEmpty.string_of_uint (Nat.to_uint n)) eqn:E.
  - exfalso. apply (to_uint_not_nil n).
    destruct (Nat.to_uint n); try discriminate. reflexivity.
  - rewrite <- E, digits_value_of_uint.
    change (Nat.of_uint_acc (Nat.to_uint n) 0) with (Nat.of_uint (Nat.to_uint n)).
    now rewrite DecimalNat.Unsigned.of_to.
Qed.

Lemma split_on_digits (s : string) :
  string_forall Re.is_digit s = true -> split_on "_" s = [s].
Proof.
  induction s as [|c rest IH]; cbn [string_forall split_on]; [reflexivity|].
  intros H. apply andb_true_iff in H as [Hc Hrest].
  destruct (Ascii.eqb c "_") eqn:E.
  - apply Ascii.eqb_eq in E. subst c. discriminate.
  - now rewrite IH.
Qed.

Lemma run_col_key_run_key (i : nat) : run_col_key (run_key i) = Ok i.
Proof.
  unfold run_col_key, run_key. cbn [String.append split_on Ascii.eqb].
  cbn -[str_of_nat split_on].
  rewrite (split_on_digits (str_of_nat i)) by apply string_of_uint_digits.
  cbn [nth_error]. apply py_int_str_of_nat.
Qed.

Lemma insert_by_map {A B : Type} (g : A -> B) (leb : A -> A -> bool)
                    (leb' : B -> B -> bool) (x : A) (l : list A) :
  (forall a b, leb' (g a) (g b) = leb a b) ->
  insert_by leb' (g x) (map g l) = map g (insert_by leb x l).
Proof.
  intros H. induction l as [|y rest IH]; cbn [insert_by map]; [reflexivity|].
  rewrite H. destruct (leb x y); cbn [map]; [reflexivity | now rewrite IH].
Qed.

Lemma sort_by_map {A B : Type} (g : A -> B) (leb : A -> A -> bool)
                  (leb' : B -> B -> bool) (l : list A) :
  (forall a b, leb' (g a) (g b) = leb a b) ->
  sort_by leb' (map g l) = map g (sort_by leb l).
Proof.
  intros H. unfold sort_by.
  induction l as [|x rest IH]; cbn [fold_right map]; [reflexivity|].
  rewrite IH. now apply insert_by_map.
Qed.

Lemma insert_by_perm {A : Type} (leb : A -> A -> bool) (x : A) (l : list A) :
  Permutation (insert_by leb x l) (x :: l).
Proof.
  induction l as [|y rest IH]; cbn [insert_by]; [reflexivity|].
  destruct (leb x y); [reflexivity|]. rewrite IH. apply perm_swap.
Qed.

Lemma sort_by_perm {A : Type} (leb : A -> A -> bool) (l : list A) :
  Permutation (sort_by leb l) l.
Proof.
  unfold sort_by. induction l as [|x rest IH]; cbn [fold_right]; [reflexivity|].
  rewrite insert_by_perm. now apply perm_skip.
Qed.

Lemma insert_by_sorted {A : Type} (leb : A -> A -> bool) (x : A) (l : list A) :
  (forall a b, leb a b = false -> leb b a = true) ->
  Sorted (fun a b => leb a b = true) l ->
  Sorted (fun a b => leb a b = true) (insert_by leb x l).
Proof.
  intros Htotal Hs. induction l as [|y rest IH]; cbn [insert_by].
  - repeat constructor.
  - inversion Hs as [|? ? Hs' Hhd]; subst.
    destruct (leb x y) eqn:E.
    + constructor; [exact Hs | now constructor].
    + constructor; [now apply IH|].
      destruct rest as [|z rest]; cbn [insert_by].
      * constructor. now apply Htotal.
      * destruct (leb x z); constructor; [now apply Htotal | now inversion Hhd].
Qed.

Lemma sort_by_sorted {A : Type} (leb : A -> A -> bool) (l : list A) :
  (forall a b, leb a b = false -> leb b a = true) ->
  Sorted (fun a b => leb a b = true) (sort_by leb l).
Proof.
  intros Htotal. unfold sort_by.
  induction l as [|x rest IH]; cbn [fold_right]; [constructor|].
  now apply insert_by_sorted.
Qed.

Lemma mapM_run_keys (l : list nat) :
  mapM (fun x => do k <- run_col_key x; Ok (k, x)) (map run_key l)
  = Ok (map (fun i => (i, run_key i)) l).
Proof.
  induction l as [|i rest IH]; cbn [map mapM]; [reflexivity|].
  rewrite run_col_key_run_key. cbn [bind]. rewrite IH. reflexivity.
Qed.

Lemma sorted_run_cols_run_keys (l : list nat) :
  sorted_run_cols (map run_key l) = Ok (map run_key (sort_by Nat.leb l)).
Proof.
  unfold sorted_run_cols. rewrite mapM_run_keys. cbn [bind]. f_equal.
  rewrite (sort_by_map (fun i => (i, run_key i)) Nat.leb) by reflexivity.
  rewrite map_map. reflexivity.
Qed.

End RunColFacts.

(** X7: the sort key of a run column is its run number: reading back
    the number that names the column [run_i] gives [i], whatever the
    number of digits. *)
Theorem run_col_key_round_trip (i : nat) :
  run_col_key (run_key i) = Ok i /\ py_int (str_of_nat i) = Ok i.
Proof.
  split; [apply RunColFacts.run_col_key_run_key
         | apply RunColFacts.py_int_str_of_nat].
Qed.

(** X8: run columns are put in the order of their run numbers, not of
    their names: whatever the order in which the columns [run_i] come,
    the sort returns them by ascending [i] (so [run_2] before
    [run_10]), each column kept. *)
Theorem sorted_run_cols_numeric (l : list nat) :
  exists l' : list nat,
    sorted_run_cols (map run_key l) = Ok (map run_key l') /\
    Permutation l' l /\
    Sorted le l' /\
    sorted_run_cols ["run_10"; "run_2"; "run_1"]
    = Ok ["run_1"; "run_2"; "run_10"].
Proof.
  exists (sort_by Nat.leb l).
  split; [apply RunColFacts.sorted_run_cols_run_keys|].
  split; [apply RunColFacts.sort_by_perm|].
  split; [|vm_compute; reflexivity].
  assert (Hs : Sorted (fun a b => Nat.leb a b = true) (sort_by Nat.leb l)).
  { apply RunColFacts.sort_by_sorted. intros a b H.
    apply Nat.leb_gt in H. apply Nat.leb_le. lia. }
  induction Hs as [|a rest Hs IH Hhd]; constructor; [exact IH|].
  destruct Hhd as [|b rest' Hab]; constructor. now apply Nat.leb_le.
Qed.

(** ** The order of binary64 numbers *)

Module FloatOrder.

Lemma SFleb_trans (x y z : spec_float) :
  SFleb x y = true -> SFleb y z = true -> SFleb x z = true.
Proof.
  unfold SFleb.
  destruct x as [sx|sx| |sx mx ex], y as [sy|sy| |sy my ey],
           z as [sz|sz| |sz mz ez]; cbn [SFcompare];
    try discriminate; try reflexivity;
    try (destruct sx; try discriminate; try reflexivity);
    try (destruct sy; try discriminate; try reflexivity);
    try (destruct sz; try discriminate; try reflexivity);
    try (intros _ H; exact H); try (intros H _; exact H).
  all: change (PosDef.Pos.compare_cont Eq) with Pos.compare;
    change IntDef.Z.compare with Z.compare;
    destruct (Z.compare_spec ex ey), (Z.compare_spec ey ez),
             (Z.compare_spec ex ez);
    try discriminate; try reflexivity; try lia; subst;
    destruct (Pos.compare_spec mx my), (Pos.compare_spec my mz),
             (Pos.compare_spec mx mz);
    cbn [CompOpp]; try discriminate; try reflexivity; lia.
Qed.

Lemma leb_trans (x y z : float) :
  (x <=? y)%float = true -> (y <=? z)%float = true -> (x <=? z)%float = true.
Proof. rewrite !FloatAxioms.leb_spec. apply SFleb_trans. Qed.

Lemma ltb_leb (x y : float) :
  (x <? y)%float = true -> (x <=? y)%float = true.
Proof.
  rewrite FloatAxioms.ltb_spec, FloatAxioms.leb_spec. unfold SFltb, SFleb.
  destruct (SFcompare (Prim2SF x) (Prim2SF y)) as [[| |]|]; congruence.
Qed.

Lemma not_ltb_leb (x y : float) :
  is_nan x = false -> is_nan y = false ->
  (y <? x)%float = false -> (x <=? y)%float = true.
Proof.
  intros Hx Hy Hlt. destruct (x <=? y)%float eqn:E; [reflexivity|].
  rewrite (FloatFacts.leb_false_ltb y x Hy Hx E) in Hlt. discriminate.
Qed.

Lemma leb_refl (x : float) : is_nan x = false -> (x <=? x)%float = true.
Proof.
  intros Hx. destruct (x <=? x)%float eqn:E; [reflexivity|].
  pose proof (FloatFacts.leb_total x x Hx Hx E). congruence.
Qed.

(** Folding a choice between two numbers that picks one of them below
    (or above) both: the result is one of the numbers and bounds all. *)
Lemma fold_bound (f : float -> float -> float) (R : float -> float -> Prop)
                 (rest : list float) (x : float) :
  (forall a b c, R a b -> R b c -> R a c) ->
  (forall a b, is_nan a = false -> is_nan b = false ->
               (f a b = a \/ f a b = b) /\ R (f a b) a /\ R (f a b) b) ->
  is_nan x = false ->
  Forall (fun v => is_nan v = false) rest ->
  In (fold_left f rest x) (x :: rest) /\
  R (fold_left f rest x) x /\
  Forall (R (fold_left f rest x)) rest.
Proof.
  intros Htrans Hf. revert x; induction rest as [|y rest IH];
    intros x Hx Hrest; cbn [fold_left].
  - split; [now left|]. split; [|constructor].
    destruct (Hf x x Hx Hx) as ([E|E] & Hr & _); now rewrite E in Hr.
  - inversion Hrest as [|? ? Hy Hrest']; subst.
    destruct (Hf x y Hx Hy) as (Hpick & Hrx & Hry).
    assert (Hnn : is_nan (f x y) = false) by (destruct Hpick as [->| ->]; assumption).
    destruct (IH (f x y) Hnn Hrest') as (Hin & Hm & Hall).
    split; [|split].
    + destruct Hin as [Hin|Hin]; [|now right; right].
      rewrite <- Hin. destruct Hpick as [->| ->]; [now left | now right; left].
    + now apply Htrans with (f x y).
    + constructor; [now apply Htrans with (f x y) | exact Hall].
Qed.

End FloatOrder.

(** ** Smallest and largest values *)

Lemma py_min_choice (a b : float) :
  is_nan a = false -> is_nan b = false ->
  ((if (b <? a)%float then b else a) = a \/
   (if (b <? a)%float then b else a) = b) /\
  ((if (b <? a)%float then b else a) <=? a)%float = true /\
  ((if (b <? a)%float then b else a) <=? b)%float = true.
Proof.
  intros Ha Hb. destruct (b <? a)%float eqn:E.
  - split; [now right|]. split; [now apply FloatOrder.ltb_leb
                                | now apply FloatOrder.leb_refl].
  - split; [now left|]. split; [now apply FloatOrder.leb_refl
                               | now apply FloatOrder.not_ltb_leb].
Qed.

Lemma np_minimum_choice (a b : float) :
  is_nan a = false -> is_nan b = false ->
  (Np.minimum a b = a \/ Np.minimum a b = b) /\
  (Np.minimum a b <=? a)%float = true /\
  (Np.minimum a b <=? b)%float = true.
Proof.
  intros Ha Hb. unfold Np.minimum. rewrite Ha, Hb.
  now apply py_min_choice.
Qed.

Lemma np_maximum_choice (a b : float) :
  is_nan a = false -> is_nan b = false ->
  (Np.maximum a b = a \/ Np.maximum a b = b) /\
  (a <=? Np.maximum a b)%float = true /\
  (b <=? Np.maximum a b)%float = true.
Proof.
  intros Ha Hb. unfold Np.maximum. rewrite Ha, Hb.
  destruct (a <? b)%float eqn:E.
  - split; [now right|]. split; [now apply FloatOrder.ltb_leb
                                | now apply FloatOrder.leb_refl].
  - split; [now left|]. split; [now apply FloatOrder.leb_refl
                               | now apply FloatOrder.not_ltb_leb].
Qed.

(** X9: the best value of a row is one of its present values below the
    outlier threshold, and no present value below the threshold is
    smaller. *)
Theorem best_in_row_is_minimum (row_values : Dict.t float) (m : float) :
  py_min (valid_values row_values) = Some m ->
  In m (Dict.values row_values) /\
  is_nan m = false /\
  (OUTLIER_THRESHOLD <=? m)%float = false /\
  forall v : float,
    In v (Dict.values row_values) ->
    is_nan v = false ->
    (OUTLIER_THRESHOLD <=? v)%float = false ->
    (m <=? v)%float = true.
Proof.
  intros Hmin.
  pose proof (py_min_in _ _ Hmin) as Hin.
  destruct (valid_values_spec row_values m Hin) as [Hnan Hout].
  split; [unfold valid_values in Hin; now apply filter_In in Hin|].
  split; [exact Hnan|]. split; [exact Hout|].
  intros v Hv Hvnan Hvout.
  assert (Hvalid : In v (valid_values row_values)).
  { unfold valid_values. apply filter_In. split; [exact Hv|].
    now rewrite Hvnan, (below_threshold v Hvnan Hvout). }
  assert (Hall : Forall (fun u => is_nan u = false) (valid_values row_values)).
  { apply Forall_forall. intros u Hu. now apply valid_values_spec in Hu. }
  destruct (valid_values row_values) as [|x rest]; [discriminate|].
  cbn [py_min] in Hmin. injection Hmin as <-.
  inversion Hall as [|? ? Hx Hrest]; subst.
  destruct (FloatOrder.fold_bound
              (fun cur item => if (item <? cur)%float then item else cur)
              (fun u w => (u <=? w)%float = true) rest x)
    as (_ & Hmx & Hmrest); try assumption.
  - intros a b c. apply FloatOrder.leb_trans.
  - intros a b. apply py_min_choice.
  - destruct Hvalid as [<-|Hvalid]; [exact Hmx|].
    now apply (proj1 (Forall_forall _ _) Hmrest).
Qed.

Lemma best_in_row_is_minimum_witness :
  In 0.4%float
     (Dict.values [("base", 0.5%float); ("daac_rgd_inv", 0.4%float);
                   ("daac_rgd_metric", 12.5%float)]) /\
  is_nan 0.4%float = false /\
  (OUTLIER_THRESHOLD <=? 0.4)%float = false /\
  forall v : float,
    In v (Dict.values [("base", 0.5%float); ("daac_rgd_inv", 0.4%float);
                       ("daac_rgd_metric", 12.5%float)]) ->
    is_nan v = false ->
    (OUTLIER_THRESHOLD <=? v)%float = false ->
    (0.4 <=? v)%float = true.
Proof.
  apply (best_in_row_is_minimum
           [("base", 0.5%float); ("daac_rgd_inv", 0.4%float);
            ("daac_rgd_metric", 12.5%float)] 0.4%float).
  vm_compute. reflexivity.
Defined.

(** X10: in the summary row of observations that are numbers,
    [rmse_min] and [rmse_max] are observations themselves, and every
    observation lies between them. *)
Theorem summary_row_min_max (np_mean : list float -> float)
                            (dirname : string) (vals : list float) :
  vals <> [] ->
  Forall (fun v => is_nan v = false) vals ->
  exists (r : row) (vmin vmax : float),
    make_row np_mean dirname vals = Ok r /\
    Dict.find r "rmse_min" = Some (VFloat vmin) /\
    Dict.find r "rmse_max" = Some (VFloat vmax) /\
    In vmin vals /\ In vmax vals /\
    Forall (fun v => (vmin <=? v)%float = true /\ (v <=? vmax)%float = true)
           vals.
Proof.
  intros Hne Hnn.
  destruct (py_last_nth vals Hne) as (vlast & Hlast & _).
  destruct vals as [|x rest]; [congruence|].
  inversion Hnn as [|? ? Hx Hrest]; subst.
  destruct (FloatOrder.fold_bound Np.minimum
              (fun u w => (u <=? w)%float = true) rest x)
    as (Hmin_in & Hmin_x & Hmin_rest); try assumption.
  { intros a b c. apply FloatOrder.leb_trans. }
  { intros a b. apply np_minimum_choice. }
  destruct (FloatOrder.fold_bound Np.maximum
              (fun u w => (w <=? u)%float = true) rest x)
    as (Hmax_in & Hmax_x & Hmax_rest); try assumption.
  { intros a b c Hab Hbc. now apply FloatOrder.leb_trans with b. }
  { intros a b. apply np_maximum_choice. }
  exists ([ ("name", VStr dirname);
            ("num_runs", VInt (List.length (x :: rest)));
            ("rmse_mean", VFloat (np_mean (x :: rest)));
            ("rmse_median", VFloat (Np.median (x :: rest)));
            ("rmse_min", VFloat (fold_left Np.minimum rest x));
            ("rmse_max", VFloat (fold_left Np.maximum rest x));
            ("rmse_last", VFloat vlast) ] ++ run_entries 1 (x :: rest)),
         (fold_left Np.minimum rest x), (fold_left Np.maximum rest x).
  split.
  { unfold make_row. cbn [Np.min Np.max bind]. rewrite Hlast. cbn [bind].
    f_equal. apply add_runs_fresh. intros j _. apply summary_columns_fresh. }
  split; [reflexivity|]. split; [reflexivity|].
  split; [exact Hmin_in|]. split; [exact Hmax_in|].
  constructor; [split; assumption|].
  apply Forall_forall. intros v Hv. split.
  - now apply (proj1 (Forall_forall _ _) Hmin_rest).
  - now apply (proj1 (Forall_forall _ _) Hmax_rest).
Qed.

Lemma summary_row_min_max_witness :
  exists (r : row) (vmin vmax : float),
    make_row sum_mean "spot_seq1_base" [0.52%float; 0.48%float] = Ok r /\
    Dict.find r "rmse_min" = Some (VFloat vmin) /\
    Dict.find r "rmse_max" = Some (VFloat vmax) /\
    In vmin [0.52%float; 0.48%float] /\ In vmax [0.52%float; 0.48%float] /\
    Forall (fun v => (vmin <=? v)%float = true /\ (v <=? vmax)%float = true)
           [0.52%float; 0.48%float].
Proof.
  apply (summary_row_min_max sum_mean "spot_seq1_base"
           [0.52%float; 0.48%float]).
  - discriminate.
  - repeat constructor.
Defined.

(** ** The pivot table *)

Module PivotFacts.

Lemma label_eqb_eq (a b : label) : label_eqb a b = true <-> a = b.
Proof.
  destruct a as [x|], b as [y|]; cbn [label_eqb]; split; try discriminate;
    try reflexivity.
  - intros H. apply String.eqb_eq in H. now subst.
  - intros [= ->]. apply String.eqb_refl.
Qed.

Lemma key_eqb_eq (a b : label * label) : key_eqb a b = true <-> a = b.
Proof.
  destruct a as [a1 a2], b as [b1 b2]. unfold key_eqb. cbn [fst snd].
  rewrite andb_true_iff, !label_eqb_eq. split.
  - intros [-> ->]. reflexivity.
  - intros [= -> ->]. split; reflexivity.
Qed.

Lemma existsb_key (k : label * label) (keys : list (label * label)) :
  existsb (key_eqb k) keys = true <-> In k keys.
Proof.
  rewrite existsb_exists. split.
  - intros (k' & Hin & Heq). apply key_eqb_eq in Heq. now subst.
  - intros Hin. exists k. split; [exact Hin | now apply key_eqb_eq].
Qed.

Lemma has_duplicate_key_false (keys : list (label * label)) :
  has_duplicate_key keys = false <-> NoDup keys.
Proof.
  induction keys as [|k rest IH]; cbn [has_duplicate_key].
  - split; [constructor | reflexivity].
  - rewrite orb_false_iff, IH. split.
    + intros [Hk Hrest]. constructor; [|exact Hrest].
      intros Hin. apply existsb_key in Hin. congruence.
    + intros Hnd. inversion Hnd as [|? ? Hnotin Hrest]; subst.
      split; [|exact Hrest].
      destruct (existsb (key_eqb k) rest) eqn:E; [|reflexivity].
      apply existsb_key in E. contradiction.
Qed.



Lemma in_dedup (x : string) (l : list string) : In x (dedup l) <-> In x l.
Proof.
  induction l as [|y rest IH]; cbn [dedup]; [reflexivity|].
  destruct (existsb (String.eqb y) rest) eqn:E.
  - rewrite IH. split; [now right|]. intros [<-|H]; [|exact H].
    apply existsb_exists in E as (z & Hz & Heq).
    apply String.eqb_eq in Heq. now subst.
  - cbn [In]. now rewrite IH.
Qed.

Lemma in_somes (x : string) (l : list label) : In x (somes l) <-> In (Some x) l.
Proof.
  induction l as [|[y|] rest IH]; cbn [somes In].
  - reflexivity.
  - rewrite IH. split; intros [H|H]; auto; [left; now subst | left; congruence].
  - rewrite IH. split; [now right|]. intros [H|H]; [discriminate | exact H].
Qed.

Lemma in_axis_labels (x : label) (l : list label) :
  In x (axis_labels l) <-> In x l.
Proof.
  unfold axis_labels. rewrite in_app_iff, in_map_iff. split.
  - intros [H|(s & <- & Hs)].
    + destruct (existsb (label_eqb None) l) eqn:E; [|contradiction].
      destruct H as [<-|[]].
      apply existsb_exists in E as (y & Hy & Heq).
      apply label_eqb_eq in Heq. now subst.
    + apply in_somes, in_dedup.
      eapply Permutation_in; [apply RunColFacts.sort_by_perm | exact Hs].
  - intros Hin. destruct x as [s|].
    + right. exists s. split; [reflexivity|].
      eapply Permutation_in;
        [symmetry; apply RunColFacts.sort_by_perm|].
      now apply in_dedup, in_somes.
    + left. replace (existsb (label_eqb None) l) with true; [now left|].
      symmetry. apply existsb_exists. exists None. split; [exact Hin|reflexivity].
Qed.

End PivotFacts.

(** The pivot raises [ValueError] exactly when two rows carry the same
    pair of labels, and raises nothing else. *)
Lemma pivot_raises_iff_duplicate (rows : list (label * label * float)) :
  (pivot rows = Raise ValueError <-> ~ NoDup (map fst rows)) /\
  ((exists pv, pivot rows = Ok pv) <-> NoDup (map fst rows)).
Proof.
  unfold pivot.
  destruct (has_duplicate_key (map fst rows)) eqn:E.
  - assert (Hnot : ~ NoDup (map fst rows)).
    { intros H. apply PivotFacts.has_duplicate_key_false in H. congruence. }
    split; split; try (intros _; assumption); try reflexivity.
    + intros [pv H]. discriminate.
    + intros H. contradiction.
  - apply PivotFacts.has_duplicate_key_false in E.
    split; split; try discriminate; try (intros _; exact E).
    + intros H. contradiction.
    + intros _. eexists. reflexivity.
Qed.



(** ** Rows without a baseline *)

Lemma render_cell_no_baseline (col : string) (val baseline_val : float)
                              (min_val : option float) :
  is_nan baseline_val = true ->
  snd (render_cell col val baseline_val min_val) = None /\
  plain_cell val (fst (render_cell col val baseline_val min_val)).
Proof.
  intros Hb. unfold render_cell.
  destruct (is_nan val) eqn:Hv; [now split|].
  destruct (OUTLIER_THRESHOLD <=? val)%float eqn:Hout; [now split|].
  rewrite Hb, andb_false_r. cbn [negb andb fst snd plain_cell]. now repeat split.
Qed.

Lemma render_cells_no_baseline (cols : list string) (row_values : Dict.t float)
                               (baseline_val : float) (min_val : option float)
                               (pct_changes : Dict.t (list float))
                               (f : string -> float) :
  is_nan baseline_val = true ->
  (forall c, In c cols -> Dict.find row_values c = Some (f c)) ->
  render_cells cols row_values baseline_val min_val pct_changes
  = Ok (map (fun col => fst (render_cell col (f col) baseline_val min_val)) cols,
        pct_changes).
Proof.
  intros Hb. induction cols as [|col rest IH]; intros Hvals;
    cbn [render_cells map]; [reflexivity|].
  unfold Dict.get at 1. rewrite (Hvals col (or_introl eq_refl)). cbn [bind].
  destruct (render_cell_no_baseline col (f col) baseline_val min_val Hb)
    as [Hsnd _].
  destruct (render_cell col (f col) baseline_val min_val) as [cell pct].
  cbn [snd] in Hsnd. subst pct. cbn [bind].
  rewrite IH by (intros c Hc; apply Hvals; now right).
  reflexivity.
Qed.

Lemma render_row_no_baseline (pv : pivot_table) (available_cols : list string)
                             (seq : label)
                             (pct_changes : Dict.t (list float)) :
  NoDup available_cols ->
  is_nan (if existsb (String.eqb "base") available_cols
          then pv_lookup pv available_cols seq "base" else nan) = true ->
  exists cells : list td,
    render_row pv available_cols seq pct_changes
    = Ok (TdSeq seq :: cells, pct_changes) /\
    Forall2 (fun col cell =>
               plain_cell (pv_lookup pv available_cols seq col) cell /\
               no_annotation cell = true)
            available_cols cells.
Proof.
  intros Hnd Hb. unfold render_row.
  rewrite (no_series_nodup pv available_cols seq Hnd).
  set (row_values :=
         fold_left (fun d col =>
                      Dict.set d col (pv_lookup pv available_cols seq col))
                   available_cols []).
  set (min_val := py_min (valid_values row_values)).
  assert (Hbase : Dict.get_or row_values "base" nan
                  = if existsb (String.eqb "base") available_cols
                    then pv_lookup pv available_cols seq "base" else nan).
  { unfold Dict.get_or, row_values. rewrite find_fold_set. cbn [Dict.find].
    now destruct (existsb (String.eqb "base") available_cols). }
  rewrite Hbase.
  rewrite (render_cells_no_baseline available_cols row_values _ min_val
             pct_changes (pv_lookup pv available_cols seq) Hb).
  - cbn [bind fst snd]. eexists. split; [reflexivity|].
    set (b := if existsb (String.eqb "base") available_cols
              then pv_lookup pv available_cols seq "base" else nan) in *.
    assert (Hall : forall cols : list string,
              Forall2 (fun col cell =>
                         plain_cell (pv_lookup pv available_cols seq col) cell /\
                         no_annotation cell = true)
                cols
                (map (fun col =>
                        fst (render_cell col
                               (pv_lookup pv available_cols seq col)
                               b min_val)) cols)).
    { induction cols as [|col rest IH]; cbn [map]; constructor; [|exact IH].
      destruct (render_cell_no_baseline col
                  (pv_lookup pv available_cols seq col) b min_val Hb)
        as [Hsnd Hplain].
      split; [exact Hplain|].
      destruct (fst (render_cell col (pv_lookup pv available_cols seq col)
                       b min_val)) as [| | |cls v [ann|]| |];
        cbn [plain_cell] in Hplain; try reflexivity; contradiction. }
    apply Hall.
  - intros c Hc. unfold row_values.
    now rewrite find_fold_set, (existsb_eqb_in c _ Hc).
Qed.

(** X12: a row whose baseline is missing -- the group has no [base]
    column, or the sequence has no [base] value -- is rendered, for
    columns that are distinct, whatever the other columns hold: every
    cell shows its value, an outlier mark or a dash without any percent
    change, and nothing is recorded for the averages. *)
Theorem row_without_baseline (pv : pivot_table) (available_cols : list string)
                             (seq : label)
                             (pct_changes : Dict.t (list float)) :
  NoDup available_cols ->
  is_nan (if existsb (String.eqb "base") available_cols
          then pv_lookup pv available_cols seq "base" else nan) = true ->
  exists cells : list td,
    render_row pv available_cols seq pct_changes
    = Ok (TdSeq seq :: cells, pct_changes) /\
    Forall2 (fun col cell =>
               plain_cell (pv_lookup pv available_cols seq col) cell /\
               no_annotation cell = true)
            available_cols cells.
Proof. apply render_row_no_baseline. Qed.

Lemma row_without_baseline_witness :
  let pv := {| pv_index := [Some "spot_seq1"; Some "spot_seq2"];
               pv_columns := [Some "base"; Some "daac_rgd_inv";
                              Some "daac_rgd_metric"];
               pv_cells := [((Some "spot_seq1", Some "base"), 0.5%float);
                            ((Some "spot_seq1", Some "daac_rgd_inv"),
                             0.4%float);
                            ((Some "spot_seq2", Some "daac_rgd_inv"),
                             0.4%float);
                            ((Some "spot_seq2", Some "daac_rgd_metric"),
                             12.5%float)] |} in
  let cols := ["base"; "daac_rgd_inv"; "daac_rgd_metric"] in
  exists cells : list td,
    render_row pv cols (Some "spot_seq2") [("daac_rgd_inv", [(-20)%float]);
                                           ("daac_rgd_metric", [])]
    = Ok (TdSeq (Some "spot_seq2") :: cells,
          [("daac_rgd_inv", [(-20)%float]); ("daac_rgd_metric", [])]) /\
    Forall2 (fun col cell =>
               plain_cell (pv_lookup pv cols (Some "spot_seq2") col) cell /\
               no_annotation cell = true)
            cols cells.
Proof.
  apply (row_without_baseline
           {| pv_index := [Some "spot_seq1"; Some "spot_seq2"];
              pv_columns := [Some "base"; Some "daac_rgd_inv";
                             Some "daac_rgd_metric"];
              pv_cells := [((Some "spot_seq1", Some "base"), 0.5%float);
                           ((Some "spot_seq1", Some "daac_rgd_inv"),
                            0.4%float);
                           ((Some "spot_seq2", Some "daac_rgd_inv"),
                            0.4%float);
                           ((Some "spot_seq2", Some "daac_rgd_metric"),
                            12.5%float)] |}
           ["base"; "daac_rgd_inv"; "daac_rgd_metric"] (Some "spot_seq2")
           [("daac_rgd_inv", [(-20)%float]); ("daac_rgd_metric", [])]).
  - repeat (constructor; [cbn [In]; intuition discriminate|]). constructor.
  - vm_compute. reflexivity.
Defined.

Lemma render_rows_no_base (pv : pivot_table) (available_cols : list string)
                          (sequences : list label)
                          (pct_changes : Dict.t (list float)) :
  NoDup available_cols ->
  ~ In "base" available_cols ->
  exists rows : list (list td),
    render_rows pv available_cols sequences pct_changes
    = Ok (rows, pct_changes) /\
    List.length rows = List.length sequences /\
    Forall (fun r => Forall (fun c => no_annotation c = true) r) rows.
Proof.
  intros Hnd Hnot.
  assert (E : existsb (String.eqb "base") available_cols = false).
  { destruct (existsb (String.eqb "base") available_cols) eqn:E;
      [|reflexivity].
    apply existsb_exists in E as (c & Hc & Heq).
    apply String.eqb_eq in Heq. subst c. contradiction. }
  assert (Hbs : forall seq,
            is_nan (if existsb (String.eqb "base") available_cols
                    then pv_lookup pv available_cols seq "base"
                    else nan) = true).
  { intros seq. rewrite E. vm_compute. reflexivity. }
  induction sequences as [|seq rest IH]; cbn [render_rows].
  - exists []. repeat split. constructor.
  - destruct (render_row_no_baseline pv available_cols seq pct_changes Hnd
                (Hbs seq))
      as (cells & -> & Hcells).
    cbn [bind fst snd]. destruct IH as (rows & -> & Hlen & Hall).
    cbn [bind fst snd]. exists ((TdSeq seq :: cells) :: rows).
    split; [reflexivity|]. split; [cbn; lia|].
    constructor; [|exact Hall].
    constructor; [reflexivity|].
    clear -Hcells. induction Hcells as [|col cell cols cells' [_ H] _ IH];
      constructor; assumption.
Qed.

Lemma avg_cells_all_empty (np_mean : list float -> float)
                          (cols : list string)
                          (pct_changes : Dict.t (list float)) :
  (forall c, In c cols -> c <> "base" /\ Dict.find pct_changes c = Some []) ->
  avg_cells np_mean cols pct_changes = Ok (repeat TdDash (List.length cols)).
Proof.
  induction cols as [|col rest IH]; intros H; cbn [avg_cells]; [reflexivity|].
  destruct (H col (or_introl eq_refl)) as [Hnb Hfind].
  apply String.eqb_neq in Hnb. rewrite Hnb.
  unfold Dict.get. rewrite Hfind. cbn [bind].
  rewrite IH by (intros c Hc; apply H; now right).
  reflexivity.
Qed.

(** X13: the table of a group whose columns are distinct and do not
    include [base] shows no percent change anywhere: no data cell
    carries one, and the average row is its label followed by dashes
    only, one more than the table has columns. *)
Theorem table_without_base (np_mean : list float -> float) (pv : pivot_table)
                           (sequences : list label) (title : string)
                           (available_cols : list string) :
  NoDup available_cols ->
  ~ In "base" available_cols ->
  exists t : html_table,
    build_table np_mean pv sequences title available_cols = Ok t /\
    List.length (tbl_body t) = List.length sequences /\
    Forall (fun r => Forall (fun c => no_annotation c = true) r) (tbl_body t) /\
    tbl_avg_row t
    = TdAvgLabel :: repeat TdDash (1 + List.length available_cols).
Proof.
  intros Hnd Hnot. unfold build_table.
  set (pct_changes :=
         fold_left (fun d col => Dict.set d col [])
           (filter (fun col => negb (String.eqb col "base")) available_cols) []).
  destruct (render_rows_no_base pv available_cols sequences pct_changes
              Hnd Hnot)
    as (rows & -> & Hlen & Hall).
  cbn [bind fst snd].
  rewrite (avg_cells_all_empty np_mean available_cols pct_changes).
  - cbn [bind]. eexists. split; [reflexivity|].
    cbn [tbl_body tbl_avg_row]. repeat split; assumption.
  - intros c Hc.
    assert (Hnb : c <> "base") by (intros ->; contradiction).
    split; [exact Hnb|]. unfold pct_changes.
    rewrite (find_fold_set (fun _ => @nil float)), existsb_eqb_in; [reflexivity|].
    apply filter_In. split; [exact Hc|].
    apply String.eqb_neq in Hnb. now rewrite Hnb.
Qed.

Lemma table_without_base_witness :
  let pv := {| pv_index := [Some "spot_seq1"; Some "spot_seq2"];
               pv_columns := [Some "daac_rgd_inv"; Some "daac_rgd_metric"];
               pv_cells := [((Some "spot_seq1", Some "daac_rgd_inv"),
                             0.4%float);
                            ((Some "spot_seq1", Some "daac_rgd_metric"),
                             0.3%float);
                            ((Some "spot_seq2", Some "daac_rgd_metric"),
                             12.5%float)] |} in
  let sequences := [Some "spot_seq1"; Some "spot_seq2"] in
  let cols := ["daac_rgd_inv"; "daac_rgd_metric"] in
  exists t : html_table,
    build_table sum_mean pv sequences "Baseline vs RGD (Inverse + Metric)" cols
    = Ok t /\
    List.length (tbl_body t) = List.length sequences /\
    Forall (fun r => Forall (fun c => no_annotation c = true) r) (tbl_body t) /\
    tbl_avg_row t = TdAvgLabel :: repeat TdDash (1 + List.length cols).
Proof.
  apply (table_without_base sum_mean
           {| pv_index := [Some "spot_seq1"; Some "spot_seq2"];
              pv_columns := [Some "daac_rgd_inv"; Some "daac_rgd_metric"];
              pv_cells := [((Some "spot_seq1", Some "daac_rgd_inv"),
                            0.4%float);
                           ((Some "spot_seq1", Some "daac_rgd_metric"),
                            0.3%float);
                           ((Some "spot_seq2", Some "daac_rgd_metric"),
                            12.5%float)] |}
           [Some "spot_seq1"; Some "spot_seq2"]
           "Baseline vs RGD (Inverse + Metric)"
           ["daac_rgd_inv"; "daac_rgd_metric"]).
  - repeat (constructor; [cbn [In]; intuition discriminate|]). constructor.
  - cbn [In]. intros [H|[H|[]]]; discriminate.
Defined.

(** ** The Reporter on a well-formed table *)

Lemma combine_fst_snd {A B : Type} (l : list (A * B)) :
  combine (map fst l) (map snd l) = l.
Proof.
  induction l as [|[a b] rest IH]; cbn [map combine fst snd];
    [reflexivity | now rewrite IH].
Qed.

Lemma map_fst_combine_map {A B C : Type} (f : C -> A) (g : C -> B)
                          (l : list C) :
  map fst (combine (map f l) (map g l)) = map f l.
Proof.
  induction l as [|c rest IH]; cbn [map combine fst];
    [reflexivity | now rewrite IH].
Qed.

Lemma NoDup_map_in {A B : Type} (f : A -> B) (l : list A) :
  (forall x y, In x l -> In y l -> f x = f y -> x = y) ->
  NoDup l -> NoDup (map f l).
Proof.
  intros Hinj Hnd. induction Hnd as [|x rest Hnotin Hnd IH]; cbn [map];
    constructor.
  - intros Hin. apply in_map_iff in Hin as (y & Heq & Hy).
    assert (y = x) by (apply Hinj; [now right | now left | exact Heq]).
    subst y. contradiction.
  - apply IH. intros a b Ha Hb. apply Hinj; now right.
Qed.

Lemma generate_table_html_ok (np_mean : list float -> float)
                             (pv : pivot_table) (sequences : list label)
                             (title : string) (columns : list string)
                             (output_file : string) (w : world) :
  NoDup columns ->
  exists w' : world,
    generate_table_html np_mean pv sequences title columns output_file w
    = Ok w'.
Proof.
  intros Hnd. unfold generate_table_html.
  destruct (filter _ columns) as [|c cs] eqn:E; [eexists; reflexivity|].
  destruct (build_table_shape np_mean pv sequences title (c :: cs))
    as (t & -> & _).
  { intros seq _. apply no_series_nodup. rewrite <- E.
    now apply NoDup_filter. }
  cbn [bind]. eexists. reflexivity.
Qed.

Lemma generate_tables_ok (np_mean : list float -> float) (pv : pivot_table)
                         (sequences : list label)
                         (configs : list table_config)
                         (tables_list : list index_entry) (w : world) :
  (forall config, In config configs -> NoDup (cfg_columns config)) ->
  exists w' : world,
    generate_tables np_mean pv sequences configs tables_list w
    = Ok (tables_list ++ map index_entry_of configs, w').
Proof.
  revert tables_list w; induction configs as [|config rest IH];
    intros tables_list w Hcols; cbn [generate_tables map].
  - exists w. now rewrite app_nil_r.
  - destruct (generate_table_html_ok np_mean pv sequences (cfg_title config)
                (cfg_columns config)
                (path_join output_dir (cfg_filename config)) w
                (Hcols config (or_introl eq_refl))) as [w1 ->].
    cbn [bind].
    destruct (IH (tables_list ++ [index_entry_of config]) w1) as [w2 H].
    { intros cfg Hin. apply Hcols. now right. }
    exists w2. unfold index_entry_of in *. rewrite H, <- app_assoc. reflexivity.
Qed.

Lemma sorted_labels_assigned (l : list label) :
  ~ In None l ->
  sorted_labels l = Ok (map Some (sorted_str (somes l))).
Proof.
  intros Hnot. unfold sorted_labels.
  replace (existsb (label_eqb None) l) with false; [reflexivity|].
  symmetry. destruct (existsb (label_eqb None) l) eqn:E; [|reflexivity].
  apply existsb_exists in E as (x & Hx & Heq).
  apply PivotFacts.label_eqb_eq in Heq. subst x. contradiction.
Qed.

(** X14: on a table that has a row at least, whose names are distinct
    and all end in a known marker, the Reporter runs to its end without
    raising: no dictionary lookup of the table generator fails, and the
    index page is written with the card of every configured group, in
    the order of the configuration. *)
Theorem reporter_completes (np_mean : list float -> float)
                           (df : list (string * float)) :
  df <> [] ->
  NoDup (map fst df) ->
  (forall name, In name (map fst df) ->
     exists seq variant, parse_name name = (Some seq, Some variant)) ->
  exists w : world,
    reporter_main np_mean df = Ok w /\
    Dict.find (w_files w) (path_join output_dir "index.html")
    = Some (IndexDoc (map index_entry_of tables_config)).
Proof.
  intros Hne Hnd Hmapped. unfold reporter_main.
  set (parsed := map (fun r => parse_name (fst r)) df).
  assert (Hunzip : unzip_pairs parsed = Ok (map fst parsed, map snd parsed)).
  { unfold parsed. destruct df; [congruence | reflexivity]. }
  rewrite Hunzip. cbn [bind]. rewrite combine_fst_snd.
  set (rows := combine parsed (map snd df)).
  assert (Hkeys : map fst rows = parsed)
    by (unfold rows, parsed; apply map_fst_combine_map).
  assert (Hnodup : NoDup (map fst rows)).
  { rewrite Hkeys. unfold parsed.
    rewrite <- (map_map fst parse_name). apply NoDup_map_in; [|exact Hnd].
    intros x y Hx Hy Heq.
    destruct (Hmapped x Hx) as (s & v & Hpx).
    rewrite Hpx in Heq. symmetry in Heq.
    destruct (parse_name_some_inv x s v Hpx) as (_ & _ & ->).
    destruct (parse_name_some_inv y s v Heq) as (_ & _ & ->).
    reflexivity. }
  unfold pivot.
  match goal with
  | |- context [has_duplicate_key ?k] =>
      replace (has_duplicate_key k) with false
        by (symmetry; apply PivotFacts.has_duplicate_key_false; exact Hnodup)
  end.
  cbn [bind pv_index].
  rewrite sorted_labels_assigned.
  - cbn [bind].
    match goal with
    | |- context [generate_tables np_mean ?pv ?seqs tables_config [] ?w0] =>
        destruct (generate_tables_ok np_mean pv seqs tables_config [] w0
                    tables_config_nodup)
          as [w1 ->]
    end.
    cbn [bind app]. eexists. split; [reflexivity|].
    unfold generate_index_html, print, write_file. cbn [w_files w_out].
    apply DictFacts.find_set_same.
  - rewrite PivotFacts.in_axis_labels. intros Hin.
    apply in_map_iff in Hin as ([[s v] x] & Hs & Hin). cbn [fst] in Hs. subst s.
    assert (Hp : In (@None string, v) parsed).
    { rewrite <- Hkeys. apply in_map_iff. now exists ((None, v), x). }
    unfold parsed in Hp. apply in_map_iff in Hp as ([name m] & Hp & Hname).
    cbn [fst] in Hp.
    destruct (Hmapped name) as (s' & v' & Hp').
    { apply in_map_iff. now exists (name, m). }
    congruence.
Qed.

Lemma reporter_completes_witness :
  exists w : world,
    reporter_main sum_mean [ ("spot_seq1_base", 0.5%float);
                             ("spot_seq1_daac_rgd_inv", 0.4%float) ] = Ok w /\
    Dict.find (w_files w) (path_join output_dir "index.html")
    = Some (IndexDoc (map index_entry_of tables_config)).
Proof.
  apply (reporter_completes sum_mean
           [ ("spot_seq1_base", 0.5%float);
             ("spot_seq1_daac_rgd_inv", 0.4%float) ]).
  - discriminate.
  - repeat (constructor; [cbn [In map fst]; intuition discriminate|]).
    constructor.
  - cbn [map fst In]. intros name [<-|[<-|[]]]; eexists; eexists; reflexivity.
Defined.

(** ** The scan of the base directory *)

Lemma make_row_name (np_mean : list float -> float) (dirname : string)
                    (vals : list float) (r : row) :
  make_row np_mean dirname vals = Ok r ->
  Dict.find r "name" = Some (VStr dirname).
Proof.
  unfold make_row.
  destruct (Np.min vals) as [vmin|]; cbn [bind]; [|discriminate].
  destruct (Np.max vals) as [vmax|]; cbn [bind]; [|discriminate].
  destruct (py_last vals) as [vlast|]; cbn [bind]; [|discriminate].
  intros [= <-]. rewrite add_runs_fresh; [reflexivity|].
  intros j _. apply summary_columns_fresh.
Qed.

Lemma scan_loop_spec (np_mean : list float -> float)
                     (float_of_literal : string -> float)
                     (dirs : list dir_entry) (results results' : list row)
                     (out out' : list extract_event) :
  scan_loop np_mean float_of_literal dirs results out = Ok (results', out') ->
  exists (rs : list row) (es : list extract_event),
    results' = results ++ rs /\
    out' = out ++ es /\
    map event_dirname es = map (fun d => Some (de_name d)) dirs /\
    map (fun r => Dict.find r "name") rs
    = map (fun n => Some (VStr n)) (found_dirnames es).
Proof.
  revert results out; induction dirs as [|d rest IH]; intros results out;
    cbn [scan_loop].
  - intros [= <- <-]. exists [], []. now rewrite !app_nil_r.
  - destruct (parse_results_file float_of_literal (de_results d))
      as [[[|v vs]|]|e]; cbn [bind]; try discriminate.
    + intros H. destruct (IH _ _ H) as (rs & es & -> & -> & He & Hr).
      exists rs, (NoRmseData (de_name d) :: es).
      rewrite <- app_assoc. cbn [app map event_dirname found_dirnames].
      repeat split; [now rewrite He | exact Hr].
    + destruct (make_row np_mean (de_name d) (v :: vs)) as [r|e] eqn:Hrow;
        cbn [bind]; [|discriminate].
      intros H. destruct (IH _ _ H) as (rs & es & -> & -> & He & Hr).
      exists (r :: rs), (FoundRuns (de_name d) (List.length (v :: vs))
                           (Np.median (v :: vs)) :: es).
      rewrite <- !app_assoc. cbn [app map event_dirname found_dirnames].
      repeat split; [now rewrite He|].
      now rewrite (make_row_name _ _ _ _ Hrow), Hr.
    + intros H. destruct (IH _ _ H) as (rs & es & -> & -> & He & Hr).
      exists rs, (NoRmseData (de_name d) :: es).
      rewrite <- app_assoc. cbn [app map event_dirname found_dirnames].
      repeat split; [now rewrite He | exact Hr].
Qed.

Lemma Sorted_map_names (l : list dir_entry) :
  Sorted (fun a b => String.leb (de_name a) (de_name b) = true) l ->
  Sorted (fun a b => String.leb a b = true) (map de_name l).
Proof.
  induction 1 as [|d rest Hs IH Hhd]; cbn [map]; constructor; [exact IH|].
  destruct Hhd; cbn [map]; constructor. assumption.
Qed.

(** ** The row of an experiment in the result of the scan *)

Lemma make_row_observations (np_mean : list float -> float) (dirname : string)
                            (vals : list float) :
  vals <> [] ->
  exists vmin vmax vlast : float,
    make_row np_mean dirname vals
    = Ok ([ ("name", VStr dirname);
            ("num_runs", VInt (List.length vals));
            ("rmse_mean", VFloat (np_mean vals));
            ("rmse_median", VFloat (Np.median vals));
            ("rmse_min", VFloat vmin);
            ("rmse_max", VFloat vmax);
            ("rmse_last", VFloat vlast) ] ++ run_entries 1 vals) /\
    nth_error vals (List.length vals - 1) = Some vlast.
Proof.
  intros Hne.
  destruct (py_last_nth vals Hne) as (vlast & Hlast & Hnth).
  assert (Hmin : exists vmin, Np.min vals = Ok vmin)
    by (destruct vals; [congruence | eexists; reflexivity]).
  assert (Hmax : exists vmax, Np.max vals = Ok vmax)
    by (destruct vals; [congruence | eexists; reflexivity]).
  destruct Hmin as [vmin Hmin]. destruct Hmax as [vmax Hmax].
  exists vmin, vmax, vlast. split; [|exact Hnth].
  unfold make_row. rewrite Hmin, Hmax, Hlast. cbn [bind]. f_equal.
  apply add_runs_fresh. intros j _. apply summary_columns_fresh.
Qed.

(** When no results file raises, the loop of the scan returns, with a
    row and a progress line for every directory that has observations. *)
Lemma scan_loop_rows (np_mean : list float -> float)
                     (float_of_literal : string -> float)
                     (dirs : list dir_entry) (results : list row)
                     (out : list extract_event) :
  (forall d, In d dirs ->
     exists o, parse_results_file float_of_literal (de_results d) = Ok o) ->
  exists (rs : list row) (es : list extract_event),
    scan_loop np_mean float_of_literal dirs results out
    = Ok (results ++ rs, out ++ es) /\
    forall d vals,
      In d dirs ->
      parse_results_file float_of_literal (de_results d) = Ok (Some vals) ->
      exists r, make_row np_mean (de_name d) vals = Ok r /\ In r rs /\
                In (FoundRuns (de_name d) (List.length vals) (Np.median vals))
                   es.
Proof.
  revert results out; induction dirs as [|d rest IH]; intros results out Hall;
    cbn [scan_loop].
  - exists [], []. rewrite !app_nil_r. split; [reflexivity|]. intros d vals [].
  - destruct (Hall d (or_introl eq_refl)) as [o Ho]. rewrite Ho. cbn [bind].
    assert (Hrest : forall d', In d' rest ->
              exists o', parse_results_file float_of_literal (de_results d')
                         = Ok o')
      by (intros d' Hd'; apply Hall; now right).
    destruct o as [[|v vs]|].
    + apply parse_results_file_some in Ho as [Hne _]. congruence.
    + destruct (make_row_observations np_mean (de_name d) (v :: vs))
        as (vmin & vmax & vlast & Hrow & _); [discriminate|].
      rewrite Hrow. cbn [bind].
      match goal with
      | |- context [scan_loop _ _ rest (results ++ [?r]) (out ++ [?e])] =>
          destruct (IH (results ++ [r]) (out ++ [e]) Hrest)
            as (rs & es & Hscan & Hrows);
          exists (r :: rs), (e :: es)
      end.
      rewrite <- !app_assoc in Hscan. split; [exact Hscan|].
      intros d' vals [<-|Hd'] Hparse.
      * assert (vals = v :: vs) by congruence. subst vals.
        eexists. split; [exact Hrow|]. split; now left.
      * destruct (Hrows d' vals Hd' Hparse) as (r & Hr & Hin & Hev).
        exists r. split; [exact Hr|]. split; now right.
    + destruct (IH results (out ++ [NoRmseData (de_name d)]) Hrest)
        as (rs & es & -> & Hrows).
      exists rs, (NoRmseData (de_name d) :: es).
      rewrite <- app_assoc. split; [reflexivity|].
      intros d' vals [<-|Hd'] Hparse; [congruence|].
      destruct (Hrows d' vals Hd' Hparse) as (r & Hr & Hin & Hev).
      exists r. split; [exact Hr|]. split; [exact Hin | now right].
Qed.

(** C7: in a scan none of whose results files raises, an experiment
    whose results file yields the N >= 1 observations [vals] has its
    row among the rows the scan returns, and its progress line among
    the lines printed.  The row is the one built for the directory and
    its observations: it holds N under [num_runs], the N-th observation
    under [rmse_last] (which is also its [run_N]), the median of the
    observations under [rmse_median] -- the middle value of their
    sorted copy for odd N, the average of the two middle values for
    even N -- and, after the seven summary columns, exactly the columns
    [run_1] .. [run_N] holding the observations in order. *)
Theorem summary_row_of_observations
    (np_mean : list float -> float) (float_of_literal : string -> float)
    (base_dir : list dir_entry) (d : dir_entry) (vals : list float) :
  (forall tok, valid_float_literal tok = true ->
               is_nan (float_of_literal tok) = false) ->
  (forall d', In d' base_dir -> PyStr.startswith (de_name d') "spot_" = true ->
     exists o, parse_results_file float_of_literal (de_results d') = Ok o) ->
  In d base_dir ->
  PyStr.startswith (de_name d) "spot_" = true ->
  parse_results_file float_of_literal (de_results d) = Ok (Some vals) ->
  exists (results : list row) (out : list extract_event)
         (r : row) (vmin vmax vlast : float),
    scan_results np_mean float_of_literal base_dir = Ok (results, out) /\
    In r results /\
    In (FoundRuns (de_name d) (List.length vals) (Np.median vals)) out /\
    make_row np_mean (de_name d) vals = Ok r /\
    1 <= List.length vals /\
    r = [ ("name", VStr (de_name d));
          ("num_runs", VInt (List.length vals));
          ("rmse_mean", VFloat (np_mean vals));
          ("rmse_median", VFloat (Np.median vals));
          ("rmse_min", VFloat vmin);
          ("rmse_max", VFloat vmax);
          ("rmse_last", VFloat vlast) ] ++ run_entries 1 vals /\
    List.length (run_entries 1 vals) = List.length vals /\
    Dict.find r "num_runs" = Some (VInt (List.length vals)) /\
    nth_error vals (List.length vals - 1) = Some vlast /\
    Dict.find r "rmse_last" = Some (VFloat vlast) /\
    Dict.find r (run_key (List.length vals)) = Some (VFloat vlast) /\
    Dict.find r "rmse_median" = Some (VFloat (Np.median vals)) /\
    (exists v_sorted : list float,
       Permutation v_sorted vals /\
       Sorted (fun u v => (u <=? v)%float = true) v_sorted /\
       (Nat.odd (List.length vals) = true ->
        nth_error v_sorted ((List.length vals - 1) / 2)
        = Some (Np.median vals)) /\
       (Nat.even (List.length vals) = true ->
        exists a b : float,
          nth_error v_sorted (List.length vals / 2 - 1) = Some a /\
          nth_error v_sorted (List.length vals / 2) = Some b /\
          Np.median vals = ((a + b) / 2)%float)) /\
    (forall i : nat,
       Dict.find r (run_key i)
       = if (1 <=? i)%nat && (i <=? List.length vals)%nat
         then option_map VFloat (nth_error vals (i - 1))
         else None).
Proof.
  intros Hnum Hall Hd Hspot Hparse.
  destruct (parse_results_file_some _ _ _ Hparse) as (Hne & toks & Hvals & Hvalid).
  assert (Hnonnan : Forall (fun v => is_nan v = false) vals).
  { subst vals. apply Forall_map. eapply Forall_impl; [|exact Hvalid].
    exact Hnum. }
  assert (Hlen : 1 <= List.length vals)
    by (destruct vals; [congruence | cbn; lia]).
  destruct (make_row_observations np_mean (de_name d) vals Hne)
    as (vmin & vmax & vlast & Hrow & Hnth).
  set (base := [ ("name", VStr (de_name d));
                 ("num_runs", VInt (List.length vals));
                 ("rmse_mean", VFloat (np_mean vals));
                 ("rmse_median", VFloat (Np.median vals));
                 ("rmse_min", VFloat vmin);
                 ("rmse_max", VFloat vmax);
                 ("rmse_last", VFloat vlast) ]) in *.
  assert (Hruns : forall i : nat,
            Dict.find (base ++ run_entries 1 vals) (run_key i)
            = if (1 <=? i)%nat && (i <=? List.length vals)%nat
              then option_map VFloat (nth_error vals (i - 1))
              else None).
  { intros i. rewrite DictFacts.find_app.
    unfold base. rewrite summary_columns_fresh, find_run_entries.
    replace (i <? 1 + List.length vals)%nat with (i <=? List.length vals)%nat
      by (destruct (Nat.leb_spec i (List.length vals));
          symmetry; [apply Nat.ltb_lt | apply Nat.ltb_ge]; lia).
    reflexivity. }
  set (dirs := sort_by (fun a b => String.leb (de_name a) (de_name b))
                 (filter (fun d => PyStr.startswith (de_name d) "spot_")
                         base_dir)).
  assert (Hdirs : forall d', In d' dirs <->
                    In d' base_dir
                    /\ PyStr.startswith (de_name d') "spot_" = true).
  { intros d'. unfold dirs. split; intros H.
    - apply (Permutation_in _ (RunColFacts.sort_by_perm _ _)) in H.
      apply filter_In in H. exact H.
    - eapply Permutation_in; [symmetry; apply RunColFacts.sort_by_perm|].
      apply filter_In. exact H. }
  destruct (scan_loop_rows np_mean float_of_literal dirs [] [])
    as (rs & es & Hscan & Hrows).
  { intros d' Hd'. apply Hdirs in Hd' as [Hin Hs]. now apply Hall. }
  destruct (Hrows d vals) as (r & Hr & Hin & Hev);
    [apply Hdirs; now split | exact Hparse |].
  assert (r = base ++ run_entries 1 vals) by congruence. subst r.
  exists rs, es, (base ++ run_entries 1 vals), vmin, vmax, vlast.
  split; [exact Hscan|].
  split; [exact Hin|].
  split; [exact Hev|].
  split; [exact Hrow|].
  split; [exact Hlen|].
  split; [reflexivity|].
  split.
  { unfold run_entries. rewrite length_combine, !length_map, length_seq. lia. }
  split; [reflexivity|].
  split; [exact Hnth|].
  split; [reflexivity|].
  split.
  { rewrite Hruns.
    replace (1 <=? List.length vals)%nat with true
      by (symmetry; apply Nat.leb_le; lia).
    rewrite Nat.leb_refl. cbn [andb]. rewrite Hnth. reflexivity. }
  split; [reflexivity|].
  split; [apply NpFacts.median_spec; assumption|].
  exact Hruns.
Qed.

Lemma summary_row_of_observations_witness :
  let base_dir := [ {| de_name := "spot_seq2_base"; de_results := None |};
                    {| de_name := "notes"; de_results := Some "rmse 0.4000" |};
                    {| de_name := "spot_seq1_base";
                       de_results := Some "rmse 0.5200 rmse 0.4800" |} ] in
  let vals := [0.52%float; 0.48%float] in
  exists (results : list row) (out : list extract_event)
         (r : row) (vmin vmax vlast : float),
    scan_results sum_mean float_of_example_literal base_dir
    = Ok (results, out) /\
    In r results /\
    In (FoundRuns "spot_seq1_base" (List.length vals) (Np.median vals)) out /\
    make_row sum_mean "spot_seq1_base" vals = Ok r /\
    1 <= List.length vals /\
    r = [ ("name", VStr "spot_seq1_base");
          ("num_runs", VInt (List.length vals));
          ("rmse_mean", VFloat (sum_mean vals));
          ("rmse_median", VFloat (Np.median vals));
          ("rmse_min", VFloat vmin);
          ("rmse_max", VFloat vmax);
          ("rmse_last", VFloat vlast) ] ++ run_entries 1 vals /\
    List.length (run_entries 1 vals) = List.length vals /\
    Dict.find r "num_runs" = Some (VInt (List.length vals)) /\
    nth_error vals (List.length vals - 1) = Some vlast /\
    Dict.find r "rmse_last" = Some (VFloat vlast) /\
    Dict.find r (run_key (List.length vals)) = Some (VFloat vlast) /\
    Dict.find r "rmse_median" = Some (VFloat (Np.median vals)) /\
    (exists v_sorted : list float,
       Permutation v_sorted vals /\
       Sorted (fun u v => (u <=? v)%float = true) v_sorted /\
       (Nat.odd (List.length vals) = true ->
        nth_error v_sorted ((List.length vals - 1) / 2)
        = Some (Np.median vals)) /\
       (Nat.even (List.length vals) = true ->
        exists a b : float,
          nth_error v_sorted (List.length vals / 2 - 1) = Some a /\
          nth_error v_sorted (List.length vals / 2) = Some b /\
          Np.median vals = ((a + b) / 2)%float)) /\
    (forall i : nat,
       Dict.find r (run_key i)
       = if (1 <=? i)%nat && (i <=? List.length vals)%nat
         then option_map VFloat (nth_error vals (i - 1))
         else None).
Proof.
  apply (summary_row_of_observations sum_mean float_of_example_literal
           [ {| de_name := "spot_seq2_base"; de_results := None |};
             {| de_name := "notes"; de_results := Some "rmse 0.4000" |};
             {| de_name := "spot_seq1_base";
                de_results := Some "rmse 0.5200 rmse 0.4800" |} ]
           {| de_name := "spot_seq1_base";
              de_results := Some "rmse 0.5200 rmse 0.4800" |}
           [0.52%float; 0.48%float]).
  - intros tok _. unfold float_of_example_literal.
    repeat match goal with |- context [if ?b then _ else _] => destruct b end;
      vm_compute; reflexivity.
  - intros d' [<-|[<-|[<-|[]]]] _; eexists; vm_compute; reflexivity.
  - cbn [In]. right. right. left. reflexivity.
  - vm_compute. reflexivity.
  - vm_compute. reflexivity.
Defined.

(** X15: a scan that completes prints one line per entry of the base
    directory whose name starts with [spot_], in ascending order of the
    names and for no other entry; the rows it returns are, in the same
    order, those of the entries reported with runs, each under the name
    of its directory. *)
Theorem scan_results_progress (np_mean : list float -> float)
                              (float_of_literal : string -> float)
                              (base_dir : list dir_entry)
                              (results : list row)
                              (out : list extract_event) :
  scan_results np_mean float_of_literal base_dir = Ok (results, out) ->
  exists names : list string,
    map event_dirname out = map Some names /\
    Permutation names
      (map de_name
           (filter (fun d => PyStr.startswith (de_name d) "spot_") base_dir)) /\
    Sorted (fun a b => String.leb a b = true) names /\
    map (fun r => Dict.find r "name") results
    = map (fun n => Some (VStr n)) (found_dirnames out).
Proof.
  unfold scan_results. intros H.
  destruct (scan_loop_spec _ _ _ _ _ _ _ H) as (rs & es & -> & -> & He & Hr).
  cbn [app] in *.
  set (dirs := sort_by (fun a b => String.leb (de_name a) (de_name b))
                 (filter (fun d => PyStr.startswith (de_name d) "spot_")
                         base_dir)) in *.
  exists (map de_name dirs).
  split; [now rewrite He, map_map|].
  split; [apply Permutation_map, RunColFacts.sort_by_perm|].
  split; [|exact Hr].
  apply Sorted_map_names. apply RunColFacts.sort_by_sorted.
  intros a b Hab.
  destruct (String.leb_total (de_name a) (de_name b)) as [Hle|Hle];
    [congruence | exact Hle].
Qed.

Lemma scan_results_progress_witness :
  let base_dir := [ {| de_name := "spot_seq2_base"; de_results := None |};
                    {| de_name := "notes"; de_results := Some "rmse 0.4000" |};
                    {| de_name := "spot_seq1_base";
                       de_results := Some "rmse 0.5200 rmse 0.4800" |} ] in
  let results :=
    [ [ ("name", VStr "spot_seq1_base"); ("num_runs", VInt 2);
        ("rmse_mean", VFloat (sum_mean [0.52%float; 0.48%float]));
        ("rmse_median", VFloat (Np.median [0.52%float; 0.48%float]));
        ("rmse_min", VFloat 0.48%float); ("rmse_max", VFloat 0.52%float);
        ("rmse_last", VFloat 0.48%float);
        ("run_1", VFloat 0.52%float); ("run_2", VFloat 0.48%float) ] ] in
  let out := [ FoundRuns "spot_seq1_base" 2
                 (Np.median [0.52%float; 0.48%float]);
               NoRmseData "spot_seq2_base" ] in
  exists names : list string,
    map event_dirname out = map Some names /\
    Permutation names
      (map de_name
           (filter (fun d => PyStr.startswith (de_name d) "spot_") base_dir)) /\
    Sorted (fun a b => String.leb a b = true) names /\
    map (fun r => Dict.find r "name") results
    = map (fun n => Some (VStr n)) (found_dirnames out).
Proof.
  apply (scan_results_progress sum_mean float_of_example_literal
           [ {| de_name := "spot_seq2_base"; de_results := None |};
             {| de_name := "notes"; de_results := Some "rmse 0.4000" |};
             {| de_name := "spot_seq1_base";
                de_results := Some "rmse 0.5200 rmse 0.4800" |} ]).
  vm_compute. reflexivity.
Defined.

(** ** The layout of the CSV file *)

Module CsvFacts.

Lemma existsb_eqb_false (k : string) (cols : list string) :
  ~ In k cols -> existsb (String.eqb k) cols = false.
Proof.
  intros Hnot. destruct (existsb (String.eqb k) cols) eqn:E; [|reflexivity].
  apply existsb_exists in E as (c & Hc & Heq).
  apply String.eqb_eq in Heq. subst c. contradiction.
Qed.

Lemma fold_add_present (ks cols : list string) :
  (forall k, In k ks -> In k cols) ->
  fold_left add_column ks cols = cols.
Proof.
  induction ks as [|k rest IH]; intros H; cbn [fold_left]; [reflexivity|].
  unfold add_column at 2.
  rewrite (existsb_eqb_in k cols (H k (or_introl eq_refl))).
  apply IH. intros k' Hk'. apply H. now right.
Qed.

Lemma fold_add_fresh (ks cols : list string) :
  NoDup ks -> (forall k, In k ks -> ~ In k cols) ->
  fold_left add_column ks cols = cols ++ ks.
Proof.
  intros Hnd. revert cols; induction Hnd as [|k rest Hnotin Hnd IH];
    intros cols Hfresh; cbn [fold_left].
  - now rewrite app_nil_r.
  - unfold add_column at 2.
    rewrite (existsb_eqb_false k cols (Hfresh k (or_introl eq_refl))).
    rewrite IH.
    + now rewrite <- app_assoc.
    + intros k' Hk' Hin. apply in_app_iff in Hin as [Hin|[<-|[]]].
      * apply (Hfresh k'); [now right | exact Hin].
      * contradiction.
Qed.

Lemma run_key_not_summary (j : nat) : ~ In (run_key j) base_cols.
Proof.
  unfold base_cols, run_key. cbn [In String.append].
  intros H. repeat (destruct H as [H|H]; [discriminate|]). contradiction.
Qed.

Lemma in_run_keys (j a n : nat) :
  In (run_key j) (map run_key (seq a n)) <-> a <= j < a + n.
Proof.
  rewrite in_map_iff. split.
  - intros (i & Heq & Hi). apply run_key_inj in Heq. subst i.
    now apply in_seq in Hi.
  - intros H. exists j. split; [reflexivity | now apply in_seq].
Qed.

Lemma run_keys_nodup (a n : nat) : NoDup (map run_key (seq a n)).
Proof.
  apply NoDup_map_in; [|apply seq_NoDup].
  intros x y _ _. apply run_key_inj.
Qed.

(** Adding the keys of a row with [n] runs to columns that hold [m]. *)
Lemma fold_add_row (m n : nat) :
  fold_left add_column (base_cols ++ map run_key (seq 1 n))
            (base_cols ++ map run_key (seq 1 m))
  = base_cols ++ map run_key (seq 1 (Nat.max m n)).
Proof.
  rewrite fold_left_app.
  rewrite (fold_add_present base_cols)
    by (intros k Hk; apply in_app_iff; now left).
  destruct (Nat.le_gt_cases n m) as [Hle|Hgt].
  - rewrite Nat.max_l by exact Hle. apply fold_add_present.
    intros k Hk. apply in_app_iff. right.
    apply in_map_iff in Hk as (i & <- & Hi). apply in_seq in Hi.
    apply in_run_keys. lia.
  - rewrite Nat.max_r by lia.
    replace n with (m + (n - m)) at 1 by lia.
    rewrite seq_app, map_app, fold_left_app.
    rewrite (fold_add_present (map run_key (seq 1 m)))
      by (intros k Hk; apply in_app_iff; now right).
    rewrite fold_add_fresh.
    + rewrite <- app_assoc, <- map_app, <- seq_app. do 3 f_equal. lia.
    + apply run_keys_nodup.
    + intros k Hk Hin. apply in_map_iff in Hk as (i & <- & Hi).
      apply in_seq in Hi. apply in_app_iff in Hin as [Hin|Hin].
      * now apply run_key_not_summary in Hin.
      * apply in_run_keys in Hin. lia.
Qed.

Lemma fold_add_first_row (n : nat) :
  fold_left add_column (base_cols ++ map run_key (seq 1 n)) []
  = base_cols ++ map run_key (seq 1 n).
Proof.
  rewrite fold_add_fresh; [reflexivity| |intros k _ []].
  apply NoDup_app.
  - unfold base_cols.
    repeat (constructor; [cbn [In]; intuition discriminate|]). constructor.
  - apply run_keys_nodup.
  - intros k Hk Hin. apply in_map_iff in Hin as (i & <- & _).
    now apply run_key_not_summary in Hk.
Qed.

Lemma columns_of_rows (rows : list row) (ns : list nat) (m : nat) :
  Forall2 (fun r n => Dict.keys r = base_cols ++ map run_key (seq 1 n))
          rows ns ->
  fold_left (fun cols r => fold_left add_column (Dict.keys r) cols) rows
            (base_cols ++ map run_key (seq 1 m))
  = base_cols ++ map run_key (seq 1 (Nat.max m (list_max ns))).
Proof.
  intros H. revert m; induction H as [|r n rows ns Hr _ IH]; intros m;
    cbn [fold_left list_max fold_right].
  - now rewrite Nat.max_0_r.
  - rewrite Hr, fold_add_row, IH. do 3 f_equal.
    change (fold_right Nat.max 0 ns) with (list_max ns). lia.
Qed.

End CsvFacts.

Lemma make_row_closed_form (np_mean : list float -> float) (dirname : string)
                           (vals : list float) (r : row) :
  make_row np_mean dirname vals = Ok r ->
  exists vmin vmax vlast : float,
    r = [ ("name", VStr dirname);
          ("num_runs", VInt (List.length vals));
          ("rmse_mean", VFloat (np_mean vals));
          ("rmse_median", VFloat (Np.median vals));
          ("rmse_min", VFloat vmin);
          ("rmse_max", VFloat vmax);
          ("rmse_last", VFloat vlast) ] ++ run_entries 1 vals.
Proof.
  unfold make_row.
  destruct (Np.min vals) as [vmin|]; cbn [bind]; [|discriminate].
  destruct (Np.max vals) as [vmax|]; cbn [bind]; [|discriminate].
  destruct (py_last vals) as [vlast|]; cbn [bind]; [|discriminate].
  intros [= <-]. exists vmin, vmax, vlast.
  apply add_runs_fresh. intros j _. apply summary_columns_fresh.
Qed.

Lemma run_entries_keys (a : nat) (vals : list float) :
  Dict.keys (run_entries a vals) = map run_key (seq a (List.length vals)).
Proof.
  unfold Dict.keys, run_entries.
  revert a; induction vals as [|v rest IH]; intros a;
    cbn [List.length seq map combine fst]; [reflexivity | now rewrite IH].
Qed.

Lemma filter_run_cols (l : list nat) :
  filter (fun c => PyStr.startswith c "run_") (base_cols ++ map run_key l)
  = map run_key l.
Proof.
  rewrite filter_app.
  assert (Hb : filter (fun c => PyStr.startswith c "run_") base_cols = [])
    by reflexivity.
  rewrite Hb. cbn [app]. induction l as [|i rest IH]; cbn [map filter]; [reflexivity|].
  replace (PyStr.startswith (run_key i) "run_") with true
    by (unfold PyStr.startswith, run_key; cbn;
        now destruct (str_of_nat i)).
  now rewrite IH.
Qed.

Lemma sort_by_seq (a n : nat) : sort_by Nat.leb (seq a n) = seq a n.
Proof.
  unfold sort_by. revert a; induction n as [|n IH]; intros a;
    cbn [seq fold_right]; [reflexivity|].
  rewrite IH. destruct n as [|n]; cbn [seq insert_by]; [reflexivity|].
  replace (a <=? S a)%nat with true by (symmetry; apply Nat.leb_le; lia).
  reflexivity.
Qed.

Lemma forallb_present (cols : list string) :
  forallb (fun c => existsb (String.eqb c) cols) cols = true.
Proof.
  apply forallb_forall. intros c Hc. now apply existsb_eqb_in.
Qed.

(** The run cells of a line: the observations, then empty cells. *)
Lemma run_cells_padded (vals : list float) (a m : nat) :
  List.length vals <= m ->
  map (fun i => Dict.find (run_entries a vals) (run_key i)) (seq a m)
  = map (fun v => Some (VFloat v)) vals
    ++ repeat None (m - List.length vals).
Proof.
  revert a m; induction vals as [|v rest IH]; intros a m Hlen.
  - cbn [List.length map app]. rewrite Nat.sub_0_r.
    unfold run_entries. cbn [List.length seq map combine].
    clear Hlen. revert a; induction m as [|m IHm]; intros a;
      cbn [seq map repeat Dict.find]; [reflexivity | now rewrite IHm].
  - destruct m as [|m]; [cbn in Hlen; lia|].
    cbn [List.length] in *. cbn [seq map app].
    replace (S m - S (List.length rest)) with (m - List.length rest) by lia.
    f_equal.
    + unfold run_entries. cbn [List.length seq map combine Dict.find].
      now rewrite String.eqb_refl.
    + rewrite <- (IH (S a) m) by lia. apply map_ext_in.
      intros i Hi. apply in_seq in Hi.
      unfold run_entries at 1. cbn [List.length seq map combine Dict.find].
      rewrite run_key_neqb by lia. reflexivity.
Qed.

Lemma csv_line_of_row (np_mean : list float -> float) (dirname : string)
                      (vals : list float) (r : row) (m : nat) :
  make_row np_mean dirname vals = Ok r ->
  List.length vals <= m ->
  let line := map (Dict.find r) (base_cols ++ map run_key (seq 1 m)) in
  List.length line = 7 + m /\
  Forall (fun c => c <> None) (firstn 7 line) /\
  skipn 7 line
  = map (fun v => Some (VFloat v)) vals
    ++ repeat None (m - List.length vals).
Proof.
  intros Hrow Hlen line. unfold line.
  destruct (make_row_closed_form _ _ _ _ Hrow) as (vmin & vmax & vlast & Hr).
  split; [now rewrite length_map, length_app, length_map, length_seq|].
  assert (Hsummary : map (Dict.find r) base_cols
                     = [ Some (VStr dirname);
                         Some (VInt (List.length vals));
                         Some (VFloat (np_mean vals));
                         Some (VFloat (Np.median vals));
                         Some (VFloat vmin); Some (VFloat vmax);
                         Some (VFloat vlast) ])
    by (rewrite Hr; reflexivity).
  assert (Hruns : forall i, Dict.find r (run_key i)
                            = Dict.find (run_entries 1 vals) (run_key i)).
  { intros i. rewrite Hr, DictFacts.find_app.
    now rewrite summary_columns_fresh. }
  rewrite map_app, Hsummary. cbn [firstn skipn app].
  split; [repeat constructor; discriminate|].
  rewrite map_map. rewrite <- (run_cells_padded vals 1 m Hlen).
  apply map_ext. exact Hruns.
Qed.

(** X16: the layout of the CSV file for rows made by the scan: the
    seven summary columns come first, then [run_1] .. [run_M] in the
    order of the run numbers, M being the greatest number of
    observations of an experiment; every line has a cell per column,
    its summary cells filled, its run cells holding the observations in
    order and left empty beyond the runs the experiment has. *)
Theorem save_results_layout (np_mean : list float -> float)
                            (results : list row)
                            (observations : list (list float)) :
  results <> [] ->
  Forall2 (fun r vals => exists dirname,
             make_row np_mean dirname vals = Ok r)
          results observations ->
  exists csv : csv_file,
    save_results results = Ok csv /\
    csv_path csv = output_path /\
    csv_header csv
    = base_cols
      ++ map run_key (seq 1 (list_max (map (@List.length float) observations))) /\
    Forall2 (fun line vals =>
               List.length line
               = 7 + list_max (map (@List.length float) observations) /\
               Forall (fun c => c <> None) (firstn 7 line) /\
               skipn 7 line
               = map (fun v => Some (VFloat v)) vals
                 ++ repeat None
                      (list_max (map (@List.length float) observations)
                       - List.length vals))
            (csv_lines csv) observations.
Proof.
  intros Hne Hrows.
  set (M := list_max (map (@List.length float) observations)).
  assert (Hkeys : Forall2 (fun r n =>
                    Dict.keys r = base_cols ++ map run_key (seq 1 n))
                    results (map (@List.length float) observations)).
  { clear Hne M. induction Hrows as [|r vals rs obs [d Hr] _ IH]; cbn [map];
      constructor; [|exact IH].
    destruct (make_row_closed_form _ _ _ _ Hr) as (vmin & vmax & vlast & ->).
    unfold Dict.keys. rewrite map_app.
    fold (Dict.keys (run_entries 1 vals)). now rewrite run_entries_keys. }
  assert (Hcols : df_columns (DataFrame_of_records results)
                  = base_cols ++ map run_key (seq 1 M)).
  { unfold DataFrame_of_records. cbn [df_columns].
    destruct results as [|r rs]; [congruence|].
    inversion Hkeys as [|r' n rs' ns Hr Hrest Hres Hns]; subst r' rs'.
    cbn [fold_left]. rewrite Hr, CsvFacts.fold_add_first_row.
    rewrite (CsvFacts.columns_of_rows rs ns n Hrest).
    unfold M. rewrite <- Hns. reflexivity. }
  assert (Hbound : Forall (fun vals => List.length vals <= M) observations).
  { apply Forall_forall. intros vals Hin.
    assert (HM : list_max (map (@List.length float) observations) <= M)
      by (unfold M; lia).
    apply list_max_le in HM.
    apply (proj1 (Forall_forall _ _) HM). now apply in_map. }
  unfold save_results. rewrite Hcols, filter_run_cols.
  rewrite RunColFacts.sorted_run_cols_run_keys, sort_by_seq. cbn [bind].
  unfold df_select. rewrite Hcols, forallb_present. cbn [bind].
  eexists. split; [reflexivity|]. unfold to_csv.
  cbn [csv_path csv_header csv_lines df_columns df_rows DataFrame_of_records].
  split; [reflexivity|]. split; [reflexivity|].
  clear Hkeys Hcols Hne. revert Hbound. generalize M as m. intros m Hbound.
  induction Hrows as [|r vals rs obs [d Hr] _ IH]; cbn [map]; constructor.
  - inversion Hbound; subst. now apply (csv_line_of_row np_mean d).
  - apply IH. now inversion Hbound.
Qed.

Lemma save_results_layout_witness :
  let obs := [ [0.52%float; 0.48%float]; [0.4%float] ] in
  let results :=
    [ [ ("name", VStr "spot_seq1_base"); ("num_runs", VInt 2);
        ("rmse_mean", VFloat (sum_mean [0.52%float; 0.48%float]));
        ("rmse_median", VFloat (Np.median [0.52%float; 0.48%float]));
        ("rmse_min", VFloat 0.48%float); ("rmse_max", VFloat 0.52%float);
        ("rmse_last", VFloat 0.48%float);
        ("run_1", VFloat 0.52%float); ("run_2", VFloat 0.48%float) ];
      [ ("name", VStr "spot_seq1_daac_rgd_inv"); ("num_runs", VInt 1);
        ("rmse_mean", VFloat (sum_mean [0.4%float]));
        ("rmse_median", VFloat (Np.median [0.4%float]));
        ("rmse_min", VFloat 0.4%float); ("rmse_max", VFloat 0.4%float);
        ("rmse_last", VFloat 0.4%float);
        ("run_1", VFloat 0.4%float) ] ] in
  exists csv : csv_file,
    save_results results = Ok csv /\
    csv_path csv = output_path /\
    csv_header csv
    = base_cols
      ++ map run_key (seq 1 (list_max (map (@List.length float) obs))) /\
    Forall2 (fun line vals =>
               List.length line
               = 7 + list_max (map (@List.length float) obs) /\
               Forall (fun c => c <> None) (firstn 7 line) /\
               skipn 7 line
               = map (fun v => Some (VFloat v)) vals
                 ++ repeat None
                      (list_max (map (@List.length float) obs)
                       - List.length vals))
            (csv_lines csv) obs.
Proof.
  apply (save_results_layout sum_mean
    [ [ ("name", VStr "spot_seq1_base"); ("num_runs", VInt 2);
        ("rmse_mean", VFloat (sum_mean [0.52%float; 0.48%float]));
        ("rmse_median", VFloat (Np.median [0.52%float; 0.48%float]));
        ("rmse_min", VFloat 0.48%float); ("rmse_max", VFloat 0.52%float);
        ("rmse_last", VFloat 0.48%float);
        ("run_1", VFloat 0.52%float); ("run_2", VFloat 0.48%float) ];
      [ ("name", VStr "spot_seq1_daac_rgd_inv"); ("num_runs", VInt 1);
        ("rmse_mean", VFloat (sum_mean [0.4%float]));
        ("rmse_median", VFloat (Np.median [0.4%float]));
        ("rmse_min", VFloat 0.4%float); ("rmse_max", VFloat 0.4%float);
        ("rmse_last", VFloat 0.4%float);
        ("run_1", VFloat 0.4%float) ] ]
    [ [0.52%float; 0.48%float]; [0.4%float] ]).
  - discriminate.
  - constructor; [exists "spot_seq1_base"; vm_compute; reflexivity|].
    constructor; [exists "spot_seq1_daac_rgd_inv"; vm_compute; reflexivity|].
    constructor.
Defined.

(** ** The files of the Reporter *)

Lemma string_app_inv_head (a b c : string) :
  (a ++ b)%string = (a ++ c)%string -> b = c.
Proof.
  induction a as [|x a IH]; cbn [String.append]; [trivial|].
  intros [= H]. now apply IH.
Qed.

Lemma path_join_inj (dir f1 f2 : string) :
  path_join dir f1 = path_join dir f2 -> f1 = f2.
Proof.
  unfold path_join. intros H.
  apply string_app_inv_head in H. now apply (string_app_inv_head "/") in H.
Qed.

(** A column named twice makes every row of a sequence of the index
    ambiguous. *)
Lemma repeated_label (cols : list string) :
  ~ NoDup cols ->
  exists c, In c cols /\ 2 <= List.length (filter (String.eqb c) cols).
Proof.
  induction cols as [|x rest IH]; intros Hdup.
  - exfalso. apply Hdup. constructor.
  - destruct (in_dec string_dec x rest) as [Hin|Hnotin].
    + exists x. split; [now left|]. cbn [filter]. rewrite String.eqb_refl.
      cbn [List.length].
      destruct (filter (String.eqb x) rest) as [|y l] eqn:E; [|cbn; lia].
      exfalso.
      assert (H : In x (filter (String.eqb x) rest))
        by (apply filter_In; split; [exact Hin | apply String.eqb_refl]).
      rewrite E in H. contradiction.
    + destruct IH as (c & Hc & Hlen).
      { intros Hnd. apply Hdup. now constructor. }
      exists c. split; [now right|]. cbn [filter].
      destruct (String.eqb c x); cbn [List.length]; lia.
Qed.

Lemma series_row_iff (pv : pivot_table) (available_cols : list string)
                     (seq : label) :
  existsb (loc_is_series pv available_cols seq) available_cols = true
  <-> In seq (pv_index pv) /\ ~ NoDup available_cols.
Proof.
  split.
  - intros H. apply existsb_exists in H as (c & Hc & Hser).
    unfold loc_is_series in Hser. apply andb_true_iff in Hser as [Hidx Hcount].
    apply existsb_exists in Hidx as (x & Hx & Heq).
    apply PivotFacts.label_eqb_eq in Heq. subst x. split; [exact Hx|].
    intros Hnd. apply Nat.ltb_lt in Hcount.
    pose proof (filter_eqb_nodup available_cols c Hnd). lia.
  - intros [Hidx Hdup]. destruct (repeated_label available_cols Hdup)
      as (c & Hc & Hlen).
    apply existsb_exists. exists c. split; [exact Hc|].
    unfold loc_is_series. apply andb_true_iff. split.
    + apply existsb_exists. exists seq. split; [exact Hidx|].
      now apply PivotFacts.label_eqb_eq.
    + apply Nat.ltb_lt. lia.
Qed.

Lemma render_rows_raise (pv : pivot_table) (available_cols : list string)
                        (sequences : list label)
                        (pct_changes : Dict.t (list float)) :
  (forall c, In c available_cols -> c <> "base" ->
             In c (Dict.keys pct_changes)) ->
  existsb (fun seq => existsb (loc_is_series pv available_cols seq)
                              available_cols) sequences = true ->
  render_rows pv available_cols sequences pct_changes = Raise ValueError.
Proof.
  revert pct_changes; induction sequences as [|seq rest IH];
    intros pct_changes Hkeys; cbn [render_rows existsb]; [discriminate|].
  destruct (existsb (loc_is_series pv available_cols seq) available_cols)
    eqn:Hser; cbn [orb].
  - intros _. unfold render_row. rewrite Hser. reflexivity.
  - intros Hrest.
    destruct (render_row_ok pv available_cols seq pct_changes Hser Hkeys)
      as (cells & pc1 & -> & _ & Hk1).
    cbn [bind fst snd]. rewrite IH; [reflexivity| |exact Hrest].
    intros c Hc Hnb. rewrite Hk1. now apply Hkeys.
Qed.

Lemma pct_changes_keys (available_cols : list string) (c : string) :
  In c available_cols -> c <> "base" ->
  In c (Dict.keys
          (fold_left (fun d col => Dict.set d col (@nil float))
             (filter (fun col => negb (String.eqb col "base")) available_cols)
             [])).
Proof.
  intros Hc Hnb. apply DictFacts.find_some_iff_key.
  rewrite (find_fold_set (fun _ => @nil float)), existsb_eqb_in; [eauto|].
  apply filter_In. split; [exact Hc|].
  apply String.eqb_neq in Hnb. now rewrite Hnb.
Qed.

Lemma build_table_raise (np_mean : list float -> float) (pv : pivot_table)
                        (sequences : list label) (title : string)
                        (available_cols : list string) :
  existsb (fun seq => existsb (loc_is_series pv available_cols seq)
                              available_cols) sequences = true ->
  build_table np_mean pv sequences title available_cols = Raise ValueError.
Proof.
  intros Hamb. unfold build_table.
  rewrite render_rows_raise; [reflexivity| |exact Hamb].
  intros c. apply pct_changes_keys.
Qed.

Lemma generate_table_html_files (np_mean : list float -> float)
                                (pv : pivot_table) (sequences : list label)
                                (title : string) (columns : list string)
                                (output_file : string) (w : world) :
  existsb (fun seq =>
             existsb (loc_is_series pv
                        (filter (fun c => existsb (label_eqb (Some c))
                                                  (pv_columns pv)) columns)
                        seq)
                     (filter (fun c => existsb (label_eqb (Some c))
                                               (pv_columns pv)) columns))
          sequences = false ->
  exists w' : world,
    generate_table_html np_mean pv sequences title columns output_file w
    = Ok w' /\
    (forall path, path <> output_file ->
       Dict.find (w_files w') path = Dict.find (w_files w) path) /\
    (filter (fun c => existsb (label_eqb (Some c)) (pv_columns pv)) columns = []
     -> w' = print w (WarnNoColumns title)) /\
    (filter (fun c => existsb (label_eqb (Some c)) (pv_columns pv)) columns <> []
     -> exists t : html_table,
          build_table np_mean pv sequences title
            (filter (fun c => existsb (label_eqb (Some c)) (pv_columns pv))
                    columns) = Ok t /\
          w' = print (write_file w output_file (TableDoc t))
                     (Generated output_file) /\
          Dict.find (w_files w') output_file = Some (TableDoc t)).
Proof.
  unfold generate_table_html.
  destruct (filter _ columns) as [|c cs] eqn:E; intros Hamb.
  - eexists. split; [reflexivity|]. repeat split; try congruence.
  - destruct (build_table_shape np_mean pv sequences title (c :: cs))
      as (t & Ht & _).
    { intros seq Hseq.
      destruct (existsb (loc_is_series pv (c :: cs) seq) (c :: cs)) eqn:Hser;
        [|reflexivity].
      assert (H : existsb (fun seq => existsb (loc_is_series pv (c :: cs) seq)
                                              (c :: cs)) sequences = true)
        by (apply existsb_exists; exists seq; split; assumption).
      congruence. }
    rewrite Ht. cbn [bind]. eexists. split; [reflexivity|].
    split; [|split; [discriminate|]].
    + intros path Hne. cbn [print write_file w_files].
      apply DictFacts.find_set_other. congruence.
    + intros _. exists t. repeat split.
      cbn [print write_file w_files]. apply DictFacts.find_set_same.
Qed.

Lemma no_series_of_nodup_columns (pv : pivot_table) (sequences : list label)
                                 (columns : list string) :
  NoDup columns ->
  existsb (fun seq =>
             existsb (loc_is_series pv
                        (filter (fun c => existsb (label_eqb (Some c))
                                                  (pv_columns pv)) columns)
                        seq)
                     (filter (fun c => existsb (label_eqb (Some c))
                                               (pv_columns pv)) columns))
          sequences = false.
Proof.
  intros Hnd. induction sequences as [|seq rest IH]; cbn [existsb];
    [reflexivity|].
  rewrite IH, no_series_nodup; [reflexivity|]. now apply NoDup_filter.
Qed.

Lemma generate_tables_files (np_mean : list float -> float)
                            (pv : pivot_table) (sequences : list label)
                            (configs : list table_config)
                            (tables_list : list index_entry) (w : world) :
  NoDup (map cfg_filename configs) ->
  (forall config, In config configs -> NoDup (cfg_columns config)) ->
  exists w' : world,
    generate_tables np_mean pv sequences configs tables_list w
    = Ok (tables_list ++ map index_entry_of configs, w') /\
    (forall config, In config configs ->
       filter (fun c => existsb (label_eqb (Some c)) (pv_columns pv))
              (cfg_columns config) <> [] ->
       exists t, Dict.find (w_files w')
                   (path_join output_dir (cfg_filename config))
                 = Some (TableDoc t)) /\
    (forall path,
       (forall config, In config configs ->
          filter (fun c => existsb (label_eqb (Some c)) (pv_columns pv))
                 (cfg_columns config) <> [] ->
          path <> path_join output_dir (cfg_filename config)) ->
       Dict.find (w_files w') path = Dict.find (w_files w) path).
Proof.
  revert tables_list w; induction configs as [|config rest IH];
    intros tables_list w Hnd Hcols; cbn [generate_tables map].
  - exists w. rewrite app_nil_r. split; [reflexivity|].
    split; [intros c []|reflexivity].
  - cbn [map] in Hnd. inversion Hnd as [|? ? Hnotin Hnd']; subst.
    destruct (generate_table_html_files np_mean pv sequences
                (cfg_title config) (cfg_columns config)
                (path_join output_dir (cfg_filename config)) w)
      as (w1 & -> & Hother & Hskip & Hwrite).
    { apply no_series_of_nodup_columns, Hcols. now left. }
    cbn [bind].
    destruct (IH (tables_list ++ [index_entry_of config]) w1 Hnd')
      as (w2 & H2 & Hpresent & Hrest).
    { intros cfg Hin. apply Hcols. now right. }
    exists w2. split.
    { unfold index_entry_of in *. rewrite H2, <- app_assoc. reflexivity. }
    split.
    + intros cfg [<-|Hin] Havail.
      * destruct (Hwrite Havail) as (t & _ & _ & Hfind).
        exists t. rewrite Hrest; [exact Hfind|].
        intros cfg' Hin' _ Heq. apply path_join_inj in Heq.
        apply Hnotin. rewrite Heq. now apply in_map.
      * now apply Hpresent.
    + intros path Hpath. rewrite Hrest.
      * destruct (filter (fun c => existsb (label_eqb (Some c)) (pv_columns pv))
                         (cfg_columns config)) as [|c cs] eqn:E.
        -- now rewrite (Hskip eq_refl).
        -- apply Hother. apply Hpath; [now left|]. rewrite E. discriminate.
      * intros cfg Hin. apply Hpath. now right.
Qed.

(** X17: what the table generator does with any list of columns.  It
    raises nothing but [ValueError], and raises it exactly when a
    resolved column is named twice while a sequence of the table is in
    the index of the pivot.  When it returns, every file other than
    its own is as it was; with no resolved column its own file is as it
    was too and the warning is the one line printed; with one at least
    its own file holds a table and the line printed names the file. *)
Theorem generate_table_html_effect
    (np_mean : list float -> float) (pv : pivot_table)
    (sequences : list label) (title : string) (columns : list string)
    (output_file : string) (w : world) :
  (generate_table_html np_mean pv sequences title columns output_file w
   = Raise ValueError
   <-> ~ NoDup (filter (fun c => existsb (label_eqb (Some c)) (pv_columns pv))
                       columns) /\
       exists seq, In seq sequences /\ In seq (pv_index pv)) /\
  (forall e : exn,
     generate_table_html np_mean pv sequences title columns output_file w
     = Raise e -> e = ValueError) /\
  (forall w' : world,
     generate_table_html np_mean pv sequences title columns output_file w
     = Ok w' ->
     (forall path, path <> output_file ->
        Dict.find (w_files w') path = Dict.find (w_files w) path) /\
     (filter (fun c => existsb (label_eqb (Some c)) (pv_columns pv)) columns
      = [] ->
      w_files w' = w_files w /\
      w_out w' = w_out w ++ [WarnNoColumns title]) /\
     (filter (fun c => existsb (label_eqb (Some c)) (pv_columns pv)) columns
      <> [] ->
      exists t : html_table,
        Dict.find (w_files w') output_file = Some (TableDoc t) /\
        w_out w' = w_out w ++ [Generated output_file])).
Proof.
  set (available_cols :=
         filter (fun c => existsb (label_eqb (Some c)) (pv_columns pv))
                columns).
  destruct (existsb (fun seq => existsb (loc_is_series pv available_cols seq)
                                        available_cols) sequences) eqn:Hamb.
  - assert (Hraise : generate_table_html np_mean pv sequences title columns
                       output_file w = Raise ValueError).
    { unfold generate_table_html. fold available_cols.
      destruct available_cols as [|c cs] eqn:E.
      - exfalso. clear -Hamb. induction sequences as [|seq rest IH];
          cbn [existsb] in Hamb; [discriminate | now apply IH].
      - now rewrite (build_table_raise np_mean pv sequences title (c :: cs) Hamb). }
    rewrite Hraise. split; [|split; [now intros e [= <-] | discriminate]].
    split; [intros _ | reflexivity].
    apply existsb_exists in Hamb as (seq & Hseq & Hser).
    apply series_row_iff in Hser as [Hidx Hdup].
    split; [exact Hdup | now exists seq].
  - destruct (generate_table_html_files np_mean pv sequences title columns
                output_file w Hamb) as (w1 & Hok & Hother & Hskip & Hwrite).
    rewrite Hok. split; [|split; [discriminate|]].
    + split; [discriminate|]. intros (Hdup & seq & Hseq & Hidx). exfalso.
      assert (Hser : existsb (loc_is_series pv available_cols seq)
                             available_cols = true)
        by (apply series_row_iff; split; assumption).
      assert (H : existsb (fun seq => existsb (loc_is_series pv available_cols
                                                 seq) available_cols)
                          sequences = true)
        by (apply existsb_exists; exists seq; split; assumption).
      congruence.
    + intros w' [= <-]. split; [exact Hother|]. split.
      * intros Hempty. rewrite (Hskip Hempty). split; reflexivity.
      * intros Hsome. destruct (Hwrite Hsome) as (t & _ & -> & Hfind).
        exists t. split; [exact Hfind | reflexivity].
Qed.

(** X18: after the loop over the configured groups, started without
    files, the output directory holds a table for exactly the groups
    that have a resolved column, each under its own file name, and the
    list for the index holds a card for every group all the same. *)
Theorem generated_files (np_mean : list float -> float) (pv : pivot_table)
                        (sequences : list label) :
  exists w' : world,
    generate_tables np_mean pv sequences tables_config []
      {| w_files := []; w_out := [] |}
    = Ok (map index_entry_of tables_config, w') /\
    forall config, In config tables_config ->
      ((exists doc, Dict.find (w_files w')
                      (path_join output_dir (cfg_filename config)) = Some doc)
       <-> filter (fun c => existsb (label_eqb (Some c)) (pv_columns pv))
                  (cfg_columns config) <> []).
Proof.
  assert (Hnd : NoDup (map cfg_filename tables_config)).
  { unfold tables_config. cbn [map cfg_filename].
    repeat (constructor; [cbn [In]; intuition discriminate|]). constructor. }
  destruct (generate_tables_files np_mean pv sequences tables_config []
              {| w_files := []; w_out := [] |} Hnd tables_config_nodup)
    as (w' & H & Hpresent & Hrest).
  exists w'. split; [exact H|].
  intros config Hin. split.
  - intros [doc Hdoc] Hempty.
    rewrite Hrest in Hdoc; [discriminate|].
    intros cfg Hcfg Havail Heq. apply path_join_inj in Heq.
    assert (cfg = config).
    { revert Hcfg Hin Heq. unfold tables_config. cbn [In].
      intros Hc Hi Heq.
      repeat (destruct Hc as [<-|Hc]; [|]); try contradiction;
        repeat (destruct Hi as [<-|Hi]; [|]); try contradiction;
        first [reflexivity | discriminate Heq]. }
    subst cfg. contradiction.
  - intros Havail. destruct (Hpresent config Hin Havail) as [t Ht].
    now exists (TableDoc t).
Qed.

(** ** Which captured tokens convert *)

Module LiteralFacts.

Local Open Scope string_scope.

Lemma digit_not_dot (c : ascii) :
  Re.is_digit c = true -> Ascii.eqb c "." = false.
Proof.
  destruct c as [[] [] [] [] [] [] [] []]; vm_compute; congruence.
Qed.

(** What [span] returns for the digits of a token of digits and dots:
    the digits in front, and a rest that is empty or starts with a
    dot. *)
Lemma span_digits (s : string) :
  string_forall Re.is_digit_or_dot s = true ->
  let (run, rest) := Re.span Re.is_digit s in
  count_char "." s = count_char "." rest /\
  string_exists Re.is_digit s
  = negb (String.eqb run "") || string_exists Re.is_digit rest /\
  string_forall Re.is_digit_or_dot rest = true /\
  (rest = "" \/ exists rest', rest = String "." rest').
Proof.
  induction s as [|c s IH]; cbn [string_forall Re.span].
  - intros _. repeat split. now left.
  - intros H. apply andb_true_iff in H as [Hc Hs].
    destruct (Re.is_digit c) eqn:Hd.
    + specialize (IH Hs). destruct (Re.span Re.is_digit s) as [run rest].
      destruct IH as (Hcount & Hex & Hall & Hshape).
      cbn [count_char string_exists String.eqb negb orb].
      rewrite (digit_not_dot c Hd), Hd. cbn [orb]. repeat split; try assumption.
    + cbn [count_char string_exists String.eqb negb orb]. rewrite Hd.
      repeat split.
      * cbn [string_forall]. now rewrite Hc, Hs.
      * right. exists s. f_equal.
        unfold Re.is_digit_or_dot in Hc. rewrite Hd in Hc. cbn [orb] in Hc.
        now apply Ascii.eqb_eq in Hc.
Qed.

Lemma dot_first_count (s : string) :
  (s = "" \/ exists rest, s = String "." rest) ->
  (count_char "." s =? 0)%nat = String.eqb s "".
Proof. intros [->|(rest & ->)]; reflexivity. Qed.

Lemma empty_no_digit (s : string) :
  String.eqb s "" = true -> string_exists Re.is_digit s = false.
Proof. destruct s; [reflexivity | discriminate]. Qed.

Lemma valid_float_literal_spec (tok : string) :
  string_forall Re.is_digit_or_dot tok = true ->
  valid_float_literal tok
  = (count_char "." tok <=? 1)%nat && string_exists Re.is_digit tok.
Proof.
  intros Htok. unfold valid_float_literal.
  pose proof (span_digits tok Htok) as H1.
  destruct (Re.span Re.is_digit tok) as [int_part rest].
  destruct H1 as (Hcount & Hex & Hall & Hshape).
  rewrite Hcount, Hex.
  destruct Hshape as [->|(frac & ->)].
  - cbn [count_char string_exists]. now rewrite orb_false_r.
  - cbn [string_forall] in Hall. apply andb_true_iff in Hall as [_ Hfrac].
    pose proof (span_digits frac Hfrac) as H2.
    destruct (Re.span Re.is_digit frac) as [frac_part rest'].
    destruct H2 as (Hcount2 & Hex2 & _ & Hshape2).
    cbn [count_char string_exists Ascii.eqb Bool.eqb andb].
    replace (Re.is_digit ".") with false by reflexivity. cbn [orb].
    rewrite Hcount2, Hex2.
    replace (1 + count_char "." rest' <=? 1)%nat
      with (count_char "." rest' =? 0)%nat
      by (destruct (count_char "." rest'); reflexivity).
    rewrite (dot_first_count rest' Hshape2).
    destruct (String.eqb rest' "") eqn:E; cbn [andb]; [|reflexivity].
    rewrite (empty_no_digit rest' E), orb_false_r.
    now destruct (String.eqb int_part ""), (String.eqb frac_part "").
Qed.

End LiteralFacts.

(** X19: a token the pattern captures converts to a number exactly
    when it holds one dot at most and one digit at least; so reading a
    results file raises [ValueError] exactly when some captured token
    has two dots or more, or no digit. *)
Theorem captured_token_converts (float_of_literal : string -> float)
                                (content : string) :
  Forall (fun tok =>
            valid_float_literal tok
            = (count_char "." tok <=? 1)%nat && string_exists Re.is_digit tok)
         (Re.findall content) /\
  (parse_results_file float_of_literal (Some content) = Raise ValueError
   <-> exists tok, In tok (Re.findall content) /\
                   (2 <= count_char "." tok \/
                    string_exists Re.is_digit tok = false)).
Proof.
  assert (Hall : Forall (fun tok =>
            valid_float_literal tok
            = (count_char "." tok <=? 1)%nat && string_exists Re.is_digit tok)
            (Re.findall content)).
  { eapply Forall_impl; [|apply (ReFacts.findall_from_tokens content 0)].
    intros tok [_ Htok]. now apply LiteralFacts.valid_float_literal_spec. }
  split; [exact Hall|].
  assert (Hparse : parse_results_file float_of_literal (Some content)
                   = Raise ValueError
                   <-> mapM (py_float float_of_literal) (Re.findall content)
                       = Raise ValueError).
  { cbn [parse_results_file].
    destruct (mapM (py_float float_of_literal) (Re.findall content))
      as [[|v vals]|e]; cbn [bind]; split; congruence. }
  rewrite Hparse, <- mapM_py_float_raise.
  split; intros (tok & Hin & Htok); exists tok; (split; [exact Hin|]);
    pose proof (proj1 (Forall_forall _ _) Hall tok Hin) as Hspec.
  - rewrite Hspec in Htok. apply andb_false_iff in Htok as [Hc|Hd].
    + left. apply Nat.leb_gt in Hc. lia.
    + now right.
  - rewrite Hspec. apply andb_false_iff. destruct Htok as [Hc|Hd].
    + left. apply Nat.leb_gt. lia.
    + now right.
Qed.

(** ** Column headers *)

Module DisplayFacts.

Lemma replace_underscore (s : string) :
  string_forall (fun c => negb (Ascii.eqb c "_"))
                (Display.replace_char "_" " " s) = true.
Proof.
  induction s as [|c s IH]; cbn [Display.replace_char string_forall];
    [reflexivity|].
  rewrite IH, andb_true_r. now destruct (Ascii.eqb c "_") eqn:E; [|rewrite E].
Qed.

Lemma remove_from_forall (p : ascii -> bool) (pat s : string) (skip : nat) :
  string_forall p s = true ->
  string_forall p (Display.remove_from pat s skip) = true.
Proof.
  revert skip; induction s as [|c s IH]; intros skip;
    cbn [Display.remove_from string_forall]; [reflexivity|].
  intros H. apply andb_true_iff in H as [Hc Hs].
  destruct skip as [|k]; [|now apply IH].
  destruct (String.prefix pat (String c s)); [now apply IH|].
  cbn [string_forall]. now rewrite Hc, IH.
Qed.

Lemma case_not_underscore (c : ascii) :
  Ascii.eqb c "_" = false ->
  Ascii.eqb (Re.lower c) "_" = false /\ Ascii.eqb (Display.upper c) "_" = false.
Proof.
  destruct c as [[] [] [] [] [] [] [] []]; vm_compute; split; congruence.
Qed.

Lemma title_from_underscore (s : string) (previous_is_cased : bool) :
  string_forall (fun c => negb (Ascii.eqb c "_")) s = true ->
  string_forall (fun c => negb (Ascii.eqb c "_"))
                (Display.title_from s previous_is_cased) = true.
Proof.
  revert previous_is_cased; induction s as [|c s IH]; intros prev;
    cbn [Display.title_from string_forall]; [reflexivity|].
  intros H. apply andb_true_iff in H as [Hc Hs].
  apply negb_true_iff in Hc.
  destruct (case_not_underscore c Hc) as [Hl Hu].
  destruct (Display.is_lower c || Display.is_upper c); cbn [string_forall].
  - rewrite IH by exact Hs. destruct prev; [rewrite Hl | rewrite Hu]; reflexivity.
  - now rewrite Hc, IH.
Qed.

End DisplayFacts.

(** X20: the header shown for a column never contains an underscore,
    whatever the name of the column. *)
Theorem display_name_no_underscore (col : string) :
  string_forall (fun c => negb (Ascii.eqb c "_")) (Display.display_name col)
  = true.
Proof.
  unfold Display.display_name.
  apply DisplayFacts.title_from_underscore, DisplayFacts.remove_from_forall,
        DisplayFacts.replace_underscore.
Qed.

(** ** The table in closed form *)

Lemma dict_append_find (pct_changes : Dict.t (list float)) (col : string)
                       (p : float) (l : list float) :
  Dict.find pct_changes col = Some l ->
  exists pc1,
    dict_append pct_changes col p = Ok pc1 /\
    Dict.keys pc1 = Dict.keys pct_changes /\
    forall c, Dict.find pc1 c
              = if String.eqb c col then Some (l ++ [p])
                else Dict.find pct_changes c.
Proof.
  intros Hl. unfold dict_append, Dict.get. rewrite Hl. cbn [bind].
  eexists. split; [reflexivity|].
  split; [now apply DictFacts.keys_set_present with (v0 := l)|].
  intros c. destruct (String.eqb c col) eqn:E.
  - apply String.eqb_eq in E. subst c. apply DictFacts.find_set_same.
  - apply DictFacts.find_set_other. apply String.eqb_neq in E. congruence.
Qed.

Lemma render_cells_record (f : string -> float) (cols : list string)
                          (row_values : Dict.t float) (baseline_val : float)
                          (min_val : option float)
                          (pct_changes : Dict.t (list float)) :
  NoDup cols ->
  (forall c, In c cols -> Dict.find row_values c = Some (f c)) ->
  (forall c, In c cols -> c <> "base" -> In c (Dict.keys pct_changes)) ->
  exists pct_changes' : Dict.t (list float),
    render_cells cols row_values baseline_val min_val pct_changes
    = Ok (map (fun col => fst (render_cell col (f col) baseline_val min_val))
              cols, pct_changes') /\
    Dict.keys pct_changes' = Dict.keys pct_changes /\
    forall c,
      Dict.find pct_changes' c
      = option_map
          (fun l => l ++ (if existsb (String.eqb c) cols
                          then option_to_list
                                 (snd (render_cell c (f c) baseline_val min_val))
                          else []))
          (Dict.find pct_changes c).
Proof.
  intros Hnd. revert pct_changes; induction Hnd as [|col rest Hnotin Hnd IH];
    intros pct_changes Hvals Hkeys; cbn [render_cells map].
  - exists pct_changes. split; [reflexivity|]. split; [reflexivity|].
    intros c. cbn [existsb]. destruct (Dict.find pct_changes c); cbn [option_map];
      [now rewrite app_nil_r | reflexivity].
  - unfold Dict.get at 1. rewrite (Hvals col (or_introl eq_refl)). cbn [bind].
    destruct (render_cell col (f col) baseline_val min_val) as [cell pct] eqn:Hcell.
    assert (Hstep : exists pc1,
              match pct with
              | Some p => dict_append pct_changes col p
              | None => Ok pct_changes
              end = Ok pc1 /\
              Dict.keys pc1 = Dict.keys pct_changes /\
              forall c, Dict.find pc1 c
                        = option_map
                            (fun l => l ++ (if String.eqb c col
                                            then option_to_list pct else []))
                            (Dict.find pct_changes c)).
    { destruct pct as [p|].
      - assert (Hnb : col <> "base").
        { apply (render_cell_pct_not_base col (f col) baseline_val min_val p).
          now rewrite Hcell. }
        pose proof (Hkeys col (or_introl eq_refl) Hnb) as Hin.
        apply DictFacts.find_some_iff_key in Hin as [l Hl].
        destruct (dict_append_find pct_changes col p l Hl)
          as (pc1 & -> & Hk & Hfind).
        exists pc1. split; [reflexivity|]. split; [exact Hk|].
        intros c. rewrite Hfind. destruct (String.eqb c col) eqn:E.
        + apply String.eqb_eq in E. subst c. now rewrite Hl.
        + destruct (Dict.find pct_changes c); cbn [option_map];
            [now rewrite app_nil_r | reflexivity].
      - exists pct_changes. split; [reflexivity|]. split; [reflexivity|].
        intros c. cbn [option_to_list].
        destruct (Dict.find pct_changes c); cbn [option_map];
          [destruct (String.eqb c col); now rewrite app_nil_r | reflexivity]. }
    destruct Hstep as (pc1 & -> & Hk1 & Hfind1). cbn [bind].
    destruct (IH pc1) as (pc2 & -> & Hk2 & Hfind2).
    + intros c Hc. apply Hvals. now right.
    + intros c Hc Hnb. rewrite Hk1. apply Hkeys; [now right | exact Hnb].
    + cbn [bind fst snd]. exists pc2. split; [reflexivity|].
      split; [congruence|].
      intros c. rewrite Hfind2, Hfind1. cbn [existsb].
      destruct (Dict.find pct_changes c) as [l|]; cbn [option_map];
        [|reflexivity].
      f_equal. rewrite <- app_assoc. f_equal.
      destruct (String.eqb c col) eqn:E; cbn [orb].
      * apply String.eqb_eq in E. subst c.
        rewrite (CsvFacts.existsb_eqb_false col rest Hnotin), app_nil_r.
        now rewrite Hcell.
      * reflexivity.
Qed.

Lemma render_rows_record (pv : pivot_table) (available_cols : list string)
                         (sequences : list label)
                         (pct_changes : Dict.t (list float)) :
  NoDup available_cols ->
  (forall c, In c available_cols -> c <> "base" ->
             In c (Dict.keys pct_changes)) ->
  exists pct_changes' : Dict.t (list float),
    render_rows pv available_cols sequences pct_changes
    = Ok (map (fun seq =>
                 TdSeq seq
                 :: map (fun col => fst (row_cell pv available_cols seq col))
                        available_cols)
              sequences, pct_changes') /\
    Dict.keys pct_changes' = Dict.keys pct_changes /\
    forall c, In c available_cols ->
      Dict.find pct_changes' c
      = option_map
          (fun l => l ++ recorded_changes pv available_cols sequences c)
          (Dict.find pct_changes c).
Proof.
  intros Hnd. revert pct_changes; induction sequences as [|seq rest IH];
    intros pct_changes Hkeys; cbn [render_rows map].
  - exists pct_changes. split; [reflexivity|]. split; [reflexivity|].
    intros c _. unfold recorded_changes. cbn [flat_map].
    destruct (Dict.find pct_changes c); cbn [option_map];
      [now rewrite app_nil_r | reflexivity].
  - unfold render_row. rewrite (no_series_nodup pv available_cols seq Hnd).
    fold (row_values_of pv available_cols seq).
    destruct (render_cells_record (pv_lookup pv available_cols seq)
                available_cols (row_values_of pv available_cols seq)
                (Dict.get_or (row_values_of pv available_cols seq) "base" nan)
                (py_min (valid_values (row_values_of pv available_cols seq)))
                pct_changes Hnd)
      as (pc1 & -> & Hk1 & Hfind1).
    + intros c Hc. unfold row_values_of.
      now rewrite find_fold_set, (existsb_eqb_in c _ Hc).
    + exact Hkeys.
    + cbn [bind fst snd].
      destruct (IH pc1) as (pc2 & -> & Hk2 & Hfind2).
      { intros c Hc Hnb. rewrite Hk1. now apply Hkeys. }
      cbn [bind fst snd]. exists pc2. split; [reflexivity|].
      split; [congruence|].
      intros c Hc. rewrite (Hfind2 c Hc), Hfind1, (existsb_eqb_in c _ Hc).
      destruct (Dict.find pct_changes c) as [l|]; cbn [option_map];
        [|reflexivity].
      f_equal. rewrite <- app_assoc. reflexivity.
Qed.

Lemma avg_cells_closed (np_mean : list float -> float)
                       (recorded : string -> list float)
                       (cols : list string)
                       (pct_changes : Dict.t (list float)) :
  (forall c, In c cols -> c <> "base" ->
             Dict.find pct_changes c = Some (recorded c)) ->
  avg_cells np_mean cols pct_changes
  = Ok (map (fun col =>
               match recorded col with
               | [] => TdDash
               | _ :: _ =>
                   TdAvg (pct_class_of (np_mean (recorded col)))
                         (np_mean (recorded col))
               end)
            (filter (fun col => negb (String.eqb col "base")) cols)).
Proof.
  induction cols as [|col rest IH]; intros H; cbn [avg_cells filter map];
    [reflexivity|].
  rewrite IH by (intros c Hc; apply H; now right).
  destruct (String.eqb col "base") eqn:E; cbn [negb]; [reflexivity|].
  apply String.eqb_neq in E.
  unfold Dict.get. rewrite (H col (or_introl eq_refl) E). cbn [bind map].
  now destruct (recorded col).
Qed.

(** X21: the table of a group in closed form, for resolved columns
    that are distinct.  The body holds, for every sequence in order,
    the sequence and the cell of each column.  The average row holds
    its label and the dash of the baseline, then for every column but
    [base] the mean of the percent changes which the cells of that
    column recorded, taken over the sequences in order, with its class,
    or a dash when the column recorded none. *)
Theorem build_table_closed_form (np_mean : list float -> float)
                                (pv : pivot_table) (sequences : list label)
                                (title : string)
                                (available_cols : list string) :
  NoDup available_cols ->
  build_table np_mean pv sequences title available_cols
  = Ok {| tbl_title := title;
          tbl_header := "Sequence" :: map Display.display_name available_cols;
          tbl_body :=
            map (fun seq =>
                   TdSeq seq
                   :: map (fun col => fst (row_cell pv available_cols seq col))
                          available_cols)
                sequences;
          tbl_avg_row :=
            TdAvgLabel :: TdDash
            :: map (fun col =>
                      match recorded_changes pv available_cols sequences col
                      with
                      | [] => TdDash
                      | _ :: _ =>
                          let avg_pct :=
                            np_mean (recorded_changes pv available_cols
                                       sequences col) in
                          TdAvg (pct_class_of avg_pct) avg_pct
                      end)
                   (filter (fun col => negb (String.eqb col "base"))
                           available_cols) |}.
Proof.
  intros Hnd. unfold build_table.
  set (pct_changes :=
         fold_left (fun d col => Dict.set d col [])
           (filter (fun col => negb (String.eqb col "base")) available_cols) []).
  assert (Hinit : forall c, In c available_cols -> c <> "base" ->
                            Dict.find pct_changes c = Some []).
  { intros c Hc Hnb. unfold pct_changes.
    rewrite (find_fold_set (fun _ => @nil float)), existsb_eqb_in; [reflexivity|].
    apply filter_In. split; [exact Hc|].
    apply String.eqb_neq in Hnb. now rewrite Hnb. }
  destruct (render_rows_record pv available_cols sequences pct_changes Hnd)
    as (pc' & -> & _ & Hfind).
  { intros c Hc Hnb. apply DictFacts.find_some_iff_key.
    rewrite (Hinit c Hc Hnb). eauto. }
  cbn [bind fst snd].
  rewrite (avg_cells_closed np_mean
             (recorded_changes pv available_cols sequences)).
  - reflexivity.
  - intros c Hc Hnb. now rewrite (Hfind c Hc), (Hinit c Hc Hnb).
Qed.

Lemma build_table_closed_form_witness :
  build_table sum_mean
    {| pv_index := [Some "spot_seq1"];
       pv_columns := [Some "base"; Some "daac_rgd_inv"];
       pv_cells := [((Some "spot_seq1", Some "base"), 0.5%float);
                    ((Some "spot_seq1", Some "daac_rgd_inv"), 0.25%float)] |}
    [Some "spot_seq1"] "Baseline vs RGD (Inverse + Metric)"
    ["base"; "daac_rgd_inv"]
  = Ok {| tbl_title := "Baseline vs RGD (Inverse + Metric)";
          tbl_header := ["Sequence"; "Base"; "Rgd Inv"];
          tbl_body := [[TdSeq (Some "spot_seq1"); TdValue "" 0.5%float None;
                        TdValue "best" 0.25%float
                          (Some ("improvement", (-50)%float))]];
          tbl_avg_row := [TdAvgLabel; TdDash;
                          TdAvg "improvement" (-50)%float] |}.
Proof.
  apply (build_table_closed_form sum_mean
           {| pv_index := [Some "spot_seq1"];
              pv_columns := [Some "base"; Some "daac_rgd_inv"];
              pv_cells :=
                [((Some "spot_seq1", Some "base"), 0.5%float);
                 ((Some "spot_seq1", Some "daac_rgd_inv"), 0.25%float)] |}
           [Some "spot_seq1"] "Baseline vs RGD (Inverse + Metric)"
           ["base"; "daac_rgd_inv"]).
  repeat (constructor; [cbn [In]; intuition discriminate|]). constructor.
Defined.
